(** * TalentFlow: the mock API handlers and the optimistic drag-and-drop
      controllers, embedded from the JavaScript sources

    - [JS]            the fragment of JavaScript values and array/string
                      built-ins the sources rely on;
    - [Dexie]         the collection store behind [db] (src/db.js schema);
    - [Handlers]      src/api/handlers.js, one function per MSW resolver,
                      and the array that gives a request to the first
                      resolver whose method and path match;
    - [CandidatesPage] src/pages/CandidatesPage.jsx (Kanban stage moves);
    - [JobsPage]      src/pages/JobsPage.jsx (jobs board reorder);
    - [Inv]           what the schema promises about the store;
    - [Assessments]   the assessment read resolver of src/api/handlers.js;
    - [Router]        src/hooks/useHashNavigation.js and the detail pages;
    - [JobForm]       the job form and the loader of the jobs board;
    - [CandidateViews] the loader, the search box and the Kanban columns;
    - [Toasts]        the toast provider;
    - [AssessmentForm] conditional questions.

    Latency ([randomLatency]) is not modelled.  The outcome of
    [simulateError(rate)], i.e. of [Math.random() < rate], is an explicit
    boolean argument [fail] of every write resolver.  Numbers are the
    integers among the doubles ([JS.to_double]).  A handler of a page is
    modelled up to its return; the loads that a toast sets off afterwards
    are [JobForm.settle] and [CandidateViews.settle]. *)

From Stdlib Require Import ZArith String Ascii Lia Permutation.
From Stdlib Require OrderedTypeEx.
From stdpp Require Import gmap strings list fin_maps sorting pretty.

(* ********************************************************************* *)
(** * JavaScript values and built-ins                                     *)
(* ********************************************************************* *)

Module JS.

(** A JSON value as the handlers see it.  Numbers are the integers the
    application stores (ids, orders, page numbers), or [NaN] after a failed
    [parseInt].  A nested array or object (tags, sections, answers) is
    never inspected by the code in scope and is kept as a bare
    reference. *)
Inductive val :=
| VNum (n : Z)
| VStr (s : string)
| VBool (b : bool)
| VNull
| VNaN
| VRef (r : nat).

#[global] Instance val_eq_dec : EqDecision val.
Proof. solve_decision. Defined.

(** A plain object: property name to value; an absent property reads as
    [undefined], i.e. [None]. *)
Abbreviation obj := (gmap string val).

(** [!v] is false: the truthiness of a possibly undefined value. *)
Definition truthy (v : option val) : bool :=
  match v with
  | None => false
  | Some VNull => false
  | Some VNaN => false
  | Some (VNum n) => negb (n =? 0)%Z
  | Some (VStr s) => negb (String.eqb s "")
  | Some (VBool b) => b
  | Some (VRef _) => true
  end.

(** [a === b] on possibly undefined values; [NaN] equals nothing. *)
Definition strict_eq (a b : option val) : bool :=
  match a with
  | Some VNaN => false
  | _ => bool_decide (a = b)
  end.

(** [{...o, [name]: v}]; a property set to [undefined] reads like an
    absent one. *)
Definition set_prop (name : string) (v : option val) (o : obj) : obj :=
  match v with
  | Some x => <[name := x]> o
  | None => delete name o
  end.

(** [JSON.stringify] writes [NaN] as [null]. *)
Definition json (v : val) : val :=
  match v with VNaN => VNull | _ => v end.

(** JavaScript numbers are IEEE 754 doubles.  Every integer up to 2^53 in
    magnitude is one; beyond that only every second, fourth, ... integer
    is, and an integer result is rounded to the nearest of them, to the
    one with the even significand when two are equally near. *)
Definition to_double (z : Z) : Z :=
  let a := Z.abs z in
  if (a <? 2 ^ 53)%Z then z
  else
    let ulp := (2 ^ (Z.log2 a - 52))%Z in
    let q := (a / ulp)%Z in
    let r := (a mod ulp)%Z in
    let q' := if (2 * r <? ulp)%Z then q
              else if (ulp <? 2 * r)%Z then (q + 1)%Z
              else if Z.even q then q else (q + 1)%Z in
    (Z.sgn z * (q' * ulp))%Z.

(** [x + y] on two integers.  (A sum beyond the largest double is
    [Infinity]; adding one to a double, the only sum in scope, never gets
    there.) *)
Definition plus (x y : Z) : Z := to_double (x + y).

(** [parseInt(s, 10)]: leading blanks, a sign, then decimal digits;
    [None] is [NaN]. *)
Definition digit (c : ascii) : option Z :=
  let n := nat_of_ascii c in
  if (48 <=? n)%nat && (n <=? 57)%nat then Some (Z.of_nat (n - 48)) else None.

Fixpoint digits (acc : option Z) (s : string) : option Z :=
  match s with
  | EmptyString => acc
  | String c s' =>
      match digit c with
      | Some d => digits (Some (10 * default 0 acc + d))%Z s'
      | None => acc
      end
  end.

Fixpoint skip_blanks (s : string) : string :=
  match s with
  | String c s' =>
      if Ascii.eqb c " " || Ascii.eqb c "009" || Ascii.eqb c "010"
         || Ascii.eqb c "013"
      then skip_blanks s' else s
  | EmptyString => s
  end.

Definition parseInt (s : string) : option Z :=
  match skip_blanks s with
  | String "-" s' => Z.opp <$> digits None s'
  | String "+" s' => digits None s'
  | s' => digits None s'
  end.

(** [String.prototype.toLowerCase], on the ASCII letters. *)
Definition lower_ascii (c : ascii) : ascii :=
  let n := nat_of_ascii c in
  if (65 <=? n)%nat && (n <=? 90)%nat then ascii_of_nat (n + 32) else c.

Fixpoint toLowerCase (s : string) : string :=
  match s with
  | EmptyString => EmptyString
  | String c s' => String (lower_ascii c) (toLowerCase s')
  end.

(** [s.startsWith(p)] *)
Fixpoint startsWith (s p : string) {struct p} : bool :=
  match p with
  | EmptyString => true
  | String a p' =>
      match s with
      | EmptyString => false
      | String b s' => Ascii.eqb a b && startsWith s' p'
      end
  end.

(** [s.includes(p)] *)
Fixpoint includes (s p : string) : bool :=
  startsWith s p ||
  match s with
  | EmptyString => false
  | String _ s' => includes s' p
  end.

(** [s.split(sep)] for a one-character separator: the pieces between the
    separators, empty pieces included. *)
Fixpoint split (sep : ascii) (s : string) : list string :=
  match s with
  | EmptyString => [EmptyString]
  | String c s' =>
      if Ascii.eqb c sep then EmptyString :: split sep s'
      else match split sep s' with
           | piece :: pieces => String c piece :: pieces
           | [] => [String c EmptyString]
           end
  end.

(** The clamping of a relative index done by [slice] and [splice]:
    negative indices count from the end. *)
Definition rel_index (len i : Z) : Z :=
  if (i <? 0)%Z then Z.max (len + i) 0 else Z.min i len.

(** [l.slice(start, stop)] *)
Definition slice {A} (l : list A) (start stop : Z) : list A :=
  let len := Z.of_nat (length l) in
  let k := rel_index len start in
  let final := rel_index len stop in
  take (Z.to_nat (final - k)) (drop (Z.to_nat k) l).

(** [l.findIndex(p)], [-1] when nothing matches. *)
Fixpoint findIndex {A} (p : A -> bool) (l : list A) : Z :=
  match l with
  | [] => -1
  | x :: l' =>
      if p x then 0
      else let i := findIndex p l' in if (i <? 0)%Z then -1 else (i + 1)%Z
  end.

(** [Array.prototype.sort(compare)], with [gt a b] standing for
    [compare(a, b) > 0].  The built-in is a stable sort; for a comparator
    that is a consistent ordering its result is the one computed here, by
    insertion: an element moves left only past elements that are strictly
    greater. *)
Fixpoint insert_sorted {A} (gt : A -> A -> bool) (x : A) (l : list A)
  : list A :=
  match l with
  | [] => [x]
  | y :: l' => if gt x y then y :: insert_sorted gt x l' else x :: y :: l'
  end.

Fixpoint sort_with {A} (gt : A -> A -> bool) (l : list A) : list A :=
  match l with
  | [] => []
  | x :: l' => insert_sorted gt x (sort_with gt l')
  end.

(** [Math.ceil(a / b)] for integers; [None] is the non-finite result of a
    division by zero (serialised as [null]). *)
Definition ceil_div (a b : Z) : option Z :=
  if (b =? 0)%Z then None else Some (- ((- a) / b))%Z.

(** [arrayMove] of @dnd-kit/sortable:
    [newArray.splice(to < 0 ? newArray.length + to : to, 0,
                     newArray.splice(from, 1)[0])].
    The insertion index is computed before the removal; an element that
    was not there to remove is inserted as [undefined] ([None]). *)
Definition arrayMove {A} (array : list A) (from to : Z) : list (option A) :=
  let len := Z.of_nat (length array) in
  let pos := if (to <? 0)%Z then (len + to)%Z else to in
  let k := Z.to_nat (rel_index len from) in
  let item := array !! k in
  let rest := delete k array in
  let at_ := Z.to_nat (rel_index (Z.of_nat (length rest)) pos) in
  (Some <$> take at_ rest) ++ item :: (Some <$> drop at_ rest).

End JS.
Export JS.

(* ********************************************************************* *)
(** * The collection store (Dexie tables over IndexedDB)                  *)
(* ********************************************************************* *)

Module Dexie.

(** One table of the schema in src/db.js.  Primary keys are the integers
    of the [++id] and [&jobId] key paths; a record stored under a key of
    another type is outside the model and is answered as a [DataError]. *)
Record Schema := {
  primKey : string;       (* inbound key path *)
  autoInc : bool;         (* [++] *)
  uniques : list string;  (* [&] secondary indexes *)
}.

Record Table := {
  rows : gmap Z obj;
  keyGen : Z;             (* next key of the key generator *)
}.

Inductive DexieError := ConstraintError | DataError.

(** What [table.get] answers when it is asked for a value that is not a
    key ([NaN]): the answer is the library's, not this repository's, and
    the model of [get] takes it as an argument.  (IndexedDB rejects such a
    key.)  No record is touched either way. *)
Inductive BadKey := BadKeyResolves | BadKeyRejects.

Definition resolves (bk : BadKey) : bool :=
  match bk with BadKeyResolves => true | BadKeyRejects => false end.

(** A key argument as it reaches the library. *)
Inductive keyarg := KInt (k : Z) | KInvalid.

(** Only numbers and strings are indexable among the modelled values. *)
Definition is_key (v : option val) : bool :=
  match v with
  | Some (VNum _) | Some (VStr _) => true
  | _ => false
  end.

(** Dexie's [cmp(a, b)], which [sortBy] sorts with.  Values of two
    different types: an array comes after everything else, then a string
    after everything else, and any other pair is not compared ([NaN], here
    [None]).  Values of one type: two numbers by size ([NaN] is neither
    above nor below a number: 0), two strings by their characters, and two
    booleans, two [null]s or two missing values are not compared.  Among
    the records of the jobs table a nested value (a reference) is an
    array, [tags]; two arrays are compared element by element, which the
    model, not holding the elements, cannot do: [None]. *)
Definition cmp (a b : option val) : option comparison :=
  match a, b with
  | Some (VRef _), Some (VRef _) => None
  | Some (VRef _), _ => Some Gt
  | _, Some (VRef _) => Some Lt
  | Some (VStr x), Some (VStr y) => Some (String.compare x y)
  | Some (VStr _), _ => Some Gt
  | _, Some (VStr _) => Some Lt
  | Some (VNum x), Some (VNum y) => Some (x ?= y)%Z
  | Some (VNum _), Some VNaN | Some VNaN, Some (VNum _)
  | Some VNaN, Some VNaN => Some Eq
  | _, _ => None
  end.

(** [collection.sortBy(field)]: [toArray()] then
    [Array.prototype.sort(sorter)] with
    [sorter(a, b) = cmp(a[field], b[field])]; a [NaN] answer of the
    comparator counts as 0. *)
Definition gtb (field : string) (a b : obj) : bool :=
  match cmp (a !! field) (b !! field) with
  | Some Gt => true
  | _ => false
  end.

Definition sort_by (field : string) (l : list obj) : list obj :=
  sort_with (gtb field) l.

(** [table.toArray()] / [table.toCollection()]: the records in primary key
    order. *)
Definition key_le (a b : Z * obj) : Prop := (a.1 <= b.1)%Z.

#[global] Instance key_le_dec : RelDecision key_le.
Proof. intros a b. unfold key_le. apply _. Defined.

Definition entries (t : Table) : list (Z * obj) :=
  merge_sort key_le (map_to_list (rows t)).

Definition toArray (t : Table) : list obj := snd <$> entries t.

(** [table.where(field).equals(v)]: the index on [field] lists the records
    with that key, again in primary key order. *)
Definition where_equals (field : string) (v : val) (t : Table) : list obj :=
  List.filter (fun r => bool_decide (r !! field = Some v)) (toArray t).

(** [collection.filter(p)] where [p] may throw ([None]): the query then
    rejects as a whole. *)
Fixpoint filter_throwing (p : obj -> option bool) (l : list obj)
  : option (list obj) :=
  match l with
  | [] => Some []
  | x :: l' =>
      match p x with
      | None => None
      | Some b =>
          match filter_throwing p l' with
          | None => None
          | Some r => Some (if b then x :: r else r)
          end
      end
  end.

(** [collection.offset(n)] and [collection.limit(n)]: a non-positive
    offset skips nothing, a non-positive limit yields nothing. *)
Definition offset (n : Z) (l : list obj) : list obj := drop (Z.to_nat n) l.
Definition limit (n : Z) (l : list obj) : list obj := take (Z.to_nat n) l.

(** [collection.count()] *)
Definition count (l : list obj) : Z := Z.of_nat (length l).

(** [table.orderBy(field).last()]: the record with the greatest key in the
    index on [field] (records without a key there are not indexed); among
    equal keys the one with the greatest primary key. *)
Definition last_by (field : string) (t : Table) : option obj :=
  last (sort_by field (filter (fun r => is_key (r !! field)) (toArray t))).

(** A unique index rejects a second record with the same key. *)
Definition violates_unique (sch : Schema) (k : Z) (o : obj)
    (rs : gmap Z obj) : bool :=
  existsb
    (fun f =>
       is_key (o !! f) &&
       existsb (fun e : Z * obj =>
                  negb (e.1 =? k)%Z && bool_decide (e.2 !! f = o !! f))
               (map_to_list rs))
    (uniques sch).

(** [table.add(o)]: resolves with the key of the new record. *)
Definition add (sch : Schema) (o : obj) (t : Table)
  : Table * (DexieError + Z) :=
  match o !! primKey sch with
  | None =>
      if autoInc sch then
        let k := keyGen t in
        let o' := <[primKey sch := VNum k]> o in
        if violates_unique sch k o' (rows t) then (t, inl ConstraintError)
        else ({| rows := <[k := o']> (rows t); keyGen := (k + 1)%Z |}, inr k)
      else (t, inl DataError)
  | Some (VNum k) =>
      if bool_decide (is_Some (rows t !! k)) || violates_unique sch k o (rows t)
      then (t, inl ConstraintError)
      else ({| rows := <[k := o]> (rows t);
               keyGen := if autoInc sch && (keyGen t <=? k)%Z
                         then (k + 1)%Z else keyGen t |}, inr k)
  | Some _ => (t, inl DataError)
  end.

(** [table.put(o)]: insert or replace under the record's own key. *)
Definition put (sch : Schema) (o : obj) (t : Table)
  : Table * (DexieError + Z) :=
  match o !! primKey sch with
  | Some (VNum k) =>
      if violates_unique sch k o (rows t) then (t, inl ConstraintError)
      else ({| rows := <[k := o]> (rows t);
               keyGen := if autoInc sch && (keyGen t <=? k)%Z
                         then (k + 1)%Z else keyGen t |}, inr k)
  | None => if autoInc sch then add sch o t else (t, inl DataError)
  | Some _ => (t, inl DataError)
  end.

(** [table.get(k)] *)
Definition get (k : Z) (t : Table) : option obj := rows t !! k.

(** The changes of an update applied to a record: every property of
    [changes] overwrites the record's. *)
Definition apply_changes (changes r : obj) : obj := changes ∪ r.

(** [table.update(key, changes)]: resolves with the number of records
    updated, 0 when no record has that key.  A key that is not a key
    ([undefined], [NaN]) is rejected, and so are changes that would give
    the record another primary key: no record is touched then. *)
Definition update (sch : Schema) (key : keyarg) (changes : obj)
    (t : Table) : Table * (DexieError + Z) :=
  match key with
  | KInvalid => (t, inl DataError)
  | KInt k =>
      match rows t !! k with
      | None => (t, inr 0%Z)
      | Some r =>
          let r' := apply_changes changes r in
          if bool_decide (r' !! primKey sch = Some (VNum k)) then
            if violates_unique sch k r' (rows t)
            then (t, inl ConstraintError)
            else ({| rows := <[k := r']> (rows t); keyGen := keyGen t |},
                  inr 1%Z)
          else (t, inl ConstraintError)
      end
  end.

(** One entry [{key, changes: {order}}] of [bulkUpdate]; [order] absent
    ([undefined]) deletes the property. *)
Record KeyChange := { kc_key : option val; kc_order : option val }.

Definition set_order (order : option val) (r : obj) : obj :=
  match order with
  | Some v => <["order" := v]> r
  | None => delete "order" r
  end.

Definition bulk_step (rs : gmap Z obj) (u : KeyChange) : gmap Z obj :=
  match kc_key u with
  | Some (VNum k) =>
      match rs !! k with
      | Some r => <[k := set_order (kc_order u) r]> rs
      | None => rs
      end
  | _ => rs
  end.

Definition names_record (rs : gmap Z obj) (u : KeyChange) : bool :=
  match kc_key u with
  | Some (VNum k) => bool_decide (is_Some (rs !! k))
  | _ => false
  end.

(** [table.bulkUpdate(entries)]: every entry whose key names a record is
    applied, the others are skipped (an entry without a key among them);
    it resolves with the number of entries applied. *)
Definition bulkUpdate (updates : list KeyChange) (t : Table)
  : Table * (DexieError + Z) :=
  ({| rows := foldl bulk_step (rows t) updates; keyGen := keyGen t |},
   inr (Z.of_nat (length (filter (names_record (rows t)) updates)))).

End Dexie.

(* ********************************************************************* *)
(** * The mock API: src/api/handlers.js                                   *)
(* ********************************************************************* *)

(** One function per resolver of the [handlers] array, then the array
    itself: msw hands a request to the first handler whose method and path
    match it.  Request bodies are JSON objects, path and query parameters
    arrive parsed. *)

Module Handlers.
Import Dexie.

(** [db.version(1).stores({...})] of src/db.js *)
Definition jobs_schema : Schema :=
  {| primKey := "id"; autoInc := true; uniques := ["slug"] |}.
Definition candidates_schema : Schema :=
  {| primKey := "id"; autoInc := true; uniques := ["email"] |}.
Definition assessments_schema : Schema :=
  {| primKey := "jobId"; autoInc := false; uniques := [] |}.
Definition responses_schema : Schema :=
  {| primKey := "id"; autoInc := true; uniques := [] |}.

Record DB := {
  jobs : Table;
  candidates : Table;
  assessments : Table;
  assessmentResponses : Table;
}.

Definition set_jobs (t : Table) (db : DB) : DB :=
  {| jobs := t; candidates := candidates db;
     assessments := assessments db;
     assessmentResponses := assessmentResponses db |}.
Definition set_candidates (t : Table) (db : DB) : DB :=
  {| jobs := jobs db; candidates := t;
     assessments := assessments db;
     assessmentResponses := assessmentResponses db |}.
Definition set_assessments (t : Table) (db : DB) : DB :=
  {| jobs := jobs db; candidates := candidates db;
     assessments := t;
     assessmentResponses := assessmentResponses db |}.
Definition set_responses (t : Table) (db : DB) : DB :=
  {| jobs := jobs db; candidates := candidates db;
     assessments := assessments db;
     assessmentResponses := t |}.

(** The body of an [HttpResponse]. *)
Inductive Body :=
| JsonObj (o : obj)                                     (* a JSON object *)
| JsonPage (name : string) (items : list obj) (pagination : obj)
                                   (* [{<name>: items, pagination}] *)
| Unhandled.               (* the resolver threw: answered by msw itself *)

Record Response := { status : Z; body : Body }.

(** [res.ok] *)
Definition ok (r : Response) : bool :=
  (200 <=? status r)%Z && (status r <=? 299)%Z.

(** [new HttpResponse(JSON.stringify({ message }), { status })] *)
Definition message (m : string) (st : Z) : Response :=
  {| status := st; body := JsonObj {[ "message" := VStr m ]} |}.

(** An exception that escapes a resolver is answered with status 500. *)
Definition unhandled : Response := {| status := 500; body := Unhandled |}.

(** A path parameter after [parseInt(_, 10)]. *)
Definition num_of (k : keyarg) : val :=
  match k with KInt n => VNum n | KInvalid => VNaN end.

Definition json_num (n : option Z) : val :=
  match n with Some z => VNum z | None => VNull end.

Definition pagination (page pageSize total : Z) : obj :=
  <["page" := VNum page]>
    (<["pageSize" := VNum pageSize]>
       (<["total" := VNum total]>
          (<["totalPages" := json_num (ceil_div total pageSize)]> ∅))).

(** [x.toLowerCase().startsWith(lowerSearch)] on a property: a property
    that is not a string makes the call throw. *)
Definition prop_startsWith (o : obj) (field lowerSearch : string)
  : option bool :=
  match o !! field with
  | Some (VStr s) => Some (startsWith (toLowerCase s) lowerSearch)
  | _ => None
  end.

(** [a(o) || b(o)]: the second test runs only when the first is false. *)
Definition either_startsWith (f1 f2 lowerSearch : string) (o : obj)
  : option bool :=
  match prop_startsWith o f1 lowerSearch with
  | Some true => Some true
  | Some false => prop_startsWith o f2 lowerSearch
  | None => None
  end.

(** [url.searchParams.get(name) || dflt] *)
Definition or_default (s dflt : string) : string :=
  if String.eqb s "" then dflt else s.

(** ** GET /jobs *)
Definition get_jobs (search status : string) (page pageSize : Z)
    (sort : string) (db : DB) : Response :=
  let status := or_default status "all" in
  let sort := or_default sort "order" in
  let collection :=
    if negb (String.eqb status "all")
    then where_equals "status" (VStr status) (jobs db)
    else toArray (jobs db) in
  let collection :=
    if negb (String.eqb search "")
    then filter_throwing
           (either_startsWith "title" "slug" (toLowerCase search)) collection
    else Some collection in
  match collection with
  | None => unhandled
  | Some c =>
      let total := count c in
      let jobs := slice (sort_by sort c)
                        ((page - 1) * pageSize) (page * pageSize) in
      {| status := 200;
         body := JsonPage "jobs" jobs (pagination page pageSize total) |}
  end.

(** [(lastJob?.order || 0) + 1]; [lastJob] comes from the index on
    [order], so its [order] is a number or a string. *)
Definition next_order (lastJob : option obj) : val :=
  let o := lastJob ≫= (.!! "order") in
  match (if truthy o then o else Some (VNum 0)) with
  | Some (VNum n) => VNum (plus n 1)
  | Some (VStr s) => VStr (s ++ "1")
  | Some (VBool true) => VNum 2
  | _ => VNaN
  end.

(** ** POST /jobs *)
Definition post_jobs (fail : bool) (newJob : obj) (now : string) (db : DB)
  : Response * DB :=
  if fail then (message "Server failed to create job" 500, db)
  else
    let lastJob := last_by "order" (jobs db) in
    let newOrder := next_order lastJob in
    let jobWithDefaults :=
      <["order" := newOrder]>
        (<["createdAt" := VStr now]> (<["status" := VStr "active"]> newJob)) in
    match add jobs_schema jobWithDefaults (jobs db) with
    | (t, inr id) =>
        ({| status := 201;
            body := JsonObj (<["id" := VNum id]> jobWithDefaults) |},
         set_jobs t db)
    | (_, inl _) => (unhandled, db)
    end.

(** ** PATCH /jobs/:id *)
Definition patch_job (fail : bool) (id : keyarg)
    (updates : obj) (db : DB) : Response * DB :=
  if fail then (message "Failed to save changes" 500, db)
  else
    match update jobs_schema id updates (jobs db) with
    | (t, inr _) =>
        ({| status := 200;
            body := JsonObj (json <$> (updates ∪ {[ "id" := num_of id ]})) |},
         set_jobs t db)
    | (_, inl _) => (unhandled, db)
    end.

(** The body of PATCH /jobs/reorder: [request.json()] may throw, and
    [orderedJobs] may be anything. *)
Inductive OrderedJobs := NotArray | Arr (l : list obj).
Inductive ReorderBody := InvalidJson | Payload (orderedJobs : OrderedJobs).

(** [db.transaction('rw', db.jobs, () =>
       Promise.all(updates.map(u => db.jobs.update(u.id, {order: u.order}))))]
    where every [u] is a [{key, changes}] entry: [u.id] and [u.order] are
    both [undefined].  A rejected update aborts the transaction. *)
Fixpoint update_each (updates : list KeyChange) (t : Table)
  : Table * (DexieError + unit) :=
  match updates with
  | [] => (t, inr tt)
  | _ :: us =>
      match update jobs_schema KInvalid ∅ t with
      | (t', inr _) => update_each us t'
      | (_, inl e) => (t, inl e)
      end
  end.

Definition transaction (updates : list KeyChange) (t : Table)
  : Table * (DexieError + unit) :=
  match update_each updates t with
  | (t', inr u) => (t', inr u)
  | (_, inl e) => (t, inl e)
  end.

(** ** PATCH /jobs/reorder *)
Definition reorder_jobs (fail : bool) (payload : ReorderBody)
    (db : DB) : Response * DB :=
  if fail then (message "Failed to reorder jobs" 500, db)
  else
    match payload with
    | InvalidJson => (message "Invalid JSON payload" 400, db)
    | Payload NotArray => (message "Invalid payload for reordering" 400, db)
    | Payload (Arr []) => (message "Invalid payload for reordering" 400, db)
    | Payload (Arr orderedJobs) =>
        let updates :=
          (fun job => {| kc_key := job !! "id"; kc_order := job !! "order" |})
            <$> orderedJobs in
        match bulkUpdate updates (jobs db) with
        | (_, inl _) => (unhandled, db)
        | (t, inr _) =>
            let db1 := set_jobs t db in
            if (length updates =? 0)%nat
            then (message "No valid updates provided" 400, db1)
            else
              match transaction updates t with
              | (t', inr _) =>
                  ({| status := 200;
                      body := JsonObj {[ "status" := VStr "ok" ]} |},
                   set_jobs t' db)
              | (t', inl _) =>
                  (message "Failed to reorder jobs (internal)" 500,
                   set_jobs t' db)
              end
        end
    end.

(** ** GET /candidates *)
Definition get_candidates (search stage : string) (page pageSize : Z)
    (db : DB) : Response :=
  let stage := or_default stage "all" in
  let collection :=
    if negb (String.eqb stage "all")
    then where_equals "stage" (VStr stage) (candidates db)
    else toArray (candidates db) in
  let collection :=
    if negb (String.eqb search "")
    then filter_throwing
           (either_startsWith "name" "email" (toLowerCase search)) collection
    else Some collection in
  match collection with
  | None => unhandled
  | Some c =>
      let total := count c in
      let cands := limit pageSize (offset ((page - 1) * pageSize) c) in
      {| status := 200;
         body := JsonPage "candidates" cands
                   (pagination page pageSize total) |}
  end.

(** [`${v}`] *)
Definition template (v : option val) : string :=
  match v with
  | None => "undefined"
  | Some (VStr s) => s
  | Some (VNum n) => pretty n
  | Some (VBool true) => "true"
  | Some (VBool false) => "false"
  | Some VNull => "null"
  | Some VNaN => "NaN"
  | Some (VRef _) => "[object Object]"
  end.

(** ** POST /candidates *)
Definition post_candidates (fail : bool) (newCandidate : obj) (now : string)
    (db : DB) : Response * DB :=
  if fail then (message "Failed to create candidate" 500, db)
  else
    let candidateWithDefaults :=
      <["avatarUrl" :=
          VStr ("https://api.dicebear.com/8.x/avataaars/svg?seed="
                ++ template (newCandidate !! "name"))]>
        (<["createdAt" := VStr now]>
           (<["stage" := VStr "applied"]> newCandidate)) in
    match add candidates_schema candidateWithDefaults (candidates db) with
    | (t, inr id) =>
        ({| status := 201;
            body := JsonObj (<["id" := VNum id]> candidateWithDefaults) |},
         set_candidates t db)
    | (_, inl _) => (unhandled, db)
    end.

(** ** PATCH /candidates/:id *)
Definition patch_candidate (fail : bool) (id : keyarg)
    (updates : obj) (db : DB) : Response * DB :=
  if fail then (message "Failed to update candidate" 500, db)
  else
    match update candidates_schema id updates (candidates db) with
    | (t, inr _) =>
        ({| status := 200;
            body := JsonObj (json <$> (updates ∪ {[ "id" := num_of id ]})) |},
         set_candidates t db)
    | (_, inl _) => (unhandled, db)
    end.

(** ** PUT /assessments/:jobId *)
Definition put_assessment (fail : bool) (jobId : keyarg)
    (assessmentData : obj) (db : DB) : Response * DB :=
  if fail then (message "Failed to save assessment" 500, db)
  else
    match put assessments_schema (<["jobId" := num_of jobId]> assessmentData)
              (assessments db) with
    | (t, inr _) =>
        ({| status := 200; body := JsonObj assessmentData |},
         set_assessments t db)
    | (_, inl _) => (unhandled, db)
    end.

(** ** POST /assessments/:jobId/submit *)
Definition submit_assessment (fail : bool) (jobId : keyarg)
    (submission : obj) (now : string) (db : DB) : Response * DB :=
  if fail then (message "Failed to submit assessment" 500, db)
  else
    let response :=
      <["createdAt" := VStr now]> (<["jobId" := num_of jobId]> submission) in
    match add responses_schema response (assessmentResponses db) with
    | (t, inr id) =>
        ({| status := 201;
            body := JsonObj (json <$> (<["id" := VNum id]> response)) |},
         set_responses t db)
    | (_, inl _) => (unhandled, db)
    end.

(** ** The [handlers] array *)

Inductive Method := GET | POST | PATCH | PUT.

#[global] Instance Method_eq_dec : EqDecision Method.
Proof. solve_decision. Defined.

Inductive Resolver :=
| Rget_jobs | Rpost_jobs | Rpatch_job | Rreorder_jobs
| Rget_candidates | Rpost_candidates | Rpatch_candidate | Rget_timeline
| Rget_assessment | Rput_assessment | Rsubmit_assessment.

(** The handlers in the order of the array, each with its method and its
    path. *)
Definition handlers : list (Method * string * Resolver) :=
  [ (GET, "/jobs", Rget_jobs);
    (POST, "/jobs", Rpost_jobs);
    (PATCH, "/jobs/:id", Rpatch_job);
    (PATCH, "/jobs/reorder", Rreorder_jobs);
    (GET, "/candidates", Rget_candidates);
    (POST, "/candidates", Rpost_candidates);
    (PATCH, "/candidates/:id", Rpatch_candidate);
    (GET, "/candidates/:id/timeline", Rget_timeline);
    (GET, "/assessments/:jobId", Rget_assessment);
    (PUT, "/assessments/:jobId", Rput_assessment);
    (POST, "/assessments/:jobId/submit", Rsubmit_assessment) ].

(** The segments of a path: the pieces between the slashes that are not
    empty. *)
Definition segments (path : string) : list string :=
  List.filter (fun p => negb (String.eqb p "")) (split "/" path).

(** A path against the path of a handler, segment by segment: a segment
    [:name] of the handler takes any segment and binds it, any other
    segment takes itself.  The result is the list of the segments bound,
    [None] when the path does not match. *)
Fixpoint match_segments (pattern path : list string) : option (list string) :=
  match pattern, path with
  | [], [] => Some []
  | String ":" _ :: pattern', p :: path' =>
      (p ::.) <$> match_segments pattern' path'
  | q :: pattern', p :: path' =>
      if String.eqb q p then match_segments pattern' path' else None
  | _, _ => None
  end.

Definition match_path (pattern path : string) : option (list string) :=
  match_segments (segments pattern) (segments path).

(** msw runs the first handler of the array whose method and path match
    the request; [None] when no handler does. *)
Fixpoint first_match (hs : list (Method * string * Resolver)) (m : Method)
    (path : string) : option (Resolver * list string) :=
  match hs with
  | [] => None
  | (m', pattern, r) :: hs' =>
      match (if bool_decide (m' = m) then match_path pattern path else None)
      with
      | Some params => Some (r, params)
      | None => first_match hs' m path
      end
  end.

Definition route (m : Method) (path : string)
  : option (Resolver * list string) :=
  first_match handlers m path.

(** [parseInt(params.id, 10)] *)
Definition param (s : string) : keyarg :=
  match parseInt s with Some n => KInt n | None => KInvalid end.

(** The write-class operations of the dispatcher, with their payloads. *)
Inductive WriteOp :=
| CreateJob (newJob : obj) (now : string)
| PatchJob (id : keyarg) (updates : obj)
| BulkReorderJobs (payload : ReorderBody)
| CreateCandidate (newCandidate : obj) (now : string)
| PatchCandidate (id : keyarg) (updates : obj)
| PutAssessment (jobId : keyarg) (assessmentData : obj)
| SubmitAssessmentResponse (jobId : keyarg) (submission : obj) (now : string).

(** A reorder request in the hands of the resolver of '/jobs/:id': after
    the failure trial, [request.json()] throws on a body that is not JSON;
    any other body is the [updates] of the patch, here the object
    [{orderedJobs}] with its one property kept as a reference (the resolver
    does not look into it). *)
Definition patch_job_reorder (fail : bool) (id : string)
    (payload : ReorderBody) (db : DB) : Response * DB :=
  match payload with
  | InvalidJson =>
      if fail then (message "Failed to save changes" 500, db)
      else (unhandled, db)
  | Payload _ => patch_job fail (param id) {[ "orderedJobs" := VRef 0 ]} db
  end.

(** A write call: the request reaches the resolver registered for its
    method and path.  The reorder call is [PATCH /jobs/reorder]: the array
    decides which resolver answers it. *)
Definition dispatch (fail : bool) (op : WriteOp) (db : DB)
  : Response * DB :=
  match op with
  | CreateJob j now => post_jobs fail j now db
  | PatchJob id u => patch_job fail id u db
  | BulkReorderJobs p =>
      match route PATCH "/jobs/reorder" with
      | Some (Rreorder_jobs, _) => reorder_jobs fail p db
      | Some (Rpatch_job, id :: _) => patch_job_reorder fail id p db
      | _ => (unhandled, db)
      end
  | CreateCandidate c now => post_candidates fail c now db
  | PatchCandidate id u => patch_candidate fail id u db
  | PutAssessment id a => put_assessment fail id a db
  | SubmitAssessmentResponse id s now => submit_assessment fail id s now db
  end.

End Handlers.

(* ********************************************************************* *)
(** * The Kanban board: src/pages/CandidatesPage.jsx                      *)
(* ********************************************************************* *)

Module CandidatesPage.
Import Dexie Handlers.

(** [CANDIDATE_STAGES] and [STAGE_IDS] of src/db.js *)
Definition CANDIDATE_STAGES : list (string * string) :=
  [("applied", "Applied"); ("screen", "Screen"); ("tech", "Tech Interview");
   ("offer", "Offer"); ("hired", "Hired"); ("rejected", "Rejected")].
Definition STAGE_IDS : list string := fst <$> CANDIDATE_STAGES.

(** The component state.  Candidate objects live in a heap and the
    [candidates] array holds references to them: [handleDragOver] writes
    into an object that the previous array, the new array and
    [activeCandidate] all share. *)
Abbreviation ref := nat.

Record State := {
  heap : gmap ref obj;
  candidates : list ref;
  activeCandidate : option ref;
}.

Definition deref (h : gmap ref obj) (r : ref) : obj := default ∅ (h !! r).

(** What the board renders: the candidate records, in array order. *)
Definition render (st : State) : list obj := deref (heap st) <$> candidates st.

(** The [{active, over}] part of a drag event; [over] may be [null]. *)
Record DragEvent := { active : val; over : option val }.

(** [STAGE_IDS.includes(id)] *)
Definition is_stage_id (id : val) : bool :=
  match id with
  | VStr s => bool_decide (s ∈ STAGE_IDS)
  | _ => false
  end.

(** [c => c.id === id] *)
Definition has_id (h : gmap ref obj) (id : val) (r : ref) : bool :=
  strict_eq (deref h r !! "id") (Some id).

(** [candidates.find(c => c.id === id)] *)
Definition find_candidate (st : State) (id : val) : option ref :=
  List.find (has_id (heap st) id) (candidates st).

Definition findContainer (st : State) (id : val) : option val :=
  if is_stage_id id then Some id
  else find_candidate st id ≫= (fun r => deref (heap st) r !! "stage").

Definition handleDragStart (activeId : val) (st : State) : State :=
  {| heap := heap st; candidates := candidates st;
     activeCandidate := find_candidate st activeId |}.

(** The preview: the dragged card is shown in the column it hovers. *)
Definition handleDragOver (ev : DragEvent) (st : State) : State :=
  match over ev with
  | None => st
  | Some overId =>
      let activeContainer := findContainer st (active ev) in
      let overContainer := findContainer st overId in
      if negb (truthy activeContainer) || negb (truthy overContainer)
         || strict_eq activeContainer overContainer
      then st
      else
        (* setCandidates(prev => ...) *)
        let prev := candidates st in
        let activeIndex := findIndex (has_id (heap st) (active ev)) prev in
        if (activeIndex <? 0)%Z then st
        else
          match prev !! Z.to_nat activeIndex with
          | None => st
          | Some r =>
              (* prev[activeIndex].stage = overContainer; return [...prev] *)
              {| heap := <[r := set_prop "stage" overContainer
                                  (deref (heap st) r)]> (heap st);
                 candidates := prev;
                 activeCandidate := activeCandidate st |}
          end
  end.

(** [prev.map(c => c.id === activeId ? { ...c, stage: oldStage } : c)]:
    a matching candidate is replaced by a fresh object, the others keep
    their reference. *)
Fixpoint revert_stage (activeId : val) (oldStage : option val)
    (h : gmap ref obj) (l : list ref) : gmap ref obj * list ref :=
  match l with
  | [] => (h, [])
  | r :: l' =>
      if has_id h activeId r then
        let r' := fresh (dom h) in
        let h' := <[r' := set_prop "stage" oldStage (deref h r)]> h in
        let '(h'', l'') := revert_stage activeId oldStage h' l' in
        (h'', r' :: l'')
      else
        let '(h'', l'') := revert_stage activeId oldStage h l' in
        (h'', r :: l'')
  end.

(** The page together with the store behind the mock API, the dispatcher
    calls issued so far and the toasts raised so far.  Of a toast the
    model keeps the type, "success" or "error": the text of an error toast
    quotes the response, and for an escaped exception that is the text of
    the library. *)
Record World := {
  view : State;
  db : DB;
  calls : list WriteOp;
  toasts : list string;
}.

(** [addToast(_, type)] *)
Definition addToast (type : string) (toasts : list string) : list string :=
  toasts ++ [type].

(** [`/candidates/${activeId}`] read back by [parseInt(params.id, 10)] *)
Definition param_of (id : val) : keyarg :=
  match id with
  | VNum n => KInt n
  | VStr s => match parseInt s with Some n => KInt n | None => KInvalid end
  | _ => KInvalid
  end.

(** [CANDIDATE_STAGES.find(s => s.id === newStage).title] throws when no
    stage has that id; the [catch] block then runs. *)
Definition stage_title (newStage : option val) : option string :=
  match newStage with
  | Some (VStr s) =>
      snd <$> List.find (fun p => String.eqb p.1 s) CANDIDATE_STAGES
  | _ => None
  end.

(** The drop, up to the return of the handler, awaited response included.
    A toast it raises re-renders the page afterwards: see
    [CandidateViews.settle]. *)
Definition handleDragEnd (fail : bool) (ev : DragEvent)
    (w : World) : World :=
  let st := view w in
  (* setActiveCandidate(null) *)
  let st0 := {| heap := heap st; candidates := candidates st;
                activeCandidate := None |} in
  let w0 := {| view := st0; db := db w; calls := calls w;
               toasts := toasts w |} in
  match over ev with
  | None => w0
  | Some overId =>
      let activeId := active ev in
      let overContainer := findContainer st overId in
      if negb (truthy overContainer)
         && negb (bool_decide (is_Some (find_candidate st overId)))
      then w0  (* invalid drop *)
      else
        match find_candidate st activeId with
        | None => w0
        | Some originalCandidate =>
            let oldStage := deref (heap st) originalCandidate !! "stage" in
            let newStage := overContainer in
            if strict_eq oldStage newStage then w0
            else
              let op := PatchCandidate (param_of activeId)
                          (set_prop "stage" (json <$> newStage) ∅) in
              let '(res, db') := dispatch fail op (db w) in
              if ok res && bool_decide (is_Some (stage_title newStage))
              then {| view := st0; db := db'; calls := calls w ++ [op];
                      toasts := addToast "success" (toasts w) |}
              else
                let '(h, l) :=
                  revert_stage activeId oldStage (heap st) (candidates st) in
                {| view := {| heap := h; candidates := l;
                              activeCandidate := None |};
                   db := db'; calls := calls w ++ [op];
                   toasts := addToast "error" (toasts w) |}
        end
  end.

(** The discrete events the drag gesture recogniser delivers. *)
Inductive Event :=
| DragStart (activeId : val)
| DragOver (ev : DragEvent)
| DragEnd (fail : bool) (ev : DragEvent).

Definition step (w : World) (e : Event) : World :=
  match e with
  | DragStart a =>
      {| view := handleDragStart a (view w); db := db w; calls := calls w;
         toasts := toasts w |}
  | DragOver ev =>
      {| view := handleDragOver ev (view w); db := db w; calls := calls w;
         toasts := toasts w |}
  | DragEnd fail ev => handleDragEnd fail ev w
  end.

Definition run (w : World) (es : list Event) : World :=
  foldl step w es.

(** The stage shown for the candidate with a given id. *)
Definition stage_of (st : State) (id : val) : option val :=
  find_candidate st id ≫= (fun r => deref (heap st) r !! "stage").

End CandidatesPage.

(* ********************************************************************* *)
(** * The jobs board: src/pages/JobsPage.jsx                              *)
(* ********************************************************************* *)

Module JobsPage.
Import Dexie Handlers.

Record State := {
  jobs : list obj;          (* the loaded page of jobs *)
  page : Z;                 (* [filters.page] *)
  activeJob : option obj;
}.

(** The page, the store, the dispatcher calls issued and the toasts
    raised so far (by type, as on the candidates page). *)
Record World := {
  view : State;
  db : DB;
  calls : list WriteOp;
  toasts : list string;
}.

(** [addToast(_, type)] *)
Definition addToast (type : string) (toasts : list string) : list string :=
  toasts ++ [type].

Record DragEvent := { active : val; over : option val }.

(** [j => j.id === id] *)
Definition has_id (id : val) (j : obj) : bool :=
  strict_eq (j !! "id") (Some id).

Definition handleDragStart (activeId : val) (st : State) : State :=
  {| jobs := jobs st; page := page st;
     activeJob := List.find (has_id activeId) (jobs st) |}.

(** [newJobsArray.map((job, index) =>
       ({ ...job, order: (filters.page - 1) * 10 + index }))] *)
Definition with_order (page : Z) (newJobsArray : list (option obj))
  : list obj :=
  imap (fun index job =>
          <["order" := VNum ((page - 1) * 10 + Z.of_nat index)]>
            (default ∅ job))
       newJobsArray.

(** [newJobsWithOrder.map(j => ({ id: j.id, order: j.order }))] *)
Definition api_payload (newJobsWithOrder : list obj) : list obj :=
  (fun j => set_prop "id" (json <$> j !! "id")
              (set_prop "order" (json <$> j !! "order") ∅))
    <$> newJobsWithOrder.

(** What the resolver reads back from one entry of the payload. *)
Definition entry_of (j : obj) : KeyChange :=
  {| kc_key := set_prop "id" (json <$> j !! "id")
                 (set_prop "order" (json <$> j !! "order") ∅) !! "id";
     kc_order := set_prop "id" (json <$> j !! "id")
                   (set_prop "order" (json <$> j !! "order") ∅) !! "order" |}.

(** The reordered window, when the drop is a move:
    [if (over && active.id !== over.id)]. *)
Definition new_jobs (st : State) (ev : DragEvent) : option (list obj) :=
  match over ev with
  | None => None
  | Some overId =>
      if strict_eq (Some (active ev)) (Some overId) then None
      else
        let oldIndex := findIndex (has_id (active ev)) (jobs st) in
        let newIndex := findIndex (has_id overId) (jobs st) in
        let newJobsArray := arrayMove (jobs st) oldIndex newIndex in
        Some (with_order (page st) newJobsArray)
  end.

(** The drop, up to the return of the handler, awaited response
    included; the optimistic [setJobs] in between is not observed.  The
    toast it raises re-renders the page afterwards: see
    [JobForm.settle]. *)
Definition handleDragEnd (fail : bool) (ev : DragEvent)
    (w : World) : World :=
  let st := view w in
  (* setActiveJob(null) *)
  let idle := {| jobs := jobs st; page := page st; activeJob := None |} in
  match new_jobs st ev with
  | None => {| view := idle; db := db w; calls := calls w;
               toasts := toasts w |}
  | Some newJobsWithOrder =>
      let apiPayload := api_payload newJobsWithOrder in
      let originalJobs := jobs st in
      let op := BulkReorderJobs (Payload (Arr apiPayload)) in
      let '(res, db') := dispatch fail op (db w) in
      if ok res
      then {| view := {| jobs := newJobsWithOrder; page := page st;
                         activeJob := None |};
              db := db'; calls := calls w ++ [op];
              toasts := addToast "success" (toasts w) |}
      else {| view := {| jobs := originalJobs; page := page st;
                         activeJob := None |};
              db := db'; calls := calls w ++ [op];
              toasts := addToast "error" (toasts w) |}
  end.

End JobsPage.

(* ********************************************************************* *)
(** * Sample data                                                         *)
(* ********************************************************************* *)

Module Sample.
Import Dexie Handlers.

Definition table_of (l : list (Z * obj)) : Table :=
  {| rows := list_to_map l; keyGen := (1 + Z.of_nat (length l))%Z |}.

Definition job (id : Z) (title slug status : string) (order : Z) : obj :=
  <["id" := VNum id]>
    (<["title" := VStr title]>
       (<["slug" := VStr slug]>
          (<["status" := VStr status]> (<["order" := VNum order]> ∅)))).

Definition candidate (id : Z) (name email stage : string) : obj :=
  <["id" := VNum id]>
    (<["name" := VStr name]>
       (<["email" := VStr email]> (<["stage" := VStr stage]> ∅))).

Definition job1 := job 1 "Backend Engineer" "backend-engineer" "active" 0.
Definition job2 := job 2 "Senior React Engineer" "senior-react-engineer"
                       "active" 1.
Definition job3 := job 3 "React Native Lead" "react-native-lead"
                       "archived" 1.

Definition asha := candidate 1 "Asha Rao" "asha@example.com" "applied".
Definition bela := candidate 2 "Bela Nair" "bela@example.com" "screen".

Definition store : DB :=
  {| jobs := table_of [(1%Z, job1); (2%Z, job2); (3%Z, job3)];
     candidates := table_of [(1%Z, asha); (2%Z, bela)];
     assessments := table_of [];
     assessmentResponses := table_of [] |}.

(** The Kanban page showing the two stored candidates. *)
Definition board : CandidatesPage.State :=
  {| CandidatesPage.heap := list_to_map [(0%nat, asha); (1%nat, bela)];
     CandidatesPage.candidates := [0%nat; 1%nat];
     CandidatesPage.activeCandidate := None |}.

Definition kanban : CandidatesPage.World :=
  {| CandidatesPage.view := board;
     CandidatesPage.db := store;
     CandidatesPage.calls := [];
     CandidatesPage.toasts := [] |}.

(** Card [a] over (or dropped on) the column [column]. *)
Definition onto (a : Z) (column : string) : CandidatesPage.DragEvent :=
  {| CandidatesPage.active := VNum a;
     CandidatesPage.over := Some (VStr column) |}.

(** The jobs board on its second page, showing two of the stored jobs. *)
Definition second_page : JobsPage.World :=
  {| JobsPage.view := {| JobsPage.jobs := [job2; job3];
                         JobsPage.page := 2;
                         JobsPage.activeJob := None |};
     JobsPage.db := store;
     JobsPage.calls := [];
     JobsPage.toasts := [] |}.

(** Job 2 dropped on job 3. *)
Definition job2_onto_job3 : JobsPage.DragEvent :=
  {| JobsPage.active := VNum 2; JobsPage.over := Some (VNum 3) |}.

End Sample.

(* ********************************************************************* *)
(** * The vocabulary of the specification                                 *)
(* ********************************************************************* *)

Module Spec.
Import Dexie Handlers.

(** A bulk-reorder payload that is empty or malformed: the body is not
    JSON, or [orderedJobs] is not an array, or it is the empty array. *)
Definition malformed (p : ReorderBody) : Prop :=
  p = InvalidJson \/ p = Payload NotArray \/ p = Payload (Arr []).

(** [{status: "ok"}] *)
Definition status_ok : Response :=
  {| status := 200; body := JsonObj {[ "status" := VStr "ok" ]} |}.

(** The records of a page response and the numbers of its [pagination]. *)
Definition items_of (r : Response) : list obj :=
  match body r with JsonPage _ l _ => l | _ => [] end.

Definition reported (r : Response) (field : string) : option val :=
  match body r with JsonPage _ _ p => p !! field | _ => None end.

(** The equality filter on [status] or [stage]; the value "all" (the
    default when none is given) keeps every record. *)
Definition equality_filter (field value : string) (l : list obj)
  : list obj :=
  if bool_decide (value = "all" \/ value = "") then l
  else List.filter (fun o => bool_decide (o !! field = Some (VStr value))) l.

(** A text property of a record. *)
Definition text (o : obj) (field : string) : string :=
  match o !! field with Some (VStr s) => s | _ => "" end.

(** [s] starts with [search], letter case aside. *)
Definition ci_prefix (search s : string) : Prop :=
  exists rest : string, toLowerCase s = (toLowerCase search ++ rest)%string.

(** [search] occurs somewhere in [s], letter case aside. *)
Definition ci_infix (search s : string) : Prop :=
  exists before rest : string,
    toLowerCase s = (before ++ toLowerCase search ++ rest)%string.

(** The prefix match over two text fields. *)
Definition prefix_match (f1 f2 search : string) (o : obj) : bool :=
  startsWith (toLowerCase (text o f1)) (toLowerCase search)
  || startsWith (toLowerCase (text o f2)) (toLowerCase search).

(** The half-open slice [[(page-1)*pageSize, page*pageSize)] of a list. *)
Definition window {A} (page pageSize : Z) (l : list A) : list A :=
  take (Z.to_nat pageSize) (drop (Z.to_nat ((page - 1) * pageSize)) l).

(** [n] is the ceiling of [total / pageSize]. *)
Definition is_ceil (n total pageSize : Z) : Prop :=
  ((n - 1) * pageSize < total <= n * pageSize)%Z.

(** The order of the values of a sort field: numbers by size, text in
    dictionary order of the character codes (a text before the texts it
    starts), numbers before text.  Other values have no place in it. *)
Definition text_le (s t : string) : Prop :=
  s = t \/ OrderedTypeEx.String_as_OT.lt s t.

Definition value_le (x y : val) : Prop :=
  match x, y with
  | VNum n, VNum m => (n <= m)%Z
  | VNum _, VStr _ => True
  | VStr s, VStr t => text_le s t
  | _, _ => False
  end.

(** Non-decreasing in the sort field. *)
Definition key_le (field : string) (a b : obj) : Prop :=
  match a !! field, b !! field with
  | Some x, Some y => value_le x y
  | _, _ => False
  end.

(** The record has a place in that order: its sort field holds a number
    or a text. *)
Definition sortable (field : string) (o : obj) : Prop :=
  match o !! field with
  | Some (VNum _) | Some (VStr _) => True
  | _ => False
  end.

#[global] Instance sortable_dec field o : Decision (sortable field o).
Proof. unfold sortable. destruct (o !! field) as [[]|]; apply _. Defined.

(** The filter-then-match-then-sort part of a list query, on the stored
    records taken in insertion (primary key) order. *)
Definition selected (field value f1 f2 search : string) (stored : list obj)
  : list obj :=
  List.filter (prefix_match f1 f2 search) (equality_filter field value stored).

(** Every stored record carries text in the two searched fields. *)
Definition has_text (f1 f2 : string) (o : obj) : bool :=
  match o !! f1, o !! f2 with
  | Some (VStr _), Some (VStr _) => true
  | _, _ => false
  end.

(** Every record is stored under its own (inbound) primary key. *)
Definition inbound (field : string) (t : Table) : Prop :=
  map_Forall (fun k o => o !! field = Some (VNum k)) (rows t).

#[global] Instance inbound_dec field t : Decision (inbound field t).
Proof. unfold inbound. apply _. Defined.

(** The equality filter keeps a record. *)
Definition keeps (field value : string) (o : obj) : Prop :=
  value = "all" \/ value = "" \/ o !! field = Some (VStr value).

(** The pagination invariant of a listing [fetch], page by page: every
    page reports the same [total] and [totalPages]; [total] is the sum of
    the lengths of the pages 1 .. [totalPages]; no record is on two of
    them. *)
Definition partitioned (fetch : Z -> Response) : Prop :=
  exists total n : Z,
    (forall page : Z,
        reported (fetch page) "total" = Some (VNum total)
        /\ reported (fetch page) "totalPages" = Some (VNum n))
    /\ total = Z.of_nat (sum_list (length <$>
                  ((fun p => items_of (fetch (Z.of_nat p)))
                     <$> seq 1 (Z.to_nat n))))
    /\ (forall (p q : Z) (x : obj),
          (1 <= p <= n)%Z -> (1 <= q <= n)%Z -> p <> q ->
          x ∈ items_of (fetch p) -> x ∉ items_of (fetch q)).

(** The candidate references of a board all point into its heap, and no
    two cards carry the same id. *)
Definition board_ok (st : CandidatesPage.State) : Prop :=
  (forall r, r ∈ CandidatesPage.candidates st ->
             is_Some (CandidatesPage.heap st !! r))
  /\ (forall r1 r2,
        r1 ∈ CandidatesPage.candidates st ->
        r2 ∈ CandidatesPage.candidates st ->
        CandidatesPage.deref (CandidatesPage.heap st) r1 !! "id"
        = CandidatesPage.deref (CandidatesPage.heap st) r2 !! "id" ->
        r1 = r2).

(** The pages 1 .. n of a listing. *)
Definition pages (n : Z) (fetch : Z -> Response) : list (list obj) :=
  (fun p => items_of (fetch (Z.of_nat p))) <$> seq 1 (Z.to_nat n).

End Spec.

(* ********************************************************************* *)
(** * Store invariants                                                    *)
(* ********************************************************************* *)

Module Inv.
Import Dexie Handlers.

(** The key generator of an auto-incremented table is ahead of every key
    in use: IndexedDB never hands out a key twice. *)
Definition ahead (t : Table) : Prop :=
  map_Forall (fun k _ => (k < keyGen t)%Z) (rows t).

#[global] Instance ahead_dec t : Decision (ahead t).
Proof. unfold ahead. apply _. Defined.

(** The property [field] of a record is not text. *)
Definition no_text (field : string) (o : obj) : Prop :=
  match o !! field with Some (VStr _) => False | _ => True end.

#[global] Instance no_text_dec field o : Decision (no_text field o).
Proof. unfold no_text. destruct (o !! field) as [[]|]; apply _. Defined.

(** No stored record has text as its [order]. *)
Definition numeric_orders (t : Table) : Prop :=
  map_Forall (fun _ j => no_text "order" j) (rows t).

#[global] Instance numeric_orders_dec t : Decision (numeric_orders t).
Proof. unfold numeric_orders. apply _. Defined.

(** A numeric property of a record. *)
Definition number (o : obj) (field : string) : option Z :=
  match o !! field with Some (VNum n) => Some n | _ => None end.

(** The stored orders that are numbers are safe integers: below 2^53 in
    magnitude, where adding one is exact. *)
Definition safe_order (j : obj) : Prop :=
  match j !! "order" with
  | Some (VNum n) => (- 2 ^ 53 < n < 2 ^ 53)%Z
  | _ => True
  end.

#[global] Instance safe_order_dec j : Decision (safe_order j).
Proof. unfold safe_order. destruct (j !! "order") as [[]|]; apply _. Defined.

Definition safe_orders (t : Table) : Prop :=
  map_Forall (fun _ j => safe_order j) (rows t).

#[global] Instance safe_orders_dec t : Decision (safe_orders t).
Proof. unfold safe_orders. apply _. Defined.

(** The tables a write call does not address are the same in [a] and
    [b]. *)
Definition untouched (op : WriteOp) (a b : DB) : Prop :=
  match op with
  | CreateJob _ _ | PatchJob _ _ | BulkReorderJobs _ =>
      candidates a = candidates b /\ assessments a = assessments b
      /\ assessmentResponses a = assessmentResponses b
  | CreateCandidate _ _ | PatchCandidate _ _ =>
      jobs a = jobs b /\ assessments a = assessments b
      /\ assessmentResponses a = assessmentResponses b
  | PutAssessment _ _ =>
      jobs a = jobs b /\ candidates a = candidates b
      /\ assessmentResponses a = assessmentResponses b
  | SubmitAssessmentResponse _ _ _ =>
      jobs a = jobs b /\ candidates a = candidates b
      /\ assessments a = assessments b
  end.

(** The calls that create a record. *)
Definition creates (op : WriteOp) : bool :=
  match op with
  | CreateJob _ _ | CreateCandidate _ _ | SubmitAssessmentResponse _ _ _ =>
      true
  | _ => false
  end.

(** Every record of [a] is a record of [b], under the same key. *)
Definition kept (a b : Table) : Prop :=
  forall k o, rows a !! k = Some o -> rows b !! k = Some o.

Definition kept_db (a b : DB) : Prop :=
  kept (jobs a) (jobs b) /\ kept (candidates a) (candidates b)
  /\ kept (assessments a) (assessments b)
  /\ kept (assessmentResponses a) (assessmentResponses b).

(** The unique index on [field] holds: no two records share a key of it. *)
Definition unique_on (field : string) (t : Table) : Prop :=
  map_Forall (fun k1 o1 =>
    map_Forall (fun k2 o2 =>
      is_key (o1 !! field) = true -> o1 !! field = o2 !! field -> k1 = k2)
      (rows t)) (rows t).

#[global] Instance unique_on_dec field t : Decision (unique_on field t).
Proof. unfold unique_on. apply _. Defined.

(** What a schema of src/db.js promises about its table: records sit
    under their own key, the key generator (if any) is ahead, the unique
    indexes hold. *)
Definition table_ok (sch : Schema) (t : Table) : Prop :=
  Spec.inbound (primKey sch) t
  /\ (autoInc sch = true -> ahead t)
  /\ Forall (fun f => unique_on f t) (uniques sch).

#[global] Instance table_ok_dec sch t : Decision (table_ok sch t).
Proof. unfold table_ok. apply _. Defined.

Definition consistent (db : DB) : Prop :=
  table_ok jobs_schema (jobs db)
  /\ table_ok candidates_schema (candidates db)
  /\ table_ok assessments_schema (assessments db)
  /\ table_ok responses_schema (assessmentResponses db).

#[global] Instance consistent_dec db : Decision (consistent db).
Proof. unfold consistent. apply _. Defined.

(** No stored record has the slug [s]. *)
Definition slug_free (s : string) (t : Table) : Prop :=
  map_Forall (fun _ j => j !! "slug" <> Some (VStr s)) (rows t).

#[global] Instance slug_free_dec s t : Decision (slug_free s t).
Proof. unfold slug_free. apply _. Defined.

(** Two sets of records with the same keys that agree on every property
    other than [order]. *)
Definition same_but_order (a b : gmap Z obj) : Prop :=
  forall k,
    match a !! k, b !! k with
    | Some r', Some r => forall f, f <> "order" -> r' !! f = r !! f
    | None, None => True
    | _, _ => False
    end.

(** A patch that does not rewrite the primary key. *)
Definition keeps_key (op : WriteOp) : Prop :=
  match op with
  | PatchJob _ updates | PatchCandidate _ updates => updates !! "id" = None
  | _ => True
  end.

(** Whether a board is well formed can be computed. *)
#[global] Instance board_ok_dec st : Decision (Spec.board_ok st).
Proof.
  unfold Spec.board_ok.
  destruct (decide (Forall
              (fun r => is_Some (CandidatesPage.heap st !! r))
              (CandidatesPage.candidates st))) as [H1|H1];
    [|right; intros [H _]; apply H1, Forall_forall, H].
  destruct (decide (Forall (fun r1 => Forall (fun r2 =>
              CandidatesPage.deref (CandidatesPage.heap st) r1 !! "id"
              = CandidatesPage.deref (CandidatesPage.heap st) r2 !! "id" ->
              r1 = r2) (CandidatesPage.candidates st))
              (CandidatesPage.candidates st))) as [H2|H2].
  - left. split; [apply Forall_forall, H1|]. intros r1 r2 Hr1 Hr2.
    rewrite Forall_forall in H2. specialize (H2 r1 Hr1).
    rewrite Forall_forall in H2. exact (H2 r2 Hr2).
  - right. intros [_ H]. apply H2.
    apply Forall_forall; intros r1 Hr1; apply Forall_forall; intros r2 Hr2.
    by apply H.
Defined.

End Inv.

(* ********************************************************************* *)
(** * The assessment read side: GET /assessments/:jobId                   *)
(* ********************************************************************* *)

Module Assessments.
Import Dexie Handlers.

(** One entry of [sections]. *)
Record Section_ := {
  sec_id : string;
  sec_title : string;
  sec_description : string;
  sec_questions : list obj;
}.

(** What the resolver answers: the stored document as it is, or the
    default document built for [jobId]; [Threw] when the lookup rejects. *)
Inductive Reply :=
| Stored (assessment : obj)
| Fresh (jobId : val) (title : string) (sections : list Section_)
| Threw.

Definition default_sections : list Section_ :=
  [ {| sec_id := "s1"; sec_title := "Default Section";
       sec_description := "This is a default section.";
       sec_questions := [] |} ].

(** [db.assessments.get(jobId)], [jobId] possibly [NaN]. *)
Definition lookup (bk : BadKey) (jobId : keyarg) (t : Table)
  : DexieError + option obj :=
  match jobId with
  | KInt k => inr (get k t)
  | KInvalid => if resolves bk then inr None else inl DataError
  end.

Definition get_assessment (bk : BadKey) (jobId : keyarg) (db : DB) : Reply :=
  match lookup bk jobId (assessments db) with
  | inl _ => Threw
  | inr (Some assessment) => Stored assessment
  | inr None => Fresh (json (num_of jobId)) "New Assessment" default_sections
  end.

End Assessments.

(* ********************************************************************* *)
(** * Hash routing: src/hooks/useHashNavigation.js                        *)
(* ********************************************************************* *)

Module Router.

Record Route := { page : string; id : option string }.

(** [s.substring(1)] *)
Definition substring1 (s : string) : string :=
  match s with EmptyString => EmptyString | String _ s' => s' end.

(** [Boolean(p)] on a string *)
Definition nonempty (p : string) : bool := negb (String.eqb p "").

Definition part_is (part : option string) (name : string) : bool :=
  bool_decide (part = Some name).

Definition present (part : option string) : bool :=
  match part with Some p => nonempty p | None => false end.

Definition parseHash (hash : string) : Route :=
  let path := Handlers.or_default (substring1 hash) "/" in
  let parts := List.filter nonempty (split "/" path) in
  if part_is (parts !! 0%nat) "jobs" && present (parts !! 1%nat)
  then {| page := "job-detail"; id := parts !! 1%nat |}
  else if part_is (parts !! 0%nat) "jobs"
  then {| page := "jobs"; id := None |}
  else if part_is (parts !! 0%nat) "candidates" && present (parts !! 1%nat)
  then {| page := "candidate-detail"; id := parts !! 1%nat |}
  else if part_is (parts !! 0%nat) "candidates"
  then {| page := "candidates"; id := None |}
  else {| page := "jobs"; id := None |}.

(** The links of the list views: [`#/jobs/${job.slug}`] in JobListItem,
    [`#/candidates/${candidate.id}`] in CandidateList. *)
Definition job_href (job : obj) : string :=
  "#/jobs/" ++ Handlers.template (job !! "slug").


(** JobDetailPage: [db.jobs.where('slug').equals(slug).first()];
    [None] is the "Job not found" redirect. *)
Definition fetchJob (slug : string) (db : Handlers.DB) : option obj :=
  head (Dexie.where_equals "slug" (VStr slug) (Handlers.jobs db)).


End Router.

(* ********************************************************************* *)
(** * The job form and the board loader: src/pages/JobsPage.jsx,
      components/jobs/JobFormModal                                         *)
(* ********************************************************************* *)

Module JobForm.
Import Dexie Handlers.

(** The character classes of the regular expressions of [slugify], on the
    ASCII characters (the code points below 128): [\s] is the blank, and
    tab, line feed, vertical tab, form feed, carriage return; [\w] is
    [A-Za-z0-9_]. *)
Definition is_space (c : ascii) : bool :=
  let n := nat_of_ascii c in
  (n =? 32)%nat || ((9 <=? n)%nat && (n <=? 13)%nat).

Definition is_upper (c : ascii) : bool :=
  let n := nat_of_ascii c in (65 <=? n)%nat && (n <=? 90)%nat.

Definition is_word (c : ascii) : bool :=
  let n := nat_of_ascii c in
  ((48 <=? n)%nat && (n <=? 57)%nat)
  || ((65 <=? n)%nat && (n <=? 90)%nat)
  || ((97 <=? n)%nat && (n <=? 122)%nat)
  || (n =? 95)%nat.

Definition is_dash (c : ascii) : bool := Ascii.eqb c "-".

(** [.replace(/\s+/g, '-')]: every maximal run of blanks becomes one
    dash; [in_run] tells that the previous character was a blank. *)
Fixpoint spaces_to_dash (in_run : bool) (s : string) : string :=
  match s with
  | EmptyString => EmptyString
  | String c s' =>
      if is_space c
      then if in_run then spaces_to_dash true s'
           else String "-" (spaces_to_dash true s')
      else String c (spaces_to_dash false s')
  end.

(** [.replace(/[^\w-]+/g, '')] *)
Fixpoint keep_word (s : string) : string :=
  match s with
  | EmptyString => EmptyString
  | String c s' =>
      if is_word c || is_dash c then String c (keep_word s') else keep_word s'
  end.

(** [.replace(/--+/g, '-')]: every run of two or more dashes becomes one
    dash (and a single dash stays). *)
Fixpoint squeeze_dashes (in_run : bool) (s : string) : string :=
  match s with
  | EmptyString => EmptyString
  | String c s' =>
      if is_dash c
      then if in_run then squeeze_dashes true s'
           else String c (squeeze_dashes true s')
      else String c (squeeze_dashes false s')
  end.

(** [.replace(/^-+/, '')] *)
Fixpoint trim_start (s : string) : string :=
  match s with
  | String c s' => if is_dash c then trim_start s' else s
  | EmptyString => s
  end.

(** [.replace(/-+$/, '')] *)
Fixpoint trim_end (s : string) : string :=
  match s with
  | EmptyString => EmptyString
  | String c s' =>
      let r := trim_end s' in
      if is_dash c && String.eqb r "" then EmptyString else String c r
  end.

Definition slugify (text : string) : string :=
  trim_end
    (trim_start
       (squeeze_dashes false
          (keep_word (spaces_to_dash false (toLowerCase text))))).

(** What a slug looks like: lower-case letters, digits, underscores and
    single dashes, with no dash at either end. *)
Fixpoint all_chars (p : ascii -> bool) (s : string) : bool :=
  match s with
  | EmptyString => true
  | String c s' => p c && all_chars p s'
  end.

Definition slug_char (c : ascii) : bool :=
  (is_word c || is_dash c) && negb (is_upper c).

Definition starts_with_dash (s : string) : bool :=
  match s with String c _ => is_dash c | EmptyString => false end.

Fixpoint ends_with_dash (s : string) : bool :=
  match s with
  | EmptyString => false
  | String c EmptyString => is_dash c
  | String _ s' => ends_with_dash s'
  end.

Fixpoint has_double_dash (s : string) : bool :=
  match s with
  | EmptyString => false
  | String c s' => (is_dash c && starts_with_dash s') || has_double_dash s'
  end.

Definition is_slug (s : string) : bool :=
  all_chars slug_char s && negb (starts_with_dash s)
  && negb (ends_with_dash s) && negb (has_double_dash s).

(** [fetchJobs(page)]: the request
    [/jobs?search=..&status=..&page=..&pageSize=10&sort=order] with the
    debounced search text and the status filter; a response that is not ok
    leaves the loaded jobs as they are and raises an error toast. *)
Definition fetchJobs (search status : string) (page : Z)
    (w : JobsPage.World) : JobsPage.World :=
  let st := JobsPage.view w in
  let res := get_jobs search status page 10 "order" (JobsPage.db w) in
  if ok res then
    match body res with
    | JsonPage _ items _ =>
        {| JobsPage.view := {| JobsPage.jobs := items;
                               JobsPage.page := JobsPage.page st;
                               JobsPage.activeJob := JobsPage.activeJob st |};
           JobsPage.db := JobsPage.db w;
           JobsPage.calls := JobsPage.calls w;
           JobsPage.toasts := JobsPage.toasts w |}
    | _ => w
    end
  else
    {| JobsPage.view := st;
       JobsPage.db := JobsPage.db w;
       JobsPage.calls := JobsPage.calls w;
       JobsPage.toasts := JobsPage.addToast "error" (JobsPage.toasts w) |}.

(** What a toast does to the board.  Showing a toast, and removing it
    five seconds later, re-renders [ToastProvider], which builds a new
    [addToast] on every render; [fetchJobs] is a callback that depends on
    [addToast], and the effect that calls [fetchJobs(filters.page)]
    depends on [fetchJobs]: it runs again.  So a handler that raised a
    toast is followed by loads of page [filters.page], the last of them
    when the toast goes, after any other load has landed.
    [settle search status before after] is the page once it is quiet,
    [before] and [after] being the page before and after the handler. *)
Definition settle (search status : string) (before after : JobsPage.World)
  : JobsPage.World :=
  if bool_decide (JobsPage.toasts after = JobsPage.toasts before) then after
  else fetchJobs search status (JobsPage.page (JobsPage.view after)) after.

(** [onJobCreated]: [fetchJobs(1)]; [filters.page] is not written. *)
Definition onJobCreated (search status : string) (w : JobsPage.World)
  : JobsPage.World :=
  fetchJobs search status 1 w.

(** [handleSubmit] of the form, with the fields [title], [description] and
    the array [tags] parsed from the comma-separated input (kept as a
    reference); [search] and [status] are the filters of the board behind
    the form.  On success the toast is raised first, then [onJobCreated]
    starts its load of page 1, which the handler does not wait for: the
    model lets it land at once, and [settle] gives what the toast makes of
    the board afterwards. *)
Definition newJob (title description : string) (tags : nat) : obj :=
  <["title" := VStr title]>
    (<["slug" := VStr (slugify title)]>
       (<["description" := VStr description]>
          (<["tags" := VRef tags]> ∅))).

Definition handleSubmit (fail : bool)
    (title description : string) (tags : nat) (now : string)
    (search status : string) (w : JobsPage.World) : JobsPage.World :=
  if String.eqb title "" then w  (* "Title is required" *)
  else
    let op := CreateJob (newJob title description tags) now in
    let '(res, db') := dispatch fail op (JobsPage.db w) in
    let raised type :=
      {| JobsPage.view := JobsPage.view w;
         JobsPage.db := db';
         JobsPage.calls := JobsPage.calls w ++ [op];
         JobsPage.toasts := JobsPage.addToast type (JobsPage.toasts w) |} in
    if ok res then onJobCreated search status (raised "success")
    else raised "error".

End JobForm.

(* ********************************************************************* *)
(** * The candidate views: the loader and the client-side search of
      src/pages/CandidatesPage.jsx, the columns of CandidateKanban        *)
(* ********************************************************************* *)

Module CandidateViews.
Import Dexie Handlers CandidatesPage.

(** The objects of a parsed response body are new ones: each gets a
    reference that the heap does not use yet. *)
Fixpoint alloc (items : list obj) (h : gmap ref obj)
  : gmap ref obj * list ref :=
  match items with
  | [] => (h, [])
  | o :: items' =>
      let r := fresh (dom h) in
      let '(h', rs) := alloc items' (<[r := o]> h) in
      (h', r :: rs)
  end.

(** [fetchAllCandidates]: [fetch('/candidates?page=1&pageSize=1000')],
    then [setCandidates(data.candidates)]; a response that is not ok
    leaves the candidates as they are and raises an error toast. *)
Definition fetchAllCandidates (w : World) : World :=
  let st := view w in
  let res := get_candidates "" "" 1 1000 (db w) in
  if ok res then
    match body res with
    | JsonPage _ items _ =>
        let '(h, l) := alloc items (heap st) in
        {| view := {| heap := h; candidates := l;
                      activeCandidate := activeCandidate st |};
           db := db w; calls := calls w; toasts := toasts w |}
    | _ => w
    end
  else
    {| view := st; db := db w; calls := calls w;
       toasts := addToast "error" (toasts w) |}.

(** What a toast does to the board.  Showing a toast, and removing it
    five seconds later, re-renders [ToastProvider], which builds a new
    [addToast] on every render; [fetchAllCandidates] is a callback that
    depends on [addToast], and the effect that calls it depends on the
    callback: it runs again.  So a handler that raised a toast is followed
    by loads of the candidates, the last of them when the toast goes.
    [settle before after] is the page once it is quiet, [before] and
    [after] being the page before and after the handler. *)
Definition settle (before after : World) : World :=
  if bool_decide (toasts after = toasts before) then after
  else fetchAllCandidates after.

(** A drop as the user ends up seeing it. *)
Definition drop (fail : bool) (ev : DragEvent) (w : World) : World :=
  settle w (handleDragEnd fail ev w).

(** [c.name.toLowerCase().includes(lowerSearch)]: a property that is not
    a string makes the call throw ([None]). *)
Definition prop_includes (c : obj) (field lowerSearch : string)
  : option bool :=
  match c !! field with
  | Some (VStr s) => Some (includes (toLowerCase s) lowerSearch)
  | _ => None
  end.

(** The filter callback: both tests run, then [nameMatch || emailMatch]. *)
Definition matches (lowerSearch : string) (c : obj) : option bool :=
  match prop_includes c "name" lowerSearch with
  | None => None
  | Some nameMatch =>
      match prop_includes c "email" lowerSearch with
      | None => None
      | Some emailMatch => Some (nameMatch || emailMatch)
      end
  end.

(** The same test on records whose name and email are text. *)
Definition infix_match (search : string) (c : obj) : bool :=
  includes (toLowerCase (Spec.text c "name")) (toLowerCase search)
  || includes (toLowerCase (Spec.text c "email")) (toLowerCase search).

(** [filteredCandidates], over the candidate objects of the view. *)
Definition filteredCandidates (debouncedSearch : string) (cs : list obj)
  : option (list obj) :=
  filter_throwing (matches (toLowerCase debouncedSearch)) cs.

(** The property names every plain object inherits from
    [Object.prototype]: for them [grouped[name]] is not [undefined] even
    though [grouped] has no such column. *)
Definition inherited : list string :=
  ["constructor"; "__proto__"; "hasOwnProperty"; "isPrototypeOf";
   "propertyIsEnumerable"; "toLocaleString"; "toString"; "valueOf";
   "__defineGetter__"; "__defineSetter__"; "__lookupGetter__";
   "__lookupSetter__"].

(** [STAGE_IDS.forEach(stageId => { grouped[stageId] = []; })] *)
Definition empty_columns : gmap string (list obj) :=
  foldl (fun grouped stageId => <[stageId := []]> grouped) ∅ STAGE_IDS.

(** [if (grouped[c.stage]) grouped[c.stage].push(c)]; the property key is
    the stage converted to a string.  Pushing onto an inherited property
    throws ([None]). *)
Definition push_card (grouped : option (gmap string (list obj))) (c : obj)
  : option (gmap string (list obj)) :=
  match grouped with
  | None => None
  | Some g =>
      let key := template (c !! "stage") in
      match g !! key with
      | Some column => Some (<[key := column ++ [c]]> g)
      | None => if bool_decide (key ∈ inherited) then None else Some g
      end
  end.

(** [candidatesByStage] of CandidateKanban *)
Definition candidatesByStage (cs : list obj)
  : option (gmap string (list obj)) :=
  foldl push_card (Some empty_columns) cs.

(** The candidate's stage, as a property key, is [stageId]. *)
Definition in_column (stageId : string) (c : obj) : bool :=
  String.eqb (template (c !! "stage")) stageId.

End CandidateViews.

(* ********************************************************************* *)
(** * Toasts: hooks/useToasts                                             *)
(* ********************************************************************* *)

Module Toasts.

Record Toast := { id : nat; message : string; type : string }.

Record State := {
  toasts : list Toast;
  idCounter : nat;         (* [idCounter.current] *)
}.

Definition initial : State := {| toasts := []; idCounter := 0 |}.

(** [addToast(message, type)]: [const id = idCounter.current++] *)
Definition addToast (message type : string) (st : State) : State :=
  let id := idCounter st in
  {| toasts := toasts st ++ [ {| id := id; message := message;
                                 type := type |} ];
     idCounter := S (idCounter st) |}.

(** [removeToast(id)], called by the dismiss button and by the timer that
    [addToast] starts. *)
Definition removeToast (id_ : nat) (st : State) : State :=
  {| toasts := List.filter (fun t => negb (id t =? id_)%nat) (toasts st);
     idCounter := idCounter st |}.

Inductive Event :=
| Add (message type : string)
| Remove (id_ : nat).

Definition step (st : State) (e : Event) : State :=
  match e with
  | Add m t => addToast m t st
  | Remove i => removeToast i st
  end.

Definition run (es : list Event) : State := foldl step initial es.

End Toasts.

(* ********************************************************************* *)
(** * Conditional questions: components/assessments/AssessmentForm.jsx
      (the same function is repeated in AssessmentBuilder.jsx)            *)
(* ********************************************************************* *)

Module AssessmentForm.

(** An entry of [responses]: a scalar (the text of an input, the chosen
    option, a number) or the array of the options ticked. *)
Inductive answer :=
| Scalar (v : val)
| Array (items : list val).

(** [question.condition]; each property may be missing. *)
Record Condition := {
  questionId : option val;
  operator : option val;
  value : option val;
}.

(** What [responses[questionId]] finds.  [responses] is a plain object:
    the answer stored under that id, or, when there is none and the id is
    the name of a property that every object inherits, that property (a
    function, or for [__proto__] the prototype itself). *)
Inductive found :=
| Own (a : answer)
| Inherited (name : string).

Definition read (responses : gmap string answer) (key : string)
  : option found :=
  match responses !! key with
  | Some a => Some (Own a)
  | None =>
      if bool_decide (key ∈ CandidateViews.inherited)
      then Some (Inherited key) else None
  end.

(** [!targetResponse]: an array is truthy, even when empty, and so is an
    inherited function or object. *)
Definition answered (targetResponse : option found) : bool :=
  match targetResponse with
  | None => false
  | Some (Own (Scalar v)) => truthy (Some v)
  | Some (Own (Array _)) => true
  | Some (Inherited _) => true
  end.

(** [items.includes(value)] on an array of JSON scalars: [includes]
    compares with SameValueZero, under which [NaN] equals itself. *)
Definition array_includes (items : list val) (value : option val) : bool :=
  match value with
  | Some v => bool_decide (v ∈ items)
  | None => false
  end.

Definition op_is (operator : option val) (name : string) : bool :=
  bool_decide (operator = Some (VStr name)).

Section Engine.

(** [String(x)] of an inherited property is what the engine prints for a
    built-in function (or for the prototype): the text is the engine's,
    and the model takes it as an argument. *)
Variable printed : string -> string.

Definition isQuestionVisible (condition : option Condition)
    (responses : gmap string answer) : bool :=
  match condition with
  | None => true
  | Some c =>
      if negb (truthy (questionId c)) then true
      else
        let targetResponse :=
          read responses (Handlers.template (questionId c)) in
        if negb (answered targetResponse) then false
        else
          match targetResponse with
          | Some (Own (Array items)) =>
              if op_is (operator c) "eq" then array_includes items (value c)
              else if op_is (operator c) "neq"
              then negb (array_includes items (value c))
              else if op_is (operator c) "contains"
              then array_includes items (value c)
              else true
          | Some (Own (Scalar v)) =>
              if op_is (operator c) "eq" then strict_eq (Some v) (value c)
              else if op_is (operator c) "neq"
              then negb (strict_eq (Some v) (value c))
              else if op_is (operator c) "contains"
              then includes (Handlers.template (Some v))
                            (Handlers.template (value c))
              else true
          | Some (Inherited name) =>
              (* no value of a condition is that function or object *)
              if op_is (operator c) "eq" then false
              else if op_is (operator c) "neq" then true
              else if op_is (operator c) "contains"
              then includes (printed name) (Handlers.template (value c))
              else true
          | None => false
          end
  end.

End Engine.

(** The condition [c] with another operator. *)
Definition with_operator (c : Condition) (op : option val) : Condition :=
  {| questionId := questionId c; operator := op; value := value c |}.

(** The three operators the switch knows. *)
Definition known_operator (op : option val) : bool :=
  op_is op "eq" || op_is op "neq" || op_is op "contains".

End AssessmentForm.

(* ********************************************************************* *)
(** * More sample data                                                    *)
(* ********************************************************************* *)

Module Sample2.
Import Dexie Handlers.

(** A board on its first page showing the three stored jobs. *)
Definition first_page : JobsPage.World :=
  {| JobsPage.view := {| JobsPage.jobs := [Sample.job1; Sample.job2;
                                           Sample.job3];
                         JobsPage.page := 1;
                         JobsPage.activeJob := None |};
     JobsPage.db := Sample.store;
     JobsPage.calls := [];
     JobsPage.toasts := [] |}.

(** Three jobs numbered as the seed numbers them, the second one
    archived. *)
Definition seeded : DB :=
  {| jobs := Sample.table_of
       [(1%Z, Sample.job 1 "Backend Engineer" "backend-engineer" "active" 0);
        (2%Z, Sample.job 2 "Data Analyst" "data-analyst" "archived" 1);
        (3%Z, Sample.job 3 "Support Lead" "support-lead" "active" 2)];
     candidates := Sample.table_of [];
     assessments := Sample.table_of [];
     assessmentResponses := Sample.table_of [] |}.

(** The board over that store, on page 1 with the status filter "active",
    once loaded: it shows jobs 1 and 3. *)
Definition active_page : JobsPage.World :=
  JobForm.fetchJobs "" "active" 1
    {| JobsPage.view := {| JobsPage.jobs := []; JobsPage.page := 1;
                           JobsPage.activeJob := None |};
       JobsPage.db := seeded;
       JobsPage.calls := [];
       JobsPage.toasts := [] |}.

(** Job 3 dropped on job 1. *)
Definition job3_onto_job1 : JobsPage.DragEvent :=
  {| JobsPage.active := VNum 3; JobsPage.over := Some (VNum 1) |}.

(** A Kanban page that has loaded nothing yet. *)
Definition blank : CandidatesPage.World :=
  {| CandidatesPage.view :=
       {| CandidatesPage.heap := ∅; CandidatesPage.candidates := [];
          CandidatesPage.activeCandidate := None |};
     CandidatesPage.db := Sample.store;
     CandidatesPage.calls := [];
     CandidatesPage.toasts := [] |}.

End Sample2.

(* ********************************************************************* *)
(** * The built-ins on small inputs                                       *)
(* ********************************************************************* *)

Section Builtins.

Example slice_inner : slice [1; 2; 3; 4; 5]%Z 1 3 = [2; 3]%Z.
Proof. reflexivity. Qed.

Example slice_past_end : slice [1; 2; 3]%Z 2 10 = [3]%Z.
Proof. reflexivity. Qed.

(** Negative indices count from the end of the array. *)
Example slice_from_end : slice [1; 2; 3]%Z (-2) (-1) = [2]%Z.
Proof. reflexivity. Qed.

Example arrayMove_down :
  arrayMove ["a"; "b"; "c"] 0 2 = [Some "b"; Some "c"; Some "a"].
Proof. reflexivity. Qed.

Example arrayMove_up :
  arrayMove ["a"; "b"; "c"] 2 0 = [Some "c"; Some "a"; Some "b"].
Proof. reflexivity. Qed.

(** An index of [-1] (nothing found) takes the last element. *)
Example arrayMove_not_found :
  arrayMove ["a"; "b"; "c"] (-1) 0 = [Some "c"; Some "a"; Some "b"].
Proof. reflexivity. Qed.

Example arrayMove_empty : arrayMove (A:=string) [] (-1) (-1) = [None].
Proof. reflexivity. Qed.

Example ceil_div_exact : ceil_div 20 10 = Some 2%Z.
Proof. reflexivity. Qed.

Example ceil_div_partial : ceil_div 21 10 = Some 3%Z.
Proof. reflexivity. Qed.

Example ceil_div_empty : ceil_div 0 10 = Some 0%Z.
Proof. reflexivity. Qed.

Example prefix_not_infix :
  startsWith (toLowerCase "Senior React Engineer") (toLowerCase "REACT")
  = false
  /\ includes (toLowerCase "Senior React Engineer") (toLowerCase "REACT")
    = true
  /\ startsWith (toLowerCase "React Native Lead") (toLowerCase "REACT")
    = true.
Proof. repeat split. Qed.

Example parseInt_numeral :
  parseInt "42" = Some 42%Z /\ parseInt "-7x" = Some (-7)%Z
  /\ parseInt "reorder" = None.
Proof. repeat split. Qed.

(** Equal keys keep their order; numbers sort before strings. *)
Example sort_with_stable_example :
  sort_with (fun a b : Z * string => (b.1 <? a.1)%Z)
    [(2, "a"); (1, "b"); (2, "c"); (1, "d")]%Z
  = [(1, "b"); (1, "d"); (2, "a"); (2, "c")]%Z.
Proof. reflexivity. Qed.

End Builtins.

(* ********************************************************************* *)
(** * Lists: stable sorting, slices and pages                             *)
(* ********************************************************************* *)

Section StableSort.
Context {A : Type} (gt : A -> A -> bool).

Lemma insert_sorted_perm x l : insert_sorted gt x l ≡ₚ x :: l.
Proof.
  induction l as [|y l IH]; simpl; [done|].
  destruct (gt x y); [|done].
  rewrite IH. apply Permutation_swap.
Qed.

Lemma sort_with_perm l : sort_with gt l ≡ₚ l.
Proof.
  induction l as [|x l IH]; simpl; [done|].
  by rewrite insert_sorted_perm, IH.
Qed.

Lemma sort_with_length l : length (sort_with gt l) = length l.
Proof. by rewrite sort_with_perm. Qed.



Hypothesis gt_asym : forall a b, gt a b = true -> gt b a = false.




End StableSort.

Section Pages.
Context {A : Type}.
Implicit Types l : list A.

(** For a page number and a page size that are at least 1, the built-in
    [slice] cuts the half-open window. *)
Lemma slice_window l (page pageSize : Z) :
  (1 <= page)%Z -> (1 <= pageSize)%Z ->
  slice l ((page - 1) * pageSize) (page * pageSize)
  = Spec.window page pageSize l.
Proof.
  intros Hp Hs. unfold slice, Spec.window, rel_index.
  set (a := ((page - 1) * pageSize)%Z).
  assert (0 <= a)%Z by (unfold a; nia).
  assert (page * pageSize = a + pageSize)%Z as -> by (unfold a; lia).
  destruct (a <? 0)%Z eqn:Ha; [lia|].
  destruct (a + pageSize <? 0)%Z eqn:Hb; [lia|].
  destruct (decide (Z.of_nat (length l) <= a)%Z) as [Hge|Hlt].
  - rewrite Z.min_r by lia. rewrite !drop_ge by lia. by rewrite !take_nil.
  - rewrite (Z.min_l a) by lia.
    destruct (decide (a + pageSize <= Z.of_nat (length l))%Z).
    + rewrite Z.min_l by lia. f_equal. lia.
    + rewrite Z.min_r by lia.
      rewrite !take_ge; [done| |]; rewrite length_drop; lia.
Qed.

Lemma concat_chunks l (m n : nat) :
  concat ((fun i => take m (drop (i * m) l)) <$> seq 0 n) = take (n * m) l.
Proof.
  induction n as [|n IH]; [by rewrite take_0|].
  rewrite seq_S, fmap_app, concat_app, IH. simpl.
  rewrite app_nil_r, take_take_drop. f_equal. lia.
Qed.

Lemma window_chunk l (i : nat) (pageSize : Z) :
  Spec.window (Z.of_nat (S i)) pageSize l
  = take (Z.to_nat pageSize) (drop (i * Z.to_nat pageSize) l).
Proof.
  unfold Spec.window. do 2 f_equal.
  destruct (decide (0 <= pageSize)%Z); [nia|].
  rewrite (Z2Nat.nonpos pageSize), Z2Nat.nonpos; nia.
Qed.

(** The windows of the pages 1 .. n put end to end give back the list,
    once n pages are enough to hold it. *)
Lemma concat_windows l (n pageSize : Z) :
  (1 <= pageSize)%Z ->
  (Z.of_nat (length l) <= n * pageSize)%Z ->
  concat ((fun p => Spec.window (Z.of_nat p) pageSize l)
            <$> seq 1 (Z.to_nat n)) = l.
Proof.
  intros Hs Hn.
  rewrite <- (fmap_S_seq 0), <- list_fmap_compose.
  erewrite list_fmap_ext; [|intros i x _; apply window_chunk].
  rewrite concat_chunks. apply take_ge.
  assert (0 <= n)%Z by nia.
  apply Nat2Z.inj_le. rewrite Nat2Z.inj_mul, !Z2Nat.id; lia.
Qed.

Lemma elem_of_window l x (p pageSize : Z) :
  x ∈ Spec.window p pageSize l ->
  exists i : nat, l !! i = Some x
    /\ (Z.to_nat ((p - 1) * pageSize) <= i
        < Z.to_nat ((p - 1) * pageSize) + Z.to_nat pageSize)%nat.
Proof.
  unfold Spec.window. intros Hx.
  apply list_elem_of_lookup in Hx as [j Hj].
  apply lookup_take_Some in Hj as [Hj Hlt].
  rewrite lookup_drop in Hj. eexists. split; [exact Hj|lia].
Qed.

(** Two different pages of a duplicate-free list share no element. *)
Lemma windows_disjoint l x (p q pageSize : Z) :
  NoDup l -> (1 <= p)%Z -> (1 <= q)%Z -> p <> q ->
  x ∈ Spec.window p pageSize l -> x ∈ Spec.window q pageSize l -> False.
Proof.
  intros Hnd Hp Hq Hne Hxp Hxq.
  apply elem_of_window in Hxp as (i & Hi & Hip).
  apply elem_of_window in Hxq as (j & Hj & Hjq).
  assert (i = j) as -> by (eapply NoDup_lookup; eauto).
  assert (0 < pageSize)%Z by lia.
  nia.
Qed.

End Pages.

Lemma ceil_div_is_ceil (total pageSize : Z) :
  (1 <= pageSize)%Z ->
  exists n, ceil_div total pageSize = Some n /\ Spec.is_ceil n total pageSize.
Proof.
  intros Hs. unfold ceil_div, Spec.is_ceil.
  destruct (pageSize =? 0)%Z eqn:E; [lia|].
  eexists; split; [reflexivity|].
  pose proof (Z.div_mod (- total) pageSize ltac:(lia)).
  pose proof (Z.mod_pos_bound (- total) pageSize ltac:(lia)).
  nia.
Qed.

(* ********************************************************************* *)
(** * The store: records in key order                                     *)
(* ********************************************************************* *)

Section StoreFacts.
Import Dexie.

Lemma entries_perm t : entries t ≡ₚ map_to_list (rows t).
Proof. apply merge_sort_Permutation. Qed.

Lemma elem_of_toArray t o :
  o ∈ toArray t <-> exists k, rows t !! k = Some o.
Proof.
  unfold toArray. rewrite list_elem_of_fmap. split.
  - intros ([k o'] & -> & Hin). rewrite entries_perm in Hin.
    apply elem_of_map_to_list in Hin. by exists k.
  - intros [k Hk]. exists (k, o). split; [done|].
    rewrite entries_perm. by apply elem_of_map_to_list.
Qed.

(** Records stored under their own key are pairwise different. *)
Lemma toArray_NoDup field t : Spec.inbound field t -> NoDup (toArray t).
Proof.
  intros Hin. unfold toArray. apply NoDup_fmap_2_strong.
  - intros [k1 o1] [k2 o2] H1 H2. simpl. intros <-.
    rewrite entries_perm in H1, H2.
    apply elem_of_map_to_list in H1, H2.
    pose proof (Hin _ _ H1) as E1. pose proof (Hin _ _ H2) as E2.
    simpl in *. congruence.
  - rewrite entries_perm. apply NoDup_map_to_list.
Qed.



Lemma sort_by_perm field l : sort_by field l ≡ₚ l.
Proof. apply sort_with_perm. Qed.









Lemma filter_throwing_text f1 f2 search l :
  forallb (Spec.has_text f1 f2) l = true ->
  filter_throwing (Handlers.either_startsWith f1 f2 (toLowerCase search)) l
  = Some (List.filter (Spec.prefix_match f1 f2 search) l).
Proof.
  induction l as [|o l IH]; [done|].
  intros [Ho Hl]%andb_prop. cbn [filter_throwing List.filter].
  rewrite (IH Hl).
  unfold Handlers.either_startsWith, Handlers.prop_startsWith,
    Spec.prefix_match, Spec.text.
  unfold Spec.has_text in Ho.
  destruct (o !! f1) as [[| t | | | |]|]; try done.
  destruct (o !! f2) as [[| u | | | |]|]; try done.
  by destruct (startsWith (toLowerCase t) _), (startsWith (toLowerCase u) _).
Qed.

Lemma prefix_match_empty f1 f2 o : Spec.prefix_match f1 f2 "" o = true.
Proof. reflexivity. Qed.

Lemma forallb_sub {A} (p : A -> bool) (q : A -> bool) (l : list A) :
  forallb p l = true -> forallb p (List.filter q l) = true.
Proof.
  rewrite !forallb_forall. intros H x [Hx _]%filter_In. by apply H.
Qed.

Lemma has_text_equality_filter f1 f2 field value l :
  forallb (Spec.has_text f1 f2) l = true ->
  forallb (Spec.has_text f1 f2) (Spec.equality_filter field value l) = true.
Proof.
  intros H. unfold Spec.equality_filter. case_bool_decide; [done|].
  by apply forallb_sub.
Qed.

(** The collection a list resolver builds before counting, sorting and
    slicing is the equality filter followed by the prefix match. *)
Lemma collection_selected field f1 f2 search value (t : Table) :
  (search <> "" -> forallb (Spec.has_text f1 f2) (toArray t) = true) ->
  (let value := Handlers.or_default value "all" in
   let c := if negb (String.eqb value "all")
            then where_equals field (VStr value) t else toArray t in
   if negb (String.eqb search "")
   then filter_throwing
          (Handlers.either_startsWith f1 f2 (toLowerCase search)) c
   else Some c)
  = Some (Spec.selected field value f1 f2 search (toArray t)).
Proof.
  intros Htext. cbv zeta. unfold Spec.selected.
  assert ((if negb (String.eqb (Handlers.or_default value "all") "all")
           then where_equals field (VStr (Handlers.or_default value "all")) t
           else toArray t)
          = Spec.equality_filter field value (toArray t)) as ->.
  { unfold Spec.equality_filter, Handlers.or_default, where_equals.
    destruct (String.eqb_spec value "") as [->|Hne]; [done|].
    destruct (String.eqb_spec value "all") as [->|Hna]; [done|].
    simpl. rewrite bool_decide_eq_false_2; [done|]. by intros [|]. }
  destruct (String.eqb_spec search "") as [->|Hs]; simpl.
  - f_equal. symmetry. apply forallb_filter_id.
    apply forallb_forall. intros; apply prefix_match_empty.
  - apply filter_throwing_text. by apply has_text_equality_filter, Htext.
Qed.

End StoreFacts.

(* ********************************************************************* *)
(** * The list queries                                                    *)
(* ********************************************************************* *)

Section Listing.
Import Dexie Handlers.

Lemma get_jobs_page search status page pageSize sort db :
  (search <> "" ->
   forallb (Spec.has_text "title" "slug") (toArray (jobs db)) = true) ->
  get_jobs search status page pageSize sort db
  = {| status := 200;
       body := JsonPage "jobs"
         (slice (sort_by (or_default sort "order")
                   (Spec.selected "status" status "title" "slug" search
                      (toArray (jobs db))))
            ((page - 1) * pageSize) (page * pageSize))
         (pagination page pageSize
            (count (Spec.selected "status" status "title" "slug" search
                      (toArray (jobs db))))) |}.
Proof.
  intros H. unfold get_jobs.
  pose proof (collection_selected "status" "title" "slug" search status
                (jobs db) H) as E.
  cbv zeta in *. by rewrite E.
Qed.

Lemma get_candidates_page search stage page pageSize db :
  (search <> "" ->
   forallb (Spec.has_text "name" "email") (toArray (candidates db)) = true) ->
  get_candidates search stage page pageSize db
  = {| status := 200;
       body := JsonPage "candidates"
         (Spec.window page pageSize
            (Spec.selected "stage" stage "name" "email" search
               (toArray (candidates db))))
         (pagination page pageSize
            (count (Spec.selected "stage" stage "name" "email" search
                      (toArray (candidates db))))) |}.
Proof.
  intros H. unfold get_candidates.
  pose proof (collection_selected "stage" "name" "email" search stage
                (candidates db) H) as E.
  cbv zeta in *. by rewrite E.
Qed.

Lemma reported_total page pageSize total :
  pagination page pageSize total !! "total" = Some (VNum total).
Proof. done. Qed.

Lemma reported_totalPages page pageSize total :
  pagination page pageSize total !! "totalPages"
  = Some (json_num (ceil_div total pageSize)).
Proof. done. Qed.

Lemma startsWith_spec (s p : string) :
  startsWith s p = true <-> exists rest : string, s = (p ++ rest)%string.
Proof.
  revert s. induction p as [|a p IH]; intros s.
  - split; [by exists s|reflexivity].
  - destruct s as [|b s]; cbn [startsWith].
    + split; [discriminate|]. intros [rest Hrest]. discriminate Hrest.
    + rewrite andb_true_iff, IH, Ascii.eqb_eq. split.
      * intros [-> [rest ->]]. by exists rest.
      * intros [rest Hrest]. injection Hrest as -> ->.
        split; [done|by exists rest].
Qed.

Lemma prefix_match_spec f1 f2 search o :
  Spec.prefix_match f1 f2 search o = true
  <-> Spec.ci_prefix search (Spec.text o f1)
      \/ Spec.ci_prefix search (Spec.text o f2).
Proof.
  unfold Spec.prefix_match, Spec.ci_prefix.
  by rewrite orb_true_iff, !startsWith_spec.
Qed.

Lemma elem_of_equality_filter field value l o :
  o ∈ Spec.equality_filter field value l <-> o ∈ l /\ Spec.keeps field value o.
Proof.
  unfold Spec.equality_filter, Spec.keeps. case_bool_decide as Hv.
  - split; [intros; split; [done|tauto]|tauto].
  - rewrite list_elem_of_In, filter_In, <- list_elem_of_In,
      bool_decide_eq_true. tauto.
Qed.

Lemma elem_of_selected field value f1 f2 search l o :
  o ∈ Spec.selected field value f1 f2 search l
  <-> o ∈ l /\ Spec.keeps field value o
      /\ (Spec.ci_prefix search (Spec.text o f1)
          \/ Spec.ci_prefix search (Spec.text o f2)).
Proof.
  unfold Spec.selected.
  rewrite list_elem_of_In, filter_In, <- list_elem_of_In,
    elem_of_equality_filter, prefix_match_spec. tauto.
Qed.

Lemma NoDup_List_filter {A} (f : A -> bool) (l : list A) :
  NoDup l -> NoDup (List.filter f l).
Proof. rewrite !NoDup_ListNoDup. apply List.NoDup_filter. Qed.

Lemma selected_NoDup field value f1 f2 search l :
  NoDup l -> NoDup (Spec.selected field value f1 f2 search l).
Proof.
  intros H. unfold Spec.selected, Spec.equality_filter.
  case_bool_decide; [|apply NoDup_List_filter]; by apply NoDup_List_filter.
Qed.

Lemma elem_of_window_sub {A} (l : list A) x p pageSize :
  x ∈ Spec.window p pageSize l -> x ∈ l.
Proof.
  intros (i & Hi & _)%elem_of_window. by eapply list_elem_of_lookup_2.
Qed.

Lemma elem_of_some_window {A} (l : list A) x (pageSize : Z) :
  (1 <= pageSize)%Z -> x ∈ l ->
  exists p : Z, (1 <= p)%Z /\ x ∈ Spec.window p pageSize l.
Proof.
  intros Hs [i Hi]%list_elem_of_lookup.
  set (m := Z.to_nat pageSize). assert (m <> 0)%nat by lia.
  exists (Z.of_nat (S (i / m))). split; [lia|].
  rewrite window_chunk. fold m.
  pose proof (Nat.div_mod_eq i m). pose proof (Nat.mod_upper_bound i m).
  apply (list_elem_of_lookup_2 _ (i mod m)).
  rewrite lookup_take_lt by lia. rewrite lookup_drop.
  replace (i / m * m + i mod m)%nat with i by lia. done.
Qed.

Lemma length_concat_sum {A} (ls : list (list A)) :
  length (concat ls) = sum_list (length <$> ls).
Proof.
  induction ls as [|l ls IH]; [done|]. simpl. by rewrite length_app, IH.
Qed.

(** The pagination invariant, for any listing whose pages are the windows
    of one duplicate-free list and whose counters are computed on it. *)
Lemma windows_partitioned (fetch : Z -> Response) (l : list obj)
    (pageSize : Z) :
  (1 <= pageSize)%Z -> NoDup l ->
  (forall page, (1 <= page)%Z ->
     Spec.items_of (fetch page) = Spec.window page pageSize l) ->
  (forall page,
     Spec.reported (fetch page) "total" = Some (VNum (Z.of_nat (length l)))
     /\ Spec.reported (fetch page) "totalPages"
        = Some (json_num (ceil_div (Z.of_nat (length l)) pageSize))) ->
  Spec.partitioned fetch.
Proof.
  intros Hs Hnd Hitems Hrep.
  destruct (ceil_div_is_ceil (Z.of_nat (length l)) pageSize Hs)
    as (n & Hn & Hceil).
  exists (Z.of_nat (length l)), n. split; [|split].
  - intros page. destruct (Hrep page) as [H1 H2]. by rewrite H1, H2, Hn.
  - f_equal. rewrite <- length_concat_sum.
    erewrite list_fmap_ext;
      [|intros i p Hp; apply Hitems; apply lookup_seq in Hp; lia].
    rewrite concat_windows; [done|done|]. unfold Spec.is_ceil in Hceil. lia.
  - intros p q x Hp Hq Hne Hxp Hxq.
    rewrite Hitems in Hxp, Hxq by lia.
    eapply (windows_disjoint l x p q); eauto; lia.
Qed.



(** C8 — The server-side search is a case-insensitive prefix match: for a
    page size of at least 1 and stored records whose searched fields are
    text, a job is on some page of list-jobs exactly when it is stored,
    passes the status filter and its title or its slug starts with the
    search string, letter case aside; likewise a candidate with name and
    email.  A record that only contains the search string further inside
    is therefore on no page. *)
Theorem search_is_prefix_match
    (search status stage sort : string) (pageSize : Z) (db : DB) (o : obj) :
  (1 <= pageSize)%Z ->
  (search <> "" ->
   forallb (Spec.has_text "title" "slug") (toArray (jobs db)) = true) ->
  (search <> "" ->
   forallb (Spec.has_text "name" "email") (toArray (candidates db)) = true) ->
  ((exists page : Z, (1 <= page)%Z
      /\ o ∈ Spec.items_of (get_jobs search status page pageSize sort db))
   <-> (exists k, rows (jobs db) !! k = Some o)
       /\ Spec.keeps "status" status o
       /\ (Spec.ci_prefix search (Spec.text o "title")
           \/ Spec.ci_prefix search (Spec.text o "slug")))
  /\ ((exists page : Z, (1 <= page)%Z
      /\ o ∈ Spec.items_of (get_candidates search stage page pageSize db))
   <-> (exists k, rows (candidates db) !! k = Some o)
       /\ Spec.keeps "stage" stage o
       /\ (Spec.ci_prefix search (Spec.text o "name")
           \/ Spec.ci_prefix search (Spec.text o "email"))).
Proof.
  intros Hs Hj Hc. split.
  - rewrite <- elem_of_toArray, <- elem_of_selected. split.
    + intros (page & Hp & Ho). rewrite get_jobs_page in Ho by done.
      unfold Spec.items_of in Ho. cbn [body] in Ho.
      rewrite slice_window in Ho by done.
      apply elem_of_window_sub in Ho. by rewrite sort_by_perm in Ho.
    + intros Ho. rewrite <- (sort_by_perm (or_default sort "order")) in Ho.
      destruct (elem_of_some_window _ _ pageSize Hs Ho) as (p & Hp & Hin).
      exists p. split; [done|]. rewrite get_jobs_page by done.
      unfold Spec.items_of. cbn [body]. by rewrite slice_window.
  - rewrite <- elem_of_toArray, <- elem_of_selected. split.
    + intros (page & Hp & Ho). rewrite get_candidates_page in Ho by done.
      unfold Spec.items_of in Ho. cbn [body] in Ho.
      by apply elem_of_window_sub in Ho.
    + intros Ho.
      destruct (elem_of_some_window _ _ pageSize Hs Ho) as (p & Hp & Hin).
      exists p. split; [done|]. by rewrite get_candidates_page.
Qed.

(** "REACT" finds "React Native Lead" and not "Senior React Engineer". *)
Lemma search_is_prefix_match_witness :
  (exists page : Z, (1 <= page)%Z
     /\ Sample.job3
        ∈ Spec.items_of (get_jobs "REACT" "all" page 10 "order" Sample.store))
  /\ ~ (exists page : Z, (1 <= page)%Z
     /\ Sample.job2
        ∈ Spec.items_of (get_jobs "REACT" "all" page 10 "order" Sample.store)).
Proof.
  destruct (search_is_prefix_match "REACT" "all" "all" "order" 10
              Sample.store Sample.job3 ltac:(lia)
              ltac:(intros _; vm_compute; reflexivity)
              ltac:(intros _; vm_compute; reflexivity))
    as [H3 _].
  destruct (search_is_prefix_match "REACT" "all" "all" "order" 10
              Sample.store Sample.job2 ltac:(lia)
              ltac:(intros _; vm_compute; reflexivity)
              ltac:(intros _; vm_compute; reflexivity))
    as [H2 _].
  split.
  - apply H3. split; [exists 3%Z; vm_compute; reflexivity|].
    split; [by left|]. left. exists " native lead". vm_compute. reflexivity.
  - intros H. apply H2 in H as (_ & _ & [[rest Hr] | [rest Hr]]);
      vm_compute in Hr; discriminate Hr.
Defined.

(** C9 — For a page size of at least 1, records stored under their own
    key and text in the searched fields, and one fixed filter on one
    store: every page of list-jobs (list-candidates) reports the same
    total and totalPages, the total is the sum of the lengths of the pages
    1 .. totalPages, and no record is on two different pages. *)
Theorem pages_partition_the_listing
    (search status stage sort : string) (pageSize : Z) (db : DB) :
  (1 <= pageSize)%Z ->
  Spec.inbound "id" (jobs db) -> Spec.inbound "id" (candidates db) ->
  (search <> "" ->
   forallb (Spec.has_text "title" "slug") (toArray (jobs db)) = true) ->
  (search <> "" ->
   forallb (Spec.has_text "name" "email") (toArray (candidates db)) = true) ->
  Spec.partitioned (fun page => get_jobs search status page pageSize sort db)
  /\ Spec.partitioned
       (fun page => get_candidates search stage page pageSize db).
Proof.
  intros Hs Hij Hic Hj Hc. split.
  - apply (windows_partitioned _
             (sort_by (or_default sort "order")
                (Spec.selected "status" status "title" "slug" search
                   (toArray (jobs db)))) pageSize Hs).
    + rewrite sort_by_perm. eapply selected_NoDup, toArray_NoDup, Hij.
    + intros page Hp. rewrite get_jobs_page by done.
      unfold Spec.items_of. cbn [body]. by apply slice_window.
    + intros page. rewrite get_jobs_page by done.
      unfold Spec.reported. cbn [body].
      rewrite reported_total, reported_totalPages.
      unfold sort_by. rewrite sort_with_length. done.
  - apply (windows_partitioned _
             (Spec.selected "stage" stage "name" "email" search
                (toArray (candidates db))) pageSize Hs).
    + eapply selected_NoDup, toArray_NoDup, Hic.
    + intros page Hp. by rewrite get_candidates_page.
    + intros page. by rewrite get_candidates_page.
Qed.

(** The three sample jobs two a page, the two candidates one a page. *)
Lemma pages_partition_the_listing_witness :
  Spec.partitioned (fun page => get_jobs "" "all" page 2 "order" Sample.store)
  /\ Spec.partitioned
       (fun page => get_candidates "" "all" page 1 Sample.store)
  /\ Spec.items_of (get_jobs "" "all" 1 2 "order" Sample.store)
     = [Sample.job1; Sample.job2]
  /\ Spec.items_of (get_jobs "" "all" 2 2 "order" Sample.store)
     = [Sample.job3].
Proof.
  assert (Spec.inbound "id" (jobs Sample.store)) as Hij
    by (apply (bool_decide_unpack (Spec.inbound _ _)); vm_compute; exact I).
  assert (Spec.inbound "id" (candidates Sample.store)) as Hic
    by (apply (bool_decide_unpack (Spec.inbound _ _)); vm_compute; exact I).
  destruct (pages_partition_the_listing "" "all" "all" "order" 2
              Sample.store ltac:(lia) Hij Hic
              ltac:(intros _; vm_compute; reflexivity)
              ltac:(intros _; vm_compute; reflexivity))
    as [Hj _].
  destruct (pages_partition_the_listing "" "all" "all" "order" 1
              Sample.store ltac:(lia) Hij Hic
              ltac:(intros _; vm_compute; reflexivity)
              ltac:(intros _; vm_compute; reflexivity))
    as [_ Hc].
  split; [exact Hj|]. split; [exact Hc|]. split; vm_compute; reflexivity.
Defined.

End Listing.

(* ********************************************************************* *)
(** * Properties of the mock API                                          *)
(* ********************************************************************* *)

Section HandlerFacts.
Import Dexie Handlers.

Lemma set_jobs_same db : set_jobs (jobs db) db = db.
Proof. by destruct db. Qed.

Lemma set_candidates_same db : set_candidates (candidates db) db = db.
Proof. by destruct db. Qed.

Lemma update_absent sch k changes t :
  rows t !! k = None -> update sch (KInt k) changes t = (t, inr 0%Z).
Proof. intros H. unfold update. by rewrite H. Qed.

(** Which resolver answers the reorder request: '/jobs/:id' comes before
    '/jobs/reorder' in the array and takes "reorder" for an id. *)
Lemma route_reorder :
  route PATCH "/jobs/reorder" = Some (Rpatch_job, ["reorder"]).
Proof. reflexivity. Qed.

Lemma param_reorder : param "reorder" = KInvalid.
Proof. reflexivity. Qed.

(** The reorder call is answered by the patch resolver, which fails on
    the id: the failure is the simulated one or the escaped exception, and
    the store is as it was. *)
Lemma dispatch_reorder (fail : bool) (p : ReorderBody) (db : DB) :
  dispatch fail (BulkReorderJobs p) db
  = ((if fail then message "Failed to save changes" 500 else unhandled), db).
Proof.
  cbn [dispatch]. rewrite route_reorder. unfold patch_job_reorder.
  rewrite param_reorder. by destruct p, fail.
Qed.

(** C4 — Whenever the failure trial of a write-class operation triggers
    ([simulateError] answers true), the call is answered with status 500
    and a non-empty [message], and the store after the call is the store
    before it: for create-job, patch-job, bulk-reorder-jobs,
    create-candidate, patch-candidate, put-assessment and
    submit-assessment-response alike; the resolver registered for the
    reorder path, which is not the one that answers the reorder call,
    does the same. *)
Theorem simulated_failure_rejects_untouched (op : WriteOp) (db : DB) :
  (exists m : string,
     m <> ""
     /\ dispatch true op db = (message m 500, db)
     /\ ok (dispatch true op db).1 = false)
  /\ forall p : ReorderBody,
       reorder_jobs true p db = (message "Failed to reorder jobs" 500, db).
Proof.
  split; [|done].
  destruct op; try rewrite dispatch_reorder; simpl; eexists;
    (split; [|split; reflexivity]); discriminate.
Qed.

(** The resolver registered for the reorder path, taken by itself,
    validates the payload: a body that is not JSON, or whose [orderedJobs]
    is not an array or is the empty array, is answered 400 and the store
    is as it was. *)
Lemma reorder_jobs_validates (p : ReorderBody) (db : DB) :
  Spec.malformed p ->
  exists m : string, reorder_jobs false p db = (message m 400, db).
Proof. intros [-> | [-> | ->]]; by eexists. Qed.

(** C5 — What a bulk-reorder call gets, whatever its payload, empty and
    malformed ones included: the request [PATCH /jobs/reorder] is answered
    by the resolver of '/jobs/:id', which comes first in the array, takes
    "reorder" for an id and fails on it.  The answer is a 500 (the
    simulated failure, or the escaped exception of the store), never the
    400 of the validation, which is in a resolver that no request reaches;
    no call answers ok.  The store is as it was. *)
Theorem reorder_call_is_never_validated
    (fail : bool) (p : ReorderBody) (db : DB) :
  route PATCH "/jobs/reorder" = Some (Rpatch_job, ["reorder"])
  /\ dispatch fail (BulkReorderJobs p) db
     = ((if fail then message "Failed to save changes" 500 else unhandled),
        db)
  /\ status (dispatch fail (BulkReorderJobs p) db).1 = 500%Z
  /\ ok (dispatch fail (BulkReorderJobs p) db).1 = false
  /\ reorder_jobs false (Payload (Arr [])) db
     = (message "Invalid payload for reordering" 400, db).
Proof.
  split; [reflexivity|]. rewrite dispatch_reorder.
  split; [done|]. by destruct fail.
Qed.

(** C10 — Patching an id that is the key of no stored job (respectively
    candidate), when the failure trial passes, answers 200 with the body
    [{id, ...patch}] and leaves every collection as it was: there is no
    not-found error. *)
Theorem patch_unknown_id_succeeds_untouched
    (id : Z) (patch : obj) (db : DB) :
  (rows (jobs db) !! id = None ->
     patch_job false (KInt id) patch db
     = ({| status := 200;
           body := JsonObj (json <$> (patch ∪ {[ "id" := VNum id ]})) |}, db)
     /\ ok (patch_job false (KInt id) patch db).1 = true)
  /\ (rows (candidates db) !! id = None ->
     patch_candidate false (KInt id) patch db
     = ({| status := 200;
           body := JsonObj (json <$> (patch ∪ {[ "id" := VNum id ]})) |}, db)
     /\ ok (patch_candidate false (KInt id) patch db).1 = true).
Proof.
  split; intros Hnone.
  - unfold patch_job. rewrite (update_absent _ _ _ _ Hnone).
    by rewrite set_jobs_same.
  - unfold patch_candidate. rewrite (update_absent _ _ _ _ Hnone).
    by rewrite set_candidates_same.
Qed.

(** No job and no candidate has the id 99. *)
Lemma patch_unknown_id_succeeds_untouched_witness :
  patch_job false (KInt 99)
    {[ "title" := VStr "Staff Engineer" ]} Sample.store
  = ({| status := 200;
        body := JsonObj {[ "title" := VStr "Staff Engineer";
                           "id" := VNum 99 ]} |}, Sample.store)
  /\ patch_candidate false (KInt 99)
       {[ "stage" := VStr "hired" ]} Sample.store
     = ({| status := 200;
           body := JsonObj {[ "stage" := VStr "hired";
                              "id" := VNum 99 ]} |}, Sample.store).
Proof.
  destruct (patch_unknown_id_succeeds_untouched 99
              {[ "title" := VStr "Staff Engineer" ]} Sample.store)
    as [Hj _].
  destruct (patch_unknown_id_succeeds_untouched 99
              {[ "stage" := VStr "hired" ]} Sample.store)
    as [_ Hc].
  split.
  - destruct Hj as [Hj _]; [vm_compute; reflexivity|].
    rewrite Hj. vm_compute. reflexivity.
  - destruct Hc as [Hc _]; [vm_compute; reflexivity|].
    rewrite Hc. vm_compute. reflexivity.
Defined.

End HandlerFacts.

(* ********************************************************************* *)
(** * The Kanban board                                                    *)
(* ********************************************************************* *)

Section Kanban.
Import Dexie Handlers CandidatesPage.

Lemma find_findIndex {A} (p : A -> bool) (l : list A) (x : A) :
  List.find p l = Some x ->
  (0 <= findIndex p l)%Z /\ l !! Z.to_nat (findIndex p l) = Some x.
Proof.
  induction l as [|y l IH]; [done|]. simpl.
  destruct (p y) eqn:Hy.
  - intros [= ->]. by split.
  - intros [H0 Hl]%IH.
    destruct (findIndex p l <? 0)%Z eqn:E; [lia|].
    split; [lia|]. rewrite Z2Nat.inj_add by lia.
    by rewrite Nat.add_comm.
Qed.

Lemma deref_Some (h : gmap ref obj) (r : ref) (c : obj) :
  h !! r = Some c -> deref h r = c.
Proof. intros H. unfold deref. by rewrite H. Qed.

Lemma state_eta (st : State) :
  {| heap := heap st; candidates := candidates st;
     activeCandidate := activeCandidate st |} = st.
Proof. by destruct st. Qed.

(** The preview of a card over its own column changes nothing. *)
Lemma handleDragOver_same_stage (st : State) (activeId overId : val)
    (r : ref) (c : obj) (s : string) :
  find_candidate st activeId = Some r ->
  heap st !! r = Some c ->
  c !! "stage" = Some (VStr s) ->
  findContainer st overId = Some (VStr s) ->
  handleDragOver {| active := activeId; over := Some overId |} st = st.
Proof.
  intros Hfind Hr Hstage Hover. unfold handleDragOver. cbn [over active].
  rewrite Hover.
  destruct (negb (truthy (findContainer st activeId))
            || negb (truthy (Some (VStr s)))
            || strict_eq (findContainer st activeId) (Some (VStr s)));
    [done|].
  destruct (find_findIndex _ _ _ Hfind) as [Hge Hidx].
  destruct (findIndex _ _ <? 0)%Z eqn:E; [lia|].
  rewrite Hidx, (deref_Some _ _ _ Hr). cbn [set_prop].
  rewrite (insert_id c) by done. rewrite (insert_id (heap st)) by done.
  apply state_eta.
Qed.

(** A drop of a card on its own column: no call, no change. *)
Lemma handleDragEnd_same_stage (fail : bool) (w : World)
    (activeId overId : val) (r : ref) (c : obj) (s : string) :
  find_candidate (view w) activeId = Some r ->
  heap (view w) !! r = Some c ->
  c !! "stage" = Some (VStr s) ->
  findContainer (view w) overId = Some (VStr s) ->
  handleDragEnd fail {| active := activeId; over := Some overId |} w
  = {| view := {| heap := heap (view w); candidates := candidates (view w);
                  activeCandidate := None |};
       db := db w; calls := calls w; toasts := toasts w |}.
Proof.
  intros Hfind Hr Hstage Hover. unfold handleDragEnd. cbn [over active].
  rewrite Hover, Hfind.
  destruct (negb (truthy (Some (VStr s))) && _); [done|].
  rewrite (deref_Some _ _ _ Hr), Hstage.
  unfold strict_eq. by rewrite bool_decide_eq_true_2.
Qed.

Lemma find_pred_ext {A} (p q : A -> bool) (l : list A) :
  (forall x, x ∈ l -> p x = q x) -> List.find p l = List.find q l.
Proof.
  induction l as [|y l IH]; intros H; [done|]. simpl.
  rewrite (H y) by apply list_elem_of_here.
  destruct (q y); [done|]. apply IH. intros x Hx. apply H. by right.
Qed.

Lemma find_candidate_spec st id r :
  find_candidate st id = Some r ->
  r ∈ candidates st /\ has_id (heap st) id r = true.
Proof.
  intros [Hin Hp]%find_some. split; [by apply list_elem_of_In|done].
Qed.

Lemma set_prop_same (name : string) (c : obj) :
  set_prop name (c !! name) c = c.
Proof.
  unfold set_prop. destruct (c !! name) eqn:E;
    [by apply insert_id|by apply delete_id].
Qed.

(** The rollback, seen through what is rendered: the cards with the
    dragged id get the old stage, every other card is the same record. *)
Lemma revert_stage_render activeId old (l : list ref) :
  forall (h h' : gmap ref obj) (l' : list ref),
    (forall r, r ∈ l -> is_Some (h !! r)) ->
    revert_stage activeId old h l = (h', l') ->
    deref h' <$> l'
    = (fun r => if has_id h activeId r
                then set_prop "stage" old (deref h r) else deref h r) <$> l
    /\ (forall r, is_Some (h !! r) -> h' !! r = h !! r).
Proof.
  induction l as [|r l IH]; intros h h' l' Hwf Hrun.
  - injection Hrun as <- <-. by split.
  - cbn [revert_stage] in Hrun.
    assert (forall x, x ∈ l -> is_Some (h !! x)) as Hwf'
      by (intros x Hx; apply Hwf; by right).
    destruct (has_id h activeId r) eqn:Hid.
    + set (r' := fresh (dom h)) in *.
      set (h1 := <[r' := set_prop "stage" old (deref h r)]> h) in *.
      assert (h !! r' = None) as Hfresh
        by (apply not_elem_of_dom, is_fresh).
      assert (forall x, is_Some (h !! x) -> h1 !! x = h !! x) as Hh1.
      { intros x [c Hx]. unfold h1. rewrite lookup_insert_ne; [done|].
        intros <-. congruence. }
      destruct (revert_stage activeId old h1 l) as [h2 l2] eqn:Hrec.
      injection Hrun as <- <-.
      destruct (IH h1 h2 l2) as [Hmap Hkeep]; [|done|].
      { intros x Hx. rewrite Hh1 by auto. auto. }
      split.
      * cbn [fmap list_fmap]. rewrite Hid. f_equal.
        -- unfold deref at 1. rewrite Hkeep.
           ++ unfold h1. by rewrite lookup_insert_eq.
           ++ unfold h1. rewrite lookup_insert_eq. by eexists.
        -- fold (fmap (M:=list) (deref h2) l2). rewrite Hmap.
           apply list_fmap_ext. intros i x Hx.
           assert (deref h1 x = deref h x) as Hd.
           { unfold deref. rewrite Hh1; [done|].
             apply Hwf'. by eapply list_elem_of_lookup_2. }
           unfold has_id. by rewrite Hd.
      * intros x Hx. rewrite Hkeep, Hh1; [done|done|].
        rewrite Hh1 by done. done.
    + destruct (revert_stage activeId old h l) as [h2 l2] eqn:Hrec.
      injection Hrun as <- <-.
      destruct (IH h h2 l2 Hwf' Hrec) as [Hmap Hkeep].
      split; [|done].
      cbn [fmap list_fmap]. rewrite Hid. f_equal; [|exact Hmap].
      unfold deref. rewrite Hkeep; [done|]. apply Hwf. by left.
Qed.

(** On a board whose cards have distinct ids, the handler of the drop
    returns with what is rendered unchanged, whether the call succeeds,
    fails or is not made: the stage it restores on failure is the stage it
    has just read.  (A toast it has raised then loads the board anew.) *)
Lemma drop_leaves_render (fail : bool) (ev : DragEvent) (w : World) :
  Spec.board_ok (view w) ->
  render (view (handleDragEnd fail ev w)) = render (view w).
Proof.
  intros [Hwf Huniq]. unfold handleDragEnd.
  destruct (over ev) as [overId|]; [|done].
  destruct (negb _ && _); [done|].
  destruct (find_candidate (view w) (active ev)) as [r0|] eqn:Hfind; [|done].
  destruct (strict_eq _ _); [done|].
  destruct (dispatch _ _ _) as [res db'].
  destruct (ok res && _); [done|].
  destruct (revert_stage _ _ _ _) as [h l] eqn:Hrev.
  destruct (revert_stage_render _ _ _ _ _ _ Hwf Hrev) as [Hmap _].
  unfold render. cbn [view heap candidates]. rewrite Hmap.
  apply list_fmap_ext. intros i r Hr.
  destruct (has_id (heap (view w)) (active ev) r) eqn:Hid; [|done].
  destruct (find_candidate_spec _ _ _ Hfind) as [Hin0 Hid0].
  assert (r = r0) as ->.
  { apply Huniq; [by eapply list_elem_of_lookup_2|done|].
    unfold has_id, strict_eq in Hid, Hid0.
    destruct (deref _ r !! "id") as [[]|], (deref _ r0 !! "id") as [[]|];
      try done;
      apply bool_decide_eq_true in Hid, Hid0; congruence. }
  apply set_prop_same.
Qed.

(** A drop on another column than the one the card is shown in issues
    exactly one patch-candidate call, carrying the destination stage. *)
Lemma drop_on_other_stage_issues_one_call (fail : bool)
    (w : World) (activeId overId : val) (r : ref) :
  find_candidate (view w) activeId = Some r ->
  truthy (findContainer (view w) overId) = true ->
  strict_eq (deref (heap (view w)) r !! "stage")
            (findContainer (view w) overId) = false ->
  calls (handleDragEnd fail {| active := activeId; over := Some overId |} w)
  = calls w ++ [PatchCandidate (param_of activeId)
                  (set_prop "stage" (json <$> findContainer (view w) overId)
                     ∅)].
Proof.
  intros Hfind Htruthy Hne. unfold handleDragEnd. cbn [over active].
  rewrite Htruthy, Hfind, Hne. cbn [negb andb].
  destruct (dispatch _ _ _) as [res db'].
  destruct (ok res && _); [done|].
  by destruct (revert_stage _ _ _ _).
Qed.

(** The preview never reaches the dispatcher or the store. *)
Lemma preview_issues_no_call (w : World) (ev : DragEvent) :
  calls (step w (DragOver ev)) = calls w
  /\ db (step w (DragOver ev)) = db w.
Proof. done. Qed.

(** X2 — A card with a stage, previewed over a stage column and dropped
    there: whatever its stage was, the drop issues no call and the store
    is not told, while the board shows the card in that column. *)
Lemma preview_then_drop_never_dispatches (fail : bool)
    (w : World) (activeId : val) (column : string) (r : ref) (c : obj) :
  find_candidate (view w) activeId = Some r ->
  heap (view w) !! r = Some c ->
  truthy (c !! "stage") = true ->
  is_stage_id (VStr column) = true ->
  is_stage_id activeId = false ->
  let ev := {| active := activeId; over := Some (VStr column) |} in
  let w' := run w [DragOver ev; DragEnd fail ev] in
  calls w' = calls w /\ db w' = db w
  /\ stage_of (view w') activeId = Some (VStr column).
Proof.
  intros Hfind Hr Htruthy Hcol Hact ev w'.
  assert (findContainer (view w) (VStr column) = Some (VStr column)) as Hover
    by (unfold findContainer; by rewrite Hcol).
  assert (findContainer (view w) activeId = c !! "stage") as Hsrc.
  { unfold findContainer. rewrite Hact, Hfind. cbn.
    by rewrite (deref_Some _ _ _ Hr). }
  assert (truthy (Some (VStr column)) = true) as Hct.
  { destruct column; [vm_compute in Hcol; discriminate|done]. }
  unfold w', run. cbn [foldl step view db calls].
  (* the view after the preview *)
  assert (exists c',
            heap (handleDragOver ev (view w)) !! r = Some c'
            /\ c' !! "stage" = Some (VStr column)
            /\ find_candidate (handleDragOver ev (view w)) activeId = Some r
            /\ findContainer (handleDragOver ev (view w)) (VStr column)
               = Some (VStr column)) as (c' & Hr' & Hs' & Hf' & Ho').
  { unfold handleDragOver, ev. cbn [over active].
    rewrite Hover, Hsrc, Htruthy, Hct. cbn [negb orb].
    destruct (strict_eq (c !! "stage") (Some (VStr column))) eqn:Heq.
    - exists c. repeat split; try done.
      unfold strict_eq in Heq.
      destruct (c !! "stage") as [[]|]; try done;
        by apply bool_decide_eq_true in Heq.
    - destruct (find_findIndex _ _ _ Hfind) as [Hge Hidx].
      destruct (findIndex _ _ <? 0)%Z eqn:E; [lia|].
      rewrite Hidx, (deref_Some _ _ _ Hr). cbn [set_prop].
      exists (<["stage" := VStr column]> c).
      split; [apply lookup_insert_eq|]. split; [apply lookup_insert_eq|].
      split; [|unfold findContainer; by rewrite Hcol].
      unfold find_candidate. cbn [heap candidates].
      rewrite <- Hfind. apply find_pred_ext. intros x _.
      unfold has_id, deref. destruct (decide (x = r)) as [->|Hne].
      + rewrite lookup_insert_eq, Hr. cbn.
        by rewrite lookup_insert_ne.
      + by rewrite lookup_insert_ne. }
  rewrite (handleDragEnd_same_stage fail _ activeId (VStr column) r c'
             column); try done.
  cbn [view db calls]. split; [done|]. split; [done|].
  unfold stage_of.
  change (find_candidate _ activeId)
    with (find_candidate (handleDragOver ev (view w)) activeId).
  rewrite Hf'. cbn [mbind option_bind heap].
  by rewrite (deref_Some _ _ _ Hr').
Qed.

(** C6 — A move whose source stage equals its destination stage: the
    preview over that column and the drop on it perform no dispatcher
    call, leave the store alone and leave the candidates of the view as
    they were; a whole drag session start, preview, drop gives back the
    view-state that preceded it. *)
Theorem same_stage_move_is_noop
    (fail : bool) (w : World) (activeId overId : val)
    (r : ref) (c : obj) (s : string) :
  find_candidate (view w) activeId = Some r ->
  heap (view w) !! r = Some c ->
  c !! "stage" = Some (VStr s) ->
  findContainer (view w) overId = Some (VStr s) ->
  let ev := {| active := activeId; over := Some overId |} in
  handleDragOver ev (view w) = view w
  /\ calls (handleDragEnd fail ev w) = calls w
  /\ db (handleDragEnd fail ev w) = db w
  /\ heap (view (handleDragEnd fail ev w)) = heap (view w)
  /\ candidates (view (handleDragEnd fail ev w)) = candidates (view w)
  /\ render (view (handleDragEnd fail ev w)) = render (view w)
  /\ (activeCandidate (view w) = None ->
      run w [DragStart activeId; DragOver ev; DragEnd fail ev] = w).
Proof.
  intros Hfind Hr Hstage Hover ev.
  split; [by eapply handleDragOver_same_stage|].
  unfold ev.
  rewrite (handleDragEnd_same_stage fail w activeId overId r c s) by done.
  do 5 (split; [done|]).
  intros Hidle. unfold run. cbn [foldl step view db calls].
  set (st1 := handleDragStart activeId (view w)).
  assert (handleDragOver {| active := activeId; over := Some overId |} st1
          = st1) as ->.
  { by apply (handleDragOver_same_stage st1 activeId overId r c s). }
  rewrite (handleDragEnd_same_stage fail _ activeId overId r c s) by done.
  cbn. destruct w as [[h l a] d cs ts]. cbn in *. by subst a.
Qed.

(** Candidate 1, in "applied", picked up and dropped on "applied". *)
Lemma same_stage_move_is_noop_witness :
  run Sample.kanban
    [DragStart (VNum 1); DragOver (Sample.onto 1 "applied");
     DragEnd true (Sample.onto 1 "applied")] = Sample.kanban.
Proof.
  apply (same_stage_move_is_noop true Sample.kanban
           (VNum 1) (VStr "applied") 0%nat Sample.asha "applied");
    vm_compute; reflexivity.
Defined.

(** C2 — The preview itself never reaches the dispatcher or the store.
    But a session that previews the card over the destination column and
    drops it there issues no patch-candidate call at all: by the time of
    the drop the preview has already written the destination stage into
    the candidate, and the drop takes source and destination for equal.
    The card is shown in "tech" while the store still holds "applied". *)
Theorem preview_then_drop_issues_no_call (fail : bool) :
  let previewed :=
    run Sample.kanban
      [DragStart (VNum 1); DragOver (Sample.onto 1 "tech")] in
  let dropped := step previewed (DragEnd fail (Sample.onto 1 "tech")) in
  stage_of (view Sample.kanban) (VNum 1) = Some (VStr "applied")
  /\ calls previewed = [] /\ db previewed = Sample.store
  /\ stage_of (view previewed) (VNum 1) = Some (VStr "tech")
  /\ calls dropped = []
  /\ stage_of (view dropped) (VNum 1) = Some (VStr "tech")
  /\ Dexie.get 1 (Handlers.candidates (db dropped)) ≫= (.!! "stage")
     = Some (VStr "applied").
Proof. destruct fail; vm_compute; repeat split; reflexivity. Qed.

(** C1 — A candidate in "applied" is dragged to "tech" with the
    dispatcher forced to fail.  Dropped on the previewed column, no call
    is made and the card stays in "tech".  Dropped on another column
    ("offer") after the preview over "tech", the call is made and fails,
    and the rollback restores "tech", the previewed stage, not "applied".
    The other candidate is left as it was in both cases. *)
Theorem failed_move_ends_in_previewed_stage :
  let dropped :=
    run Sample.kanban
      [DragStart (VNum 1); DragOver (Sample.onto 1 "tech");
       DragEnd true (Sample.onto 1 "tech")] in
  let redirected :=
    run Sample.kanban
      [DragStart (VNum 1); DragOver (Sample.onto 1 "tech");
       DragEnd true (Sample.onto 1 "offer")] in
  stage_of (view Sample.kanban) (VNum 1) = Some (VStr "applied")
  /\ calls dropped = []
  /\ stage_of (view dropped) (VNum 1) = Some (VStr "tech")
  /\ calls redirected
     = [PatchCandidate (KInt 1) {[ "stage" := VStr "offer" ]}]
  /\ db redirected = Sample.store
  /\ stage_of (view redirected) (VNum 1) = Some (VStr "tech")
  /\ stage_of (view dropped) (VNum 2) = Some (VStr "screen")
  /\ stage_of (view redirected) (VNum 2) = Some (VStr "screen").
Proof. vm_compute; repeat split; reflexivity. Qed.

End Kanban.

(* ********************************************************************* *)
(** * The jobs board                                                      *)
(* ********************************************************************* *)

Section JobsBoard.
Import Dexie Handlers JobsPage.

Lemma findIndex_bound {A} (p : A -> bool) (l : list A) :
  (-1 <= findIndex p l < Z.of_nat (length l))%Z.
Proof.
  induction l as [|x l IH]; simpl; [lia|].
  destruct (p x); [lia|].
  destruct (findIndex p l <? 0)%Z eqn:E; lia.
Qed.

(** Moving the element found at [findIndex] rearranges the array. *)
Lemma arrayMove_found {A} (p : A -> bool) (l : list A) (to : Z) :
  l <> [] ->
  exists moved : list A,
    arrayMove l (findIndex p l) to = Some <$> moved /\ moved ≡ₚ l.
Proof.
  intros Hne. unfold arrayMove.
  pose proof (findIndex_bound p l) as Hb.
  assert (0 < length l)%nat by (destruct l; [done|simpl; lia]).
  set (k := Z.to_nat (rel_index (Z.of_nat (length l)) (findIndex p l))).
  assert (k < length l)%nat as Hk.
  { unfold k, rel_index. destruct (findIndex p l <? 0)%Z eqn:E; lia. }
  destruct (lookup_lt_is_Some_2 l k Hk) as [x Hx]. rewrite Hx.
  set (at_ := Z.to_nat _).
  exists (take at_ (delete k l) ++ x :: drop at_ (delete k l)). split.
  - by rewrite fmap_app, fmap_cons.
  - rewrite <- Permutation_middle, take_drop.
    symmetry. by apply delete_Permutation.
Qed.

(** The per-record updates that follow the bulk update name no record:
    the first one is rejected, and the transaction leaves the table as it
    found it. *)
Lemma transaction_rejects (u : KeyChange) (us : list KeyChange) (t : Table) :
  transaction (u :: us) t = (t, inl DataError).
Proof. reflexivity. Qed.

(** The resolver registered for the reorder path, taken by itself: it
    applies the bulk update, then runs its per-record updates, whose keys
    are all [undefined]; it answers 500, and the store holds the new
    orders. *)
Lemma reorder_applies_then_answers (j : obj) (l : list obj) db :
  reorder_jobs false (Payload (Arr (j :: l))) db
  = (message "Failed to reorder jobs (internal)" 500,
     set_jobs
       {| rows := foldl bulk_step (rows (Handlers.jobs db))
                    ((fun job => {| kc_key := job !! "id";
                                    kc_order := job !! "order" |})
                       <$> (j :: l));
          keyGen := keyGen (Handlers.jobs db) |} db).
Proof. reflexivity. Qed.

Lemma bulk_step_other rs u (k : Z) :
  kc_key u <> Some (VNum k) -> bulk_step rs u !! k = rs !! k.
Proof.
  intros Hne. unfold bulk_step.
  destruct (kc_key u) as [[k'| | | | |]|]; try done.
  destruct (rs !! k') eqn:E; [|done].
  rewrite lookup_insert_ne; [done|]. congruence.
Qed.

Lemma bulk_step_same rs u (k : Z) :
  kc_key u = Some (VNum k) ->
  bulk_step rs u !! k = set_order (kc_order u) <$> rs !! k.
Proof.
  intros Hk. unfold bulk_step. rewrite Hk.
  destruct (rs !! k) eqn:E; simpl; [by rewrite lookup_insert_eq|done].
Qed.

Lemma bulk_fold_other us rs (k : Z) :
  Some (VNum k) ∉ kc_key <$> us -> foldl bulk_step rs us !! k = rs !! k.
Proof.
  revert rs. induction us as [|u us IH]; intros rs Hk; [done|].
  rewrite fmap_cons, not_elem_of_cons in Hk. destruct Hk as [Hu Hus].
  cbn [foldl]. rewrite IH by done. by apply bulk_step_other.
Qed.

Lemma bulk_fold_same us rs (i : nat) u (k : Z) :
  NoDup (kc_key <$> us) -> us !! i = Some u -> kc_key u = Some (VNum k) ->
  foldl bulk_step rs us !! k = set_order (kc_order u) <$> rs !! k.
Proof.
  revert rs i. induction us as [|v us IH]; intros rs i Hnd Hi Hk; [done|].
  rewrite fmap_cons in Hnd. apply NoDup_cons in Hnd as [Hv Hnd].
  cbn [foldl]. destruct i as [|i]; simpl in Hi.
  - injection Hi as ->. rewrite bulk_fold_other by congruence.
    by apply bulk_step_same.
  - rewrite (IH _ i) by done. f_equal. apply bulk_step_other.
    intros Hvk. apply Hv. rewrite Hvk, <- Hk.
    apply list_elem_of_fmap_2. by eapply list_elem_of_lookup_2.
Qed.

Lemma entry_of_numbers (j : obj) (k o : Z) :
  j !! "id" = Some (VNum k) -> j !! "order" = Some (VNum o) ->
  entry_of j = {| kc_key := Some (VNum k); kc_order := Some (VNum o) |}.
Proof. intros Hk Ho. unfold entry_of. by rewrite Hk, Ho. Qed.

Lemma updates_of_payload (l : list obj) :
  (fun job => {| kc_key := job !! "id"; kc_order := job !! "order" |})
    <$> api_payload l
  = entry_of <$> l.
Proof. unfold api_payload. by rewrite <- list_fmap_compose. Qed.

(** The reordered window: the same jobs, rearranged, each with the order
    of its new position. *)
Lemma new_jobs_moved (st : State) (ev : DragEvent) (newJobs : list obj) :
  jobs st <> [] ->
  new_jobs st ev = Some newJobs ->
  exists moved : list obj,
    moved ≡ₚ jobs st
    /\ newJobs = imap (fun i j =>
                   <["order" := VNum ((page st - 1) * 10 + Z.of_nat i)]> j)
                  moved.
Proof.
  intros Hne. unfold new_jobs.
  destruct (over ev) as [overId|]; [|done].
  destruct (strict_eq _ _); [done|]. intros [= <-].
  destruct (arrayMove_found (has_id (active ev)) (jobs st)
              (findIndex (has_id overId) (jobs st)) Hne)
    as (moved & -> & Hperm).
  exists moved. split; [done|].
  unfold with_order. rewrite imap_fmap. by apply imap_ext.
Qed.

Lemma snoc_ne {A} (l : list A) (x : A) : l ++ [x] <> l.
Proof.
  intros E. apply (f_equal length) in E. rewrite length_app in E.
  simpl in E. lia.
Qed.

(** C3 — What a bulk-reorder from the jobs board comes to, for any loaded
    window on page p and any drop that is a move.  The page sends, for
    the job at new position i of the rearranged window, the order
    [(p-1)*10 + i].  The call is never answered ok: the request is taken
    by the resolver of '/jobs/:id'.  So no reorder is successful and
    nothing is stored: the store after the drop is the store before it
    (the jobs of the window keep the orders they had, whether or not these
    are the numbers of [0, K)), the window is put back as it was, an error
    toast is raised, and the load that the toast sets off reads page p of
    the unchanged store. *)
Theorem reorder_is_never_stored
    (fail : bool) (w : World) (ev : DragEvent) (newJobs : list obj)
    (search status : string) :
  new_jobs (view w) ev = Some newJobs ->
  let op := BulkReorderJobs (Payload (Arr (api_payload newJobs))) in
  let w' := handleDragEnd fail ev w in
  ok (dispatch fail op (db w)).1 = false
  /\ (dispatch fail op (db w)).2 = db w
  /\ calls w' = calls w ++ [op]
  /\ db w' = db w
  /\ jobs (view w') = jobs (view w)
  /\ toasts w' = toasts w ++ ["error"]
  /\ JobForm.settle search status w w'
     = JobForm.fetchJobs search status (page (view w)) w'
  /\ (jobs (view w) <> [] ->
      exists moved : list obj,
        moved ≡ₚ jobs (view w)
        /\ newJobs
           = imap (fun i j =>
                     <["order" := VNum ((page (view w) - 1) * 10
                                        + Z.of_nat i)]> j)
                  moved).
Proof.
  intros Hnew op w'.
  assert (w' = {| view := {| jobs := jobs (view w); page := page (view w);
                             activeJob := None |};
                  db := db w; calls := calls w ++ [op];
                  toasts := toasts w ++ ["error"] |}) as Hw'.
  { unfold w', handleDragEnd. rewrite Hnew. cbv zeta. fold op.
    unfold op at 1. rewrite dispatch_reorder. by destruct fail. }
  unfold op at 1 2. rewrite dispatch_reorder.
  split; [by destruct fail|]. split; [done|].
  rewrite Hw'. cbn [calls db view jobs toasts page].
  do 4 (split; [done|]). split.
  - unfold JobForm.settle. cbn [toasts view page].
    rewrite bool_decide_false by apply snoc_ne. done.
  - intros Hne. by apply (new_jobs_moved _ ev).
Qed.

(** Page 1 of the active jobs shows jobs 1 and 3, stored with the orders 0
    and 2; job 3 is dropped on job 1 and the failure trial passes.  The
    call carries order 0 for job 3 and order 1 for job 1; the stored
    orders stay 2 and 0. *)
Lemma reorder_is_never_stored_witness :
  let w := Sample2.active_page in
  let w' := handleDragEnd false Sample2.job3_onto_job1 w in
  (fun j => (j !! "id", j !! "order")) <$> jobs (view w)
  = [(Some (VNum 1), Some (VNum 0)); (Some (VNum 3), Some (VNum 2))]
  /\ calls w'
     = [BulkReorderJobs
          (Payload (Arr [ {[ "id" := VNum 3; "order" := VNum 0 ]};
                          {[ "id" := VNum 1; "order" := VNum 1 ]} ]))]
  /\ db w' = Sample2.seeded
  /\ rows (Handlers.jobs (db w')) !! 3%Z ≫= (.!! "order") = Some (VNum 2)
  /\ rows (Handlers.jobs (db w')) !! 1%Z ≫= (.!! "order") = Some (VNum 0)
  /\ (fun j => (j !! "id", j !! "order")) <$> jobs (view w')
     = [(Some (VNum 1), Some (VNum 0)); (Some (VNum 3), Some (VNum 2))]
  /\ toasts w' = ["error"].
Proof.
  pose (w := Sample2.active_page). pose (ev := Sample2.job3_onto_job1).
  pose (nj := default [] (new_jobs (view w) ev)).
  destruct (reorder_is_never_stored false w ev nj "" "active")
    as (_ & _ & Hc & Hd & Hv & Ht & _).
  - vm_compute. reflexivity.
  - cbv zeta. fold w ev. rewrite Hc, Hd, Hv, Ht.
    repeat split; vm_compute; reflexivity.
Defined.

End JobsBoard.

(* ********************************************************************* *)
(** * The store under writes                                              *)
(* ********************************************************************* *)

Section Writes.
Import Dexie Handlers.

Lemma violates_unique_true sch k o rs f k' o' :
  f ∈ uniques sch -> is_key (o !! f) = true ->
  rs !! k' = Some o' -> k' <> k -> o' !! f = o !! f ->
  violates_unique sch k o rs = true.
Proof.
  intros Hf Hkey Hk' Hne Heq. unfold violates_unique.
  apply existsb_exists. exists f. split; [by apply list_elem_of_In|].
  rewrite Hkey. cbn [andb]. apply existsb_exists. exists (k', o'). split.
  - apply list_elem_of_In. by apply elem_of_map_to_list.
  - cbn [fst snd]. rewrite bool_decide_eq_true_2 by done.
    destruct (Z.eqb_spec k' k); [done|reflexivity].
Qed.

Lemma violates_unique_false sch k o rs f k' o' :
  violates_unique sch k o rs = false ->
  f ∈ uniques sch -> is_key (o !! f) = true ->
  rs !! k' = Some o' -> o' !! f = o !! f -> k' = k.
Proof.
  intros Hv Hf Hkey Hk' Heq. destruct (decide (k' = k)) as [|Hne]; [done|].
  by rewrite (violates_unique_true sch k o rs f k' o') in Hv.
Qed.

Lemma unique_on_insert f (rs : gmap Z obj) kg kg' k o :
  Inv.unique_on f {| rows := rs; keyGen := kg |} ->
  (forall k' o', rs !! k' = Some o' -> k' <> k ->
     (is_key (o !! f) = true \/ is_key (o' !! f) = true) ->
     o' !! f <> o !! f) ->
  Inv.unique_on f {| rows := <[k := o]> rs; keyGen := kg' |}.
Proof.
  intros Hu Hnew k1 o1 H1 k2 o2 H2 Hkey Heq. cbn [rows] in *.
  destruct (decide (k1 = k2)) as [|Hne]; [done|exfalso].
  apply lookup_insert_Some in H1 as [[<- <-]|[Hk1 H1]];
    apply lookup_insert_Some in H2 as [[<- <-]|[Hk2 H2]]; try done.
  - eapply (Hnew k2 o2); eauto.
  - eapply (Hnew k1 o1); eauto.
  - by apply Hne, (Hu k1 o1 H1 k2 o2 H2).
Qed.

(** Whatever [add] answers, the table keeps its promises and every record
    that was stored is still stored, unchanged. *)
Lemma add_ok sch o t :
  Inv.table_ok sch t ->
  Inv.table_ok sch (add sch o t).1 /\ Inv.kept t (add sch o t).1.
Proof.
  intros Hok. pose proof Hok as (Hin & Hah & Hun). unfold add.
  assert (forall k o', violates_unique sch k o' (rows t) = false ->
            Forall (fun f => Inv.unique_on f
                      {| rows := <[k := o']> (rows t);
                         keyGen := keyGen t |}) (uniques sch)) as Huniq.
  { intros k o' Hv. rewrite Forall_forall in Hun |- *. intros f Hf.
    apply (unique_on_insert f (rows t) (keyGen t)); [exact (Hun f Hf)|].
    intros k' r Hk' Hne Hkey Heq.
    apply Hne, (violates_unique_false sch k o' (rows t) f k' r); try done.
    destruct Hkey as [|Hkey]; [done|by rewrite <- Heq]. }
  destruct (o !! primKey sch) as [[k| | | | |]|] eqn:Hk;
    try (split; [exact Hok|by intros ??]).
  - destruct (bool_decide (is_Some (rows t !! k))) eqn:Hex;
      [split; [exact Hok|by intros ??]|].
    apply bool_decide_eq_false in Hex. rewrite <- eq_None_not_Some in Hex.
    destruct (violates_unique sch k o (rows t)) eqn:Hv;
      cbn [orb fst]; [split; [exact Hok|by intros ??]|].
    split; [refine (conj _ (conj _ _))|].
    + intros k' r. cbn [rows]. intros [[<- <-]|[? ?]]%lookup_insert_Some;
        [done|by apply Hin].
    + intros Hauto k' r. cbn [rows keyGen].
      rewrite Hauto. cbn [andb]. specialize (Hah Hauto).
      intros [[<- <-]|[? Hr]]%lookup_insert_Some.
      * destruct (keyGen t <=? k)%Z eqn:E; lia.
      * pose proof (Hah k' r Hr) as Hlt. cbn in Hlt.
        destruct (keyGen t <=? k)%Z eqn:E; lia.
    + specialize (Huniq k o Hv). rewrite Forall_forall in Huniq |- *.
      intros f Hf k1 o1 H1 k2 o2 H2. by apply (Huniq f Hf k1 o1 H1 k2 o2 H2).
    + intros k' r Hr. cbn [rows]. rewrite lookup_insert_ne; [done|].
      intros <-. congruence.
  - destruct (autoInc sch) eqn:Hauto; [|split; [exact Hok|by intros ??]].
    specialize (Hah eq_refl).
    assert (rows t !! keyGen t = None) as Hfresh.
    { destruct (rows t !! keyGen t) eqn:E; [|done].
      pose proof (Hah _ _ E) as Hlt. cbn in Hlt. lia. }
    destruct (violates_unique sch (keyGen t) _ (rows t)) eqn:Hv;
      cbn [fst]; [split; [exact Hok|by intros ??]|].
    split; [refine (conj _ (conj _ _))|].
    + intros k' r. cbn [rows]. intros [[<- <-]|[? ?]]%lookup_insert_Some;
        [by rewrite lookup_insert_eq|by apply Hin].
    + intros _ k' r. cbn [rows keyGen].
      intros [[<- <-]|[? Hr]]%lookup_insert_Some; [lia|].
      pose proof (Hah k' r Hr) as Hlt. cbn in Hlt. lia.
    + specialize (Huniq _ _ Hv). rewrite Forall_forall in Huniq |- *.
      intros f Hf k1 o1 H1 k2 o2 H2. by apply (Huniq f Hf k1 o1 H1 k2 o2 H2).
    + intros k' r Hr. cbn [rows]. rewrite lookup_insert_ne; [done|].
      intros <-. congruence.
Qed.

Lemma uniques_insert sch k o t kg :
  Forall (fun f => Inv.unique_on f t) (uniques sch) ->
  violates_unique sch k o (rows t) = false ->
  Forall (fun f => Inv.unique_on f
            {| rows := <[k := o]> (rows t); keyGen := kg |}) (uniques sch).
Proof.
  intros Hun Hv. rewrite Forall_forall in Hun |- *. intros f Hf.
  apply (unique_on_insert f (rows t) (keyGen t)); [exact (Hun f Hf)|].
  intros k' r Hk' Hne Hkey Heq.
  apply Hne, (violates_unique_false sch k o (rows t) f k' r); try done.
  destruct Hkey as [|Hkey]; [done|by rewrite <- Heq].
Qed.

Lemma put_ok sch o t :
  Inv.table_ok sch t -> Inv.table_ok sch (put sch o t).1.
Proof.
  intros Hok. pose proof Hok as (Hin & Hah & Hun). unfold put.
  destruct (o !! primKey sch) as [[k| | | | |]|] eqn:Hk; try exact Hok.
  - destruct (violates_unique sch k o (rows t)) eqn:Hv; [exact Hok|].
    cbn [fst]. refine (conj _ (conj _ _)).
    + intros k' r. cbn [rows]. intros [[<- <-]|[? ?]]%lookup_insert_Some;
        [done|by apply Hin].
    + intros Hauto k' r. cbn [rows keyGen].
      rewrite Hauto. cbn [andb]. specialize (Hah Hauto).
      intros [[<- <-]|[? Hr]]%lookup_insert_Some.
      * destruct (keyGen t <=? k)%Z eqn:E; lia.
      * pose proof (Hah k' r Hr) as Hlt. cbn in Hlt.
        destruct (keyGen t <=? k)%Z eqn:E; lia.
    + by apply uniques_insert.
  - destruct (autoInc sch); [by apply add_ok|exact Hok].
Qed.

(** An update that does not name the primary key rewrites the record in
    place. *)
Lemma update_in_place sch k changes t r :
  Spec.inbound (primKey sch) t ->
  changes !! primKey sch = None ->
  rows t !! k = Some r ->
  update sch (KInt k) changes t
  = if violates_unique sch k (changes ∪ r) (rows t)
    then (t, inl ConstraintError)
    else ({| rows := <[k := changes ∪ r]> (rows t); keyGen := keyGen t |},
          inr 1%Z).
Proof.
  intros Hin Hch Hr. unfold update, apply_changes. rewrite Hr.
  rewrite (lookup_union_r changes r _ Hch), (Hin k r Hr).
  by rewrite bool_decide_true.
Qed.

Lemma update_ok sch key changes t :
  Inv.table_ok sch t -> changes !! primKey sch = None ->
  Inv.table_ok sch (update sch key changes t).1.
Proof.
  intros Hok Hch. pose proof Hok as (Hin & Hah & Hun).
  destruct key as [k|]; [|done].
  destruct (rows t !! k) as [r|] eqn:Hr;
    [|by rewrite update_absent].
  rewrite (update_in_place sch k changes t r Hin Hch Hr).
  destruct (violates_unique sch k _ (rows t)) eqn:Hv; [exact Hok|].
  cbn [fst]. refine (conj _ (conj _ _)).
  - intros k' r'. cbn [rows]. intros [[<- <-]|[? ?]]%lookup_insert_Some;
      [|by apply Hin].
    rewrite (lookup_union_r changes r _ Hch). by apply Hin.
  - intros Hauto k' r'. cbn [rows keyGen]. specialize (Hah Hauto).
    intros [[<- <-]|[? Hr']]%lookup_insert_Some.
    + exact (Hah _ _ Hr).
    + exact (Hah _ _ Hr').
  - by apply uniques_insert.
Qed.

End Writes.

Section Consistency.
Import Dexie Handlers.

(** [set_order] only writes the [order] property. *)
Lemma set_order_other order (r : obj) f :
  f <> "order" -> set_order order r !! f = r !! f.
Proof.
  intros Hf. unfold set_order.
  destruct order; [by rewrite lookup_insert_ne|by rewrite lookup_delete_ne].
Qed.

Lemma bulk_step_same_but_order rs u : Inv.same_but_order (bulk_step rs u) rs.
Proof.
  intros k. unfold bulk_step.
  destruct (kc_key u) as [[k0| | | | |]|];
    try (by destruct (rs !! k)).
  destruct (rs !! k0) as [r0|] eqn:E0; [|by destruct (rs !! k)].
  destruct (decide (k = k0)) as [->|Hne].
  - rewrite lookup_insert_eq, E0. intros f Hf. by apply set_order_other.
  - rewrite lookup_insert_ne by done. by destruct (rs !! k).
Qed.

Lemma bulk_fold_same_but_order us rs :
  Inv.same_but_order (foldl bulk_step rs us) rs.
Proof.
  revert rs. induction us as [|u us IH]; intros rs.
  - intros k. cbn [foldl]. by destruct (rs !! k).
  - cbn [foldl]. intros k.
    pose proof (IH (bulk_step rs u) k) as H1.
    pose proof (bulk_step_same_but_order rs u k) as H2.
    destruct (foldl bulk_step (bulk_step rs u) us !! k),
      (bulk_step rs u !! k), (rs !! k); try done.
    intros f Hf. by rewrite H1, H2.
Qed.

Lemma same_but_order_ok rs t :
  Inv.same_but_order rs (rows t) ->
  Inv.table_ok jobs_schema t ->
  Inv.table_ok jobs_schema {| rows := rs; keyGen := keyGen t |}.
Proof.
  intros Hs (Hin & Hah & Hun). refine (conj _ (conj _ _)).
  - intros k r' Hr'. cbn [rows] in Hr'. specialize (Hs k).
    rewrite Hr' in Hs. destruct (rows t !! k) as [r|] eqn:Hr; [|done].
    cbn. rewrite Hs by done. by apply Hin.
  - intros Hauto k r' Hr'. cbn [rows keyGen] in *. specialize (Hs k).
    rewrite Hr' in Hs. destruct (rows t !! k) as [r|] eqn:Hr; [|done].
    exact (Hah Hauto k r Hr).
  - apply Forall_forall. intros f Hf.
    apply list_elem_of_singleton in Hf as ->.
    rewrite Forall_forall in Hun.
    specialize (Hun "slug" ltac:(by apply list_elem_of_singleton)).
    intros k1 o1 H1 k2 o2 H2. cbn [rows] in H1, H2.
    pose proof (Hs k1) as S1. pose proof (Hs k2) as S2.
    rewrite H1 in S1. rewrite H2 in S2.
    destruct (rows t !! k1) as [r1|] eqn:R1; [|done].
    destruct (rows t !! k2) as [r2|] eqn:R2; [|done].
    rewrite S1, S2 by done. exact (Hun k1 r1 R1 k2 r2 R2).
Qed.

Lemma bulkUpdate_ok us t :
  Inv.table_ok jobs_schema t ->
  Inv.table_ok jobs_schema (bulkUpdate us t).1.
Proof.
  intros Hok. unfold bulkUpdate. cbn [fst].
  apply same_but_order_ok; [apply bulk_fold_same_but_order|exact Hok].
Qed.

(** The resolver registered for the reorder path, taken by itself. *)
Lemma reorder_ok fail p db :
  Inv.table_ok jobs_schema (jobs db) ->
  exists t, (reorder_jobs fail p db).2 = set_jobs t db
            /\ Inv.table_ok jobs_schema t.
Proof.
  intros Hok.
  assert (exists t, db = set_jobs t db /\ Inv.table_ok jobs_schema t) as Hsame
    by (exists (jobs db); by rewrite set_jobs_same).
  destruct fail; [exact Hsame|].
  destruct p as [|[|[|j l]]]; try exact Hsame.
  rewrite reorder_applies_then_answers. eexists. split; [reflexivity|].
  exact (bulkUpdate_ok _ (jobs db) Hok).
Qed.

End Consistency.

Section WriteInvariants.
Import Dexie Handlers.

Lemma consistent_set_jobs t db :
  Inv.consistent db -> Inv.table_ok jobs_schema t ->
  Inv.consistent (set_jobs t db).
Proof. intros (_ & Hc & Ha & Hr) Ht. by split_and!. Qed.

Lemma consistent_set_candidates t db :
  Inv.consistent db -> Inv.table_ok candidates_schema t ->
  Inv.consistent (set_candidates t db).
Proof. intros (Hj & _ & Ha & Hr) Ht. by split_and!. Qed.

Lemma consistent_set_assessments t db :
  Inv.consistent db -> Inv.table_ok assessments_schema t ->
  Inv.consistent (set_assessments t db).
Proof. intros (Hj & Hc & _ & Hr) Ht. by split_and!. Qed.

Lemma consistent_set_responses t db :
  Inv.consistent db -> Inv.table_ok responses_schema t ->
  Inv.consistent (set_responses t db).
Proof. intros (Hj & Hc & Ha & _) Ht. by split_and!. Qed.

(** X3 — Every write call of the mock API keeps the promises of the
    schema in src/db.js, whatever it answers: each record sits under its
    own primary key, the key generators stay ahead of the keys in use, and
    no two jobs share a slug and no two candidates an email.  (For the two
    patch calls: a patch that does not rewrite the primary key.)  So
    does the resolver registered for the reorder path, which no call
    reaches. *)
Theorem writes_keep_the_store_consistent
    (fail : bool) (op : WriteOp) (db : DB) :
  Inv.consistent db -> Inv.keeps_key op ->
  Inv.consistent (dispatch fail op db).2
  /\ forall p : ReorderBody, Inv.consistent (reorder_jobs fail p db).2.
Proof.
  intros Hdb Hkey. pose proof Hdb as (Hj & Hc & Ha & Hr). split; cycle 1.
  { intros p. destruct (reorder_ok fail p db Hj) as (t & -> & Hok).
    by apply consistent_set_jobs. }
  destruct op as [j now|id u|p|c now|id u|id a|id s now];
    [| |by rewrite dispatch_reorder| | | |]; cbn [dispatch].
  - unfold post_jobs. destruct fail; [done|].
    match goal with
    | |- context [add jobs_schema ?o (jobs db)] =>
        pose proof (add_ok jobs_schema o (jobs db) Hj) as [Hok _];
        destruct (add jobs_schema o (jobs db)) as [t [e|k]]
    end; [done|]. by apply consistent_set_jobs.
  - unfold patch_job. destruct fail; [done|].
    pose proof (update_ok jobs_schema id u (jobs db) Hj Hkey) as Hok.
    destruct (update jobs_schema id u (jobs db)) as [t [e|k]]; [done|].
    by apply consistent_set_jobs.
  - unfold post_candidates. destruct fail; [done|].
    match goal with
    | |- context [add candidates_schema ?o (candidates db)] =>
        pose proof (add_ok candidates_schema o (candidates db) Hc) as [Hok _];
        destruct (add candidates_schema o (candidates db)) as [t [e|k]]
    end; [done|]. by apply consistent_set_candidates.
  - unfold patch_candidate. destruct fail; [done|].
    pose proof (update_ok candidates_schema id u (candidates db) Hc Hkey)
      as Hok.
    destruct (update candidates_schema id u (candidates db))
      as [t [e|k]]; [done|].
    by apply consistent_set_candidates.
  - unfold put_assessment. destruct fail; [done|].
    match goal with
    | |- context [put assessments_schema ?o (assessments db)] =>
        pose proof (put_ok assessments_schema o (assessments db) Ha) as Hok;
        destruct (put assessments_schema o (assessments db)) as [t [e|k]]
    end; [done|]. by apply consistent_set_assessments.
  - unfold submit_assessment. destruct fail; [done|].
    match goal with
    | |- context [add responses_schema ?o (assessmentResponses db)] =>
        pose proof (add_ok responses_schema o (assessmentResponses db) Hr)
          as [Hok _];
        destruct (add responses_schema o (assessmentResponses db))
          as [t [e|k]]
    end; [done|]. by apply consistent_set_responses.
Qed.

(** The sample store is consistent, and stays so when a job is created. *)
Lemma writes_keep_the_store_consistent_witness :
  Inv.consistent
    (dispatch false
       (CreateJob {[ "title" := VStr "Data Engineer";
                     "slug" := VStr "data-engineer" ]} "2025-10-20")
       Sample.store).2.
Proof.
  apply writes_keep_the_store_consistent.
  - apply (bool_decide_unpack (Inv.consistent _)). vm_compute. exact I.
  - exact I.
Defined.

Lemma kept_refl t : Inv.kept t t.
Proof. by intros ??. Qed.

(** X4 — A call that creates a record (create-job, create-candidate,
    submit-assessment-response) never overwrites: on a consistent store,
    every record stored before the call is stored unchanged after it, under
    the same key, in all four collections. *)
Theorem creation_never_overwrites
    (fail : bool) (op : WriteOp) (db : DB) :
  Inv.consistent db -> Inv.creates op = true ->
  Inv.kept_db db (dispatch fail op db).2.
Proof.
  intros (Hj & Hc & Ha & Hr) Hop.
  assert (Inv.kept_db db db) as Hsame by (split_and!; apply kept_refl).
  destruct op as [j now|id u|p|c now|id u|id a|id s now]; try done;
    cbn [dispatch].
  - unfold post_jobs. destruct fail; [done|].
    match goal with
    | |- context [add jobs_schema ?o (jobs db)] =>
        pose proof (add_ok jobs_schema o (jobs db) Hj) as [_ Hk];
        destruct (add jobs_schema o (jobs db)) as [t [e|k]]
    end; [done|]. split_and!; try apply kept_refl. exact Hk.
  - unfold post_candidates. destruct fail; [done|].
    match goal with
    | |- context [add candidates_schema ?o (candidates db)] =>
        pose proof (add_ok candidates_schema o (candidates db) Hc) as [_ Hk];
        destruct (add candidates_schema o (candidates db)) as [t [e|k]]
    end; [done|]. split_and!; try apply kept_refl. exact Hk.
  - unfold submit_assessment. destruct fail; [done|].
    match goal with
    | |- context [add responses_schema ?o (assessmentResponses db)] =>
        pose proof (add_ok responses_schema o (assessmentResponses db) Hr)
          as [_ Hk];
        destruct (add responses_schema o (assessmentResponses db))
          as [t [e|k]]
    end; [done|]. split_and!; try apply kept_refl. exact Hk.
Qed.

(** Creating a candidate in the sample store keeps job 2 and candidate 1
    as they are. *)
Lemma creation_never_overwrites_witness :
  Inv.kept_db Sample.store
    (dispatch false
       (CreateCandidate {[ "name" := VStr "Chitra Iyer";
                           "email" := VStr "chitra@example.com" ]}
          "2025-10-20")
       Sample.store).2.
Proof.
  apply creation_never_overwrites.
  - apply (bool_decide_unpack (Inv.consistent _)). vm_compute. exact I.
  - reflexivity.
Defined.

(** X5 — A write call changes at most the collection it addresses: the
    job calls leave candidates, assessments and responses as they were,
    the candidate calls leave jobs, assessments and responses as they
    were, and so on, whether the call succeeds or fails.  So does the
    resolver registered for the reorder path, which no call reaches: it
    changes the jobs only. *)
Theorem write_touches_one_collection
    (fail : bool) (op : WriteOp) (db : DB) :
  Inv.untouched op db (dispatch fail op db).2
  /\ forall p : ReorderBody,
       Inv.untouched (BulkReorderJobs p) db (reorder_jobs fail p db).2.
Proof.
  split; cycle 1.
  { intros p. cbn [Inv.untouched]. destruct fail; [done|].
    by destruct p as [|[|[|j l]]]. }
  destruct op as [j now|id u|p|c now|id u|id a|id s now];
    [| |by rewrite dispatch_reorder| | | |];
    cbn [dispatch Inv.untouched].
  - unfold post_jobs. destruct fail; [done|].
    by destruct (add _ _ _) as [t [e|k]].
  - unfold patch_job. destruct fail; [done|].
    by destruct (update _ _ _ _) as [t [e|k]].
  - unfold post_candidates. destruct fail; [done|].
    by destruct (add _ _ _) as [t [e|k]].
  - unfold patch_candidate. destruct fail; [done|].
    by destruct (update _ _ _ _) as [t [e|k]].
  - unfold put_assessment. destruct fail; [done|].
    by destruct (put _ _ _) as [t [e|k]].
  - unfold submit_assessment. destruct fail; [done|].
    by destruct (add _ _ _) as [t [e|k]].
Qed.

End WriteInvariants.

Section Creation.
Import Dexie Handlers.

(** What [add] stores under the key it resolves with, and what the
    resolvers answer as [{...record, id}], are the same object. *)
Lemma add_created sch o t t' k :
  add sch o t = (t', inr k) ->
  rows t' !! k = Some (<[primKey sch := VNum k]> o).
Proof.
  unfold add. destruct (o !! primKey sch) as [[k0| | | | |]|] eqn:Hk;
    try discriminate.
  - destruct (_ || _); [discriminate|]. intros [= <- <-]. cbn [rows].
    by rewrite lookup_insert_eq, insert_id.
  - destruct (autoInc sch); [|discriminate].
    destruct (violates_unique _ _ _ _); [discriminate|].
    intros [= <- <-]. cbn [rows]. by rewrite lookup_insert_eq.
Qed.

(** X6 — A job that create-job stores is stamped by the server: its
    status is "active", its createdAt is the time of the call and its
    order is the one computed from the stored jobs, whatever the request
    body says about these; every other property is the body's.  The
    response body is the stored record. *)
Theorem created_job_is_stamped
    (newJob : obj) (now : string) (db db' : DB) (res : Response) :
  post_jobs false newJob now db = (res, db') ->
  status res = 201%Z ->
  exists (id : Z) (stored : obj),
    body res = JsonObj stored
    /\ rows (jobs db') !! id = Some stored
    /\ stored !! "id" = Some (VNum id)
    /\ stored !! "status" = Some (VStr "active")
    /\ stored !! "createdAt" = Some (VStr now)
    /\ stored !! "order" = Some (next_order (last_by "order" (jobs db)))
    /\ (forall f, f ∉ ["id"; "status"; "createdAt"; "order"] ->
          stored !! f = newJob !! f).
Proof.
  unfold post_jobs. intros Hrun Hst.
  destruct (add jobs_schema _ (jobs db)) as [t [e|id]] eqn:Hadd;
    injection Hrun as <- <-; [discriminate|].
  apply add_created in Hadd. cbn [primKey jobs_schema] in Hadd.
  eexists id, _. split; [reflexivity|]. split; [exact Hadd|].
  split; [apply lookup_insert_eq|].
  split; [by rewrite !lookup_insert_ne, lookup_insert_eq by done|].
  split; [by rewrite !lookup_insert_ne, lookup_insert_eq by done|].
  split; [by rewrite !lookup_insert_ne, lookup_insert_eq by done|].
  intros f Hf. rewrite !not_elem_of_cons in Hf.
  destruct Hf as (? & ? & ? & ? & _). by rewrite !lookup_insert_ne.
Qed.

(** A body that asks for an archived job at order 40 still gets an active
    job at the next order. *)
Lemma created_job_is_stamped_witness :
  exists (id : Z) (stored : obj),
    rows (jobs (post_jobs false
                  {[ "title" := VStr "Data Engineer";
                     "slug" := VStr "data-engineer";
                     "status" := VStr "archived";
                     "order" := VNum 40 ]} "2025-10-20" Sample.store).2)
      !! id = Some stored
    /\ stored !! "status" = Some (VStr "active")
    /\ stored !! "order" = Some (VNum 2).
Proof.
  pose (b := ({[ "title" := VStr "Data Engineer";
                 "slug" := VStr "data-engineer";
                 "status" := VStr "archived";
                 "order" := VNum 40 ]} : obj)).
  destruct (created_job_is_stamped b "2025-10-20" Sample.store
              (post_jobs false b "2025-10-20" Sample.store).2
              (post_jobs false b "2025-10-20" Sample.store).1)
    as (id & stored & _ & Hrow & _ & Hs & _ & Ho & _).
  - apply surjective_pairing.
  - vm_compute. reflexivity.
  - exists id, stored. split; [exact Hrow|]. split; [exact Hs|].
    rewrite Ho. vm_compute. reflexivity.
Defined.

(** X7 — A candidate that create-candidate stores starts in the stage
    "applied" with the createdAt of the call and an avatar URL seeded with
    the body's name, whatever the request body says about these; every
    other property is the body's.  The response body is the stored
    record. *)
Theorem created_candidate_starts_applied
    (newCandidate : obj) (now : string) (db db' : DB) (res : Response) :
  post_candidates false newCandidate now db = (res, db') ->
  status res = 201%Z ->
  exists (id : Z) (stored : obj),
    body res = JsonObj stored
    /\ rows (candidates db') !! id = Some stored
    /\ stored !! "id" = Some (VNum id)
    /\ stored !! "stage" = Some (VStr "applied")
    /\ stored !! "createdAt" = Some (VStr now)
    /\ stored !! "avatarUrl"
       = Some (VStr ("https://api.dicebear.com/8.x/avataaars/svg?seed="
                     ++ template (newCandidate !! "name")))
    /\ (forall f, f ∉ ["id"; "stage"; "createdAt"; "avatarUrl"] ->
          stored !! f = newCandidate !! f).
Proof.
  unfold post_candidates. intros Hrun Hst.
  destruct (add candidates_schema _ (candidates db)) as [t [e|id]] eqn:Hadd;
    injection Hrun as <- <-; [discriminate|].
  apply add_created in Hadd. cbn [primKey candidates_schema] in Hadd.
  eexists id, _. split; [reflexivity|]. split; [exact Hadd|].
  split; [apply lookup_insert_eq|].
  split; [by rewrite !lookup_insert_ne, lookup_insert_eq by done|].
  split; [by rewrite !lookup_insert_ne, lookup_insert_eq by done|].
  split; [by rewrite !lookup_insert_ne, lookup_insert_eq by done|].
  intros f Hf. rewrite !not_elem_of_cons in Hf.
  destruct Hf as (? & ? & ? & ? & _). by rewrite !lookup_insert_ne.
Qed.

(** A body that asks for the stage "hired" is stored as "applied". *)
Lemma created_candidate_starts_applied_witness :
  exists (id : Z) (stored : obj),
    rows (candidates (post_candidates false
                        {[ "name" := VStr "Chitra Iyer";
                           "email" := VStr "chitra@example.com";
                           "stage" := VStr "hired" ]}
                        "2025-10-20" Sample.store).2) !! id = Some stored
    /\ stored !! "stage" = Some (VStr "applied").
Proof.
  pose (b := ({[ "name" := VStr "Chitra Iyer";
                 "email" := VStr "chitra@example.com";
                 "stage" := VStr "hired" ]} : obj)).
  destruct (created_candidate_starts_applied b "2025-10-20" Sample.store
              (post_candidates false b "2025-10-20" Sample.store).2
              (post_candidates false b "2025-10-20" Sample.store).1)
    as (id & stored & _ & Hrow & _ & Hs & _).
  - apply surjective_pairing.
  - vm_compute. reflexivity.
  - exists id, stored. split; [exact Hrow|exact Hs].
Defined.

End Creation.

Section CreationEdges.
Import Dexie Handlers.

(** [add] rejects a record whose key in a unique index is taken. *)
Lemma add_taken sch o t f k r :
  f ∈ uniques sch -> f <> primKey sch -> autoInc sch = true ->
  Inv.ahead t ->
  rows t !! k = Some r -> is_key (o !! f) = true -> r !! f = o !! f ->
  exists e, add sch o t = (t, inl e).
Proof.
  intros Hf Hfk Hauto Hah Hr Hkey Heq. unfold add. rewrite Hauto.
  destruct (o !! primKey sch) as [[k0| | | | |]|] eqn:Hk;
    try (by eexists).
  - destruct (rows t !! k0) as [r0|] eqn:Hr0.
    + rewrite bool_decide_eq_true_2 by (by eexists). by eexists.
    + rewrite (violates_unique_true sch k0 o (rows t) f k r);
        try done; [rewrite orb_true_r; by eexists|congruence].
  - pose proof (Hah k r Hr) as Hlt. cbn in Hlt.
    rewrite (violates_unique_true sch (keyGen t) _ (rows t) f k r);
      try done; [by eexists| |lia|].
    + by rewrite lookup_insert_ne.
    + by rewrite lookup_insert_ne.
Qed.

(** X8 — Unique indexes turn into unhandled failures: create-job with the
    slug of a stored job, and create-candidate with the email of a stored
    candidate, are answered by the 500 of an escaped exception (not by a
    validation message) and store nothing. *)
Theorem taken_slug_or_email_is_rejected
    (body : obj) (now : string) (db : DB) (k : Z) (r : obj) (s : string) :
  (Inv.ahead (jobs db) ->
   rows (jobs db) !! k = Some r ->
   r !! "slug" = Some (VStr s) -> body !! "slug" = Some (VStr s) ->
   post_jobs false body now db = (unhandled, db))
  /\ (Inv.ahead (candidates db) ->
      rows (candidates db) !! k = Some r ->
      r !! "email" = Some (VStr s) -> body !! "email" = Some (VStr s) ->
      post_candidates false body now db = (unhandled, db)).
Proof.
  split; intros Hah Hr Hrs Hbs.
  - unfold post_jobs.
    match goal with
    | |- context [add jobs_schema ?o (jobs db)] =>
        destruct (add_taken jobs_schema o (jobs db) "slug" k r) as [e ->]
    end; try done.
    + by apply list_elem_of_singleton.
    + by rewrite !lookup_insert_ne, Hbs by done.
    + by rewrite !lookup_insert_ne, Hbs by done.
  - unfold post_candidates.
    match goal with
    | |- context [add candidates_schema ?o (candidates db)] =>
        destruct (add_taken candidates_schema o (candidates db) "email" k r)
          as [e ->]
    end; try done.
    + by apply list_elem_of_singleton.
    + by rewrite !lookup_insert_ne, Hbs by done.
    + by rewrite !lookup_insert_ne, Hbs by done.
Qed.

(** A second "Backend Engineer" and a second asha@example.com. *)
Lemma taken_slug_or_email_is_rejected_witness :
  post_jobs false {[ "title" := VStr "Backend Engineer II";
                     "slug" := VStr "backend-engineer" ]}
    "2025-10-20" Sample.store = (unhandled, Sample.store)
  /\ post_candidates false {[ "name" := VStr "Asha R.";
                              "email" := VStr "asha@example.com" ]}
       "2025-10-20" Sample.store = (unhandled, Sample.store).
Proof.
  split.
  - apply (taken_slug_or_email_is_rejected
             {[ "title" := VStr "Backend Engineer II";
                "slug" := VStr "backend-engineer" ]}
             "2025-10-20" Sample.store 1 Sample.job1 "backend-engineer");
      try (vm_compute; reflexivity).
    apply (bool_decide_unpack (Inv.ahead _)). vm_compute. exact I.
  - apply (taken_slug_or_email_is_rejected
             {[ "name" := VStr "Asha R.";
                "email" := VStr "asha@example.com" ]}
             "2025-10-20" Sample.store 1 Sample.asha "asha@example.com");
      try (vm_compute; reflexivity).
    apply (bool_decide_unpack (Inv.ahead _)). vm_compute. exact I.
Defined.

End CreationEdges.

Section NextOrder.
Import Dexie Handlers.



(** Above 2^53 it is not: the successor of 2^53 is no double, and the sum
    rounds back to 2^53. *)
Lemma next_order_rounds :
  next_order (Some {[ "order" := VNum (2 ^ 53) ]}) = VNum (2 ^ 53).
Proof. vm_compute. reflexivity. Qed.





End NextOrder.

Section Patches.
Import Dexie Handlers.

Lemma patch_in_place sch k updates t r t' n :
  Spec.inbound (primKey sch) t -> updates !! primKey sch = None ->
  rows t !! k = Some r ->
  update sch (KInt k) updates t = (t', inr n) ->
  t' = {| rows := <[k := updates ∪ r]> (rows t); keyGen := keyGen t |}.
Proof.
  intros Hin Hu Hr. rewrite (update_in_place sch k updates t r Hin Hu Hr).
  destruct (violates_unique _ _ _ _); [discriminate|]. by intros [= <- _].
Qed.



End Patches.

Section StageMove.
Import Dexie Handlers.

Lemma items_of_get_candidates stage page pageSize db :
  Spec.items_of (get_candidates "" stage page pageSize db)
  = Spec.window page pageSize
      (Spec.selected "stage" stage "name" "email" "" (toArray (candidates db))).
Proof. by rewrite get_candidates_page. Qed.

Lemma ci_prefix_empty s : Spec.ci_prefix "" s.
Proof. by exists (toLowerCase s). Qed.

(** X11 — After a patch-candidate call that sets the stage of a stored
    candidate and succeeds, list-candidates shows the candidate under the
    new stage, on some page, with the new stage written into the record,
    and under no other stage: no listing filtered on another stage
    contains a record with this id. *)
Theorem stage_patch_moves_the_listing
    (k : Z) (c : obj) (s' : string) (pageSize : Z)
    (db db' : DB) (res : Response) :
  Spec.inbound "id" (candidates db) ->
  rows (candidates db) !! k = Some c ->
  s' <> "all" -> s' <> "" -> (1 <= pageSize)%Z ->
  patch_candidate false (KInt k) {[ "stage" := VStr s' ]} db = (res, db') ->
  ok res = true ->
  (exists page, (1 <= page)%Z
     /\ <["stage" := VStr s']> c
        ∈ Spec.items_of (get_candidates "" s' page pageSize db'))
  /\ (forall stage page x,
        stage <> s' -> stage <> "all" -> stage <> "" ->
        x ∈ Spec.items_of (get_candidates "" stage page pageSize db') ->
        x !! "id" <> Some (VNum k)).
Proof.
  intros Hin Hc Hall Hemp Hps Hrun Hok.
  unfold patch_candidate in Hrun.
  destruct (update candidates_schema (KInt k) _ (candidates db))
    as [t [e|n]] eqn:Hup; injection Hrun as <- <-; [discriminate|].
  apply (patch_in_place candidates_schema k _ (candidates db) c) in Hup;
    try done.
  rewrite <- insert_union_singleton_l in Hup. subst t.
  set (c' := <["stage" := VStr s']> c).
  set (t' := {| rows := <[k := c']> (rows (candidates db));
                keyGen := keyGen (candidates db) |}).
  split.
  - assert (c' ∈ Spec.selected "stage" s' "name" "email" ""
                   (toArray (candidates (set_candidates t' db)))) as Hsel.
    { apply elem_of_selected. split; [|split].
      - apply elem_of_toArray. exists k. apply lookup_insert_eq.
      - right; right. apply lookup_insert_eq.
      - left. apply ci_prefix_empty. }
    destruct (elem_of_some_window _ _ pageSize Hps Hsel) as (page & Hp & Hw).
    exists page. split; [done|]. by rewrite items_of_get_candidates.
  - intros stage page x Hne Hna Hnemp Hx Hid.
    rewrite items_of_get_candidates in Hx.
    apply elem_of_window_sub, elem_of_selected in Hx
      as (Hstored & Hkeeps & _).
    destruct Hkeeps as [?|[?|Hstage]]; [done|done|].
    apply elem_of_toArray in Hstored as [k0 Hk0].
    cbn [candidates set_candidates rows t'] in Hk0.
    apply lookup_insert_Some in Hk0 as [[<- <-]|[Hk0 Hx0]].
    + unfold c' in Hstage. rewrite lookup_insert_eq in Hstage. congruence.
    + pose proof (Hin k0 x Hx0) as Hid0. cbn in Hid0. congruence.
Qed.

(** Candidate 1 moved from "applied" to "tech": page 1 of the "tech"
    listing has her, the "applied" listing does not. *)
Lemma stage_patch_moves_the_listing_witness :
  (exists page, (1 <= page)%Z
     /\ <["stage" := VStr "tech"]> Sample.asha
        ∈ Spec.items_of
            (get_candidates "" "tech" page 1000
               (patch_candidate false (KInt 1)
                  {[ "stage" := VStr "tech" ]} Sample.store).2))
  /\ forall x,
       x ∈ Spec.items_of
             (get_candidates "" "applied" 1 1000
                (patch_candidate false (KInt 1)
                   {[ "stage" := VStr "tech" ]} Sample.store).2) ->
       x !! "id" <> Some (VNum 1).
Proof.
  destruct (stage_patch_moves_the_listing 1 Sample.asha "tech"
              1000 Sample.store
              (patch_candidate false (KInt 1)
                 {[ "stage" := VStr "tech" ]} Sample.store).2
              (patch_candidate false (KInt 1)
                 {[ "stage" := VStr "tech" ]} Sample.store).1)
    as [Hnew Hold].
  - apply (bool_decide_unpack (Spec.inbound _ _)). vm_compute. exact I.
  - vm_compute. reflexivity.
  - discriminate.
  - discriminate.
  - lia.
  - apply surjective_pairing.
  - vm_compute. reflexivity.
  - split; [exact Hnew|]. intros x. apply Hold; discriminate.
Defined.

End StageMove.

Section AssessmentFacts.
Import Dexie Handlers Assessments.

(** X12 — Saving an assessment and loading it again: put-assessment for
    job [n] always answers 200 with the body it was sent, the document
    stored for [n] is then that body with [jobId] set to [n] (nothing of a
    document stored before survives), get-assessment for [n] answers it,
    and the answer for every other job is what it was before. *)
Theorem saved_assessment_is_read_back
    (bk : BadKey) (n : Z) (assessmentData : obj) (db : DB) :
  let db' := (put_assessment false (KInt n) assessmentData db).2 in
  (put_assessment false (KInt n) assessmentData db).1
  = {| status := 200; body := JsonObj assessmentData |}
  /\ get_assessment bk (KInt n) db'
     = Stored (<["jobId" := VNum n]> assessmentData)
  /\ (forall m, m <> n ->
        get_assessment bk (KInt m) db' = get_assessment bk (KInt m) db).
Proof.
  unfold put_assessment, put.
  cbn [primKey assessments_schema autoInc uniques num_of violates_unique
       existsb andb].
  rewrite lookup_insert_eq. cbn [fst snd]. split; [done|]. split.
  - unfold get_assessment, lookup, get.
    cbn [assessments set_assessments rows]. by rewrite lookup_insert_eq.
  - intros m Hm. unfold get_assessment, lookup, get.
    cbn [assessments set_assessments rows]. by rewrite lookup_insert_ne.
Qed.

(** An assessment saved for job 2 is read back for job 2; job 3 still
    gets what it got. *)
Lemma saved_assessment_is_read_back_witness :
  get_assessment BadKeyRejects (KInt 2)
    (put_assessment false (KInt 2) {[ "title" := VStr "React Fundamentals" ]}
       Sample.store).2
  = Stored {[ "title" := VStr "React Fundamentals"; "jobId" := VNum 2 ]}
  /\ get_assessment BadKeyRejects (KInt 3)
       (put_assessment false (KInt 2)
          {[ "title" := VStr "React Fundamentals" ]} Sample.store).2
     = get_assessment BadKeyRejects (KInt 3) Sample.store.
Proof.
  pose proof (saved_assessment_is_read_back BadKeyRejects 2
                {[ "title" := VStr "React Fundamentals" ]} Sample.store) as H.
  cbv zeta in H. destruct H as (_ & Hget & Hother). split.
  - rewrite Hget. vm_compute. reflexivity.
  - apply Hother. lia.
Defined.

(** X13 — Assessments and job ids.  Saving under a job id that does not
    parse as a number is answered by the 500 of an escaped exception and
    stores nothing.  Loading never fails for a job id that parses: with
    nothing stored for the job it answers the default document for that
    job, titled "New Assessment"; for a job id that does not parse it
    answers the default document with a null job id, or the 500 of an
    escaped exception when the library rejects the key. *)
Theorem assessment_without_job_id
    (bk : BadKey) (assessmentData : obj) (db : DB) (n : Z) :
  put_assessment false KInvalid assessmentData db = (unhandled, db)
  /\ get_assessment bk KInvalid db
     = (if resolves bk then Fresh VNull "New Assessment" default_sections
        else Threw)
  /\ get_assessment bk (KInt n) db <> Threw
  /\ (rows (assessments db) !! n = None ->
      get_assessment bk (KInt n) db
      = Fresh (VNum n) "New Assessment" default_sections).
Proof.
  split; [|split; [|split]].
  - unfold put_assessment, put. cbn [primKey assessments_schema num_of].
    by rewrite lookup_insert_eq.
  - unfold get_assessment, lookup. by destruct bk.
  - unfold get_assessment, lookup, get.
    by destruct (rows (assessments db) !! n).
  - intros Hn. unfold get_assessment, lookup, get. by rewrite Hn.
Qed.

(** No assessment is stored for job 5 in the sample store. *)
Lemma assessment_without_job_id_witness :
  get_assessment BadKeyRejects (KInt 5) Sample.store
  = Fresh (VNum 5) "New Assessment" default_sections.
Proof.
  destruct (assessment_without_job_id BadKeyRejects ∅ Sample.store 5)
    as (_ & _ & _ & H).
  apply H. vm_compute. reflexivity.
Defined.

End AssessmentFacts.

Section Loader.
Import Dexie Handlers CandidatesPage CandidateViews.

(** The objects of a parsed response get references of their own: the
    new references are fresh and pairwise different, they point to the
    items, and no object that was in the heap is written. *)
Lemma alloc_spec (items : list obj) :
  forall (h h' : gmap ref obj) (rs : list ref),
    alloc items h = (h', rs) ->
    deref h' <$> rs = items
    /\ NoDup rs
    /\ (forall r, r ∈ rs -> h !! r = None /\ is_Some (h' !! r))
    /\ (forall r, is_Some (h !! r) -> h' !! r = h !! r).
Proof.
  induction items as [|o items IH]; intros h h' rs Hrun.
  - injection Hrun as <- <-. split; [done|]. split; [constructor|].
    split; [|done]. intros r Hr. by apply not_elem_of_nil in Hr.
  - cbn [alloc] in Hrun. set (r0 := fresh (dom h)) in *.
    assert (h !! r0 = None) as Hfresh by apply not_elem_of_dom, is_fresh.
    destruct (alloc items (<[r0 := o]> h)) as [h1 rs1] eqn:Hrec.
    injection Hrun as <- <-.
    destruct (IH _ _ _ Hrec) as (Hmap & Hnd & Hnew & Hold).
    assert (h1 !! r0 = Some o) as Hr0.
    { rewrite Hold; rewrite lookup_insert_eq; [done|by eexists]. }
    split; [|split; [|split]].
    + cbn [fmap list_fmap]. f_equal; [by apply deref_Some|exact Hmap].
    + apply NoDup_cons. split; [|done]. intros Hin.
      destruct (Hnew r0 Hin) as [Hnone _].
      by rewrite lookup_insert_eq in Hnone.
    + intros r [->|Hr]%elem_of_cons; [split; [done|by eexists]|].
      destruct (Hnew r Hr) as [Hnone Hsome]. split; [|done].
      destruct (decide (r = r0)) as [->|Hne]; [done|].
      by rewrite lookup_insert_ne in Hnone.
    + intros r Hr. rewrite Hold.
      * rewrite lookup_insert_ne; [done|]. intros <-.
        rewrite Hfresh in Hr. by destruct Hr.
      * destruct (decide (r = r0)) as [->|Hne];
          [rewrite lookup_insert_eq; by eexists|].
        by rewrite lookup_insert_ne.
Qed.

Lemma ok_200 b : ok {| status := 200; body := b |} = true.
Proof. reflexivity. Qed.

Lemma selected_everything field f1 f2 (l : list obj) :
  Spec.selected field "" f1 f2 "" l = l.
Proof.
  unfold Spec.selected, Spec.equality_filter.
  rewrite bool_decide_eq_true_2 by (by right).
  apply forallb_filter_id, forallb_forall. intros; apply prefix_match_empty.
Qed.

(** What a load of the Kanban page comes to: it shows the first 1000
    stored candidates in key order, writes nothing and raises no toast. *)
Lemma fetchAllCandidates_loads (w : World) :
  render (view (fetchAllCandidates w))
  = take 1000 (toArray (Handlers.candidates (db w)))
  /\ db (fetchAllCandidates w) = db w
  /\ calls (fetchAllCandidates w) = calls w
  /\ toasts (fetchAllCandidates w) = toasts w.
Proof.
  unfold fetchAllCandidates.
  rewrite get_candidates_page by done. rewrite ok_200. cbn [body].
  rewrite selected_everything.
  change (Spec.window 1 1000 ?l) with (take 1000 l).
  set (items := take 1000 (toArray (Handlers.candidates (db w)))).
  destruct (alloc items (heap (view w))) as [h rs] eqn:Hal.
  destruct (alloc_spec items _ _ _ Hal) as (Hmap & _).
  cbn [view db calls toasts]. by split.
Qed.

(** Stored records have pairwise different ids. *)
Lemma stored_ids_NoDup field (t : Table) :
  Spec.inbound field t -> NoDup ((.!! field) <$> toArray t).
Proof.
  intros Hin. apply NoDup_fmap_2_strong; [|by eapply toArray_NoDup].
  intros o1 o2 [k1 H1]%elem_of_toArray [k2 H2]%elem_of_toArray Heq.
  rewrite (Hin k1 o1 H1), (Hin k2 o2 H2) in Heq. congruence.
Qed.

(** X14 — What the Kanban page shows once [fetchAllCandidates] has run:
    the first 1000 stored candidates in key order, as new objects; the
    board is then well formed (every card points to an object, no two
    cards share an id), which is what the drop handler relies on.  The
    load itself writes nothing. *)
Theorem loaded_board_is_well_formed (w : World) :
  Spec.inbound "id" (Handlers.candidates (db w)) ->
  render (view (fetchAllCandidates w))
  = take 1000 (toArray (Handlers.candidates (db w)))
  /\ Spec.board_ok (view (fetchAllCandidates w))
  /\ db (fetchAllCandidates w) = db w
  /\ calls (fetchAllCandidates w) = calls w.
Proof.
  intros Hin. unfold fetchAllCandidates.
  rewrite get_candidates_page by done. rewrite ok_200. cbn [body].
  rewrite selected_everything.
  change (Spec.window 1 1000 ?l) with (take 1000 l).
  set (items := take 1000 (toArray (Handlers.candidates (db w)))).
  destruct (alloc items (heap (view w))) as [h rs] eqn:Hal.
  destruct (alloc_spec items _ _ _ Hal) as (Hmap & Hnd & Hnew & _).
  cbn [view db calls]. split; [exact Hmap|]. split; [|done].
  split; cbn [heap CandidatesPage.candidates].
  - intros r Hr. by apply Hnew.
  - intros r1 r2 [i Hi]%list_elem_of_lookup [j Hj]%list_elem_of_lookup Hid.
    assert (NoDup ((.!! "id") <$> items)) as Hids.
    { eapply sublist_NoDup; [by apply stored_ids_NoDup|].
      apply fmap_sublist, sublist_take. }
    assert (i = j) as ->; [|congruence].
    apply (NoDup_lookup _ i j (deref h r1 !! "id") Hids);
      rewrite <- Hmap, list_lookup_fmap, list_lookup_fmap.
    + by rewrite Hi.
    + by rewrite Hj, Hid.
Qed.

(** The sample page after its first load shows the two stored
    candidates. *)
Lemma loaded_board_is_well_formed_witness :
  render (view (fetchAllCandidates Sample2.blank)) = [Sample.asha; Sample.bela].
Proof.
  destruct (loaded_board_is_well_formed Sample2.blank) as [H _].
  - apply (bool_decide_unpack (Spec.inbound _ _)). vm_compute. exact I.
  - rewrite H. vm_compute. reflexivity.
Defined.

End Loader.

Section KanbanMore.
Import Dexie Handlers CandidatesPage.

Lemma findIndex_true {A} (p : A -> bool) (l : list A) (x : A) :
  (0 <= findIndex p l)%Z -> l !! Z.to_nat (findIndex p l) = Some x ->
  p x = true.
Proof.
  induction l as [|y l IH]; [done|]. cbn [findIndex].
  destruct (p y) eqn:Hy; [by intros _ [= <-]|].
  destruct (findIndex p l <? 0)%Z eqn:E; [lia|]. intros _.
  rewrite Z2Nat.inj_add by lia. rewrite Nat.add_comm. cbn [Z.to_nat].
  change (Pos.to_nat 1) with 1%nat. cbn [Nat.add lookup list_lookup].
  apply IH. lia.
Qed.

Lemma set_prop_other name v (o : obj) f :
  f <> name -> set_prop name v o !! f = o !! f.
Proof.
  intros Hf. unfold set_prop.
  destruct v; [by rewrite lookup_insert_ne|by rewrite lookup_delete_ne].
Qed.

(** X15 — The preview writes one property of one object: after
    [handleDragOver] the array of cards and the active card are the same,
    every property other than [stage] of every object is as it was, and
    the objects of the cards with another id than the dragged one, and the
    objects that are not on the board, are untouched. *)
Theorem preview_writes_one_stage (ev : DragEvent) (st : State) :
  candidates (handleDragOver ev st) = candidates st
  /\ activeCandidate (handleDragOver ev st) = activeCandidate st
  /\ (forall r f, f <> "stage" ->
        deref (heap (handleDragOver ev st)) r !! f = deref (heap st) r !! f)
  /\ (forall r, has_id (heap st) (active ev) r = false ->
        heap (handleDragOver ev st) !! r = heap st !! r)
  /\ (forall r, r ∉ candidates st ->
        heap (handleDragOver ev st) !! r = heap st !! r).
Proof.
  unfold handleDragOver.
  destruct (over ev) as [overId|]; [|done].
  destruct (_ || _); [done|].
  destruct (findIndex _ _ <? 0)%Z eqn:E; [done|].
  destruct (candidates st !! _) as [r0|] eqn:Hr0; [|done].
  assert (has_id (heap st) (active ev) r0 = true) as Hid
    by (eapply findIndex_true; [|exact Hr0]; lia).
  cbn [heap candidates activeCandidate]. split; [done|]. split; [done|].
  split; [|split].
  - intros r f Hf. destruct (decide (r = r0)) as [->|Hne].
    + rewrite (deref_Some _ r0 _ (lookup_insert_eq _ _ _)).
      by apply set_prop_other.
    + unfold deref. by rewrite lookup_insert_ne.
  - intros r Hr. rewrite lookup_insert_ne; [done|]. intros <-. congruence.
  - intros r Hr. rewrite lookup_insert_ne; [done|]. intros <-.
    apply Hr. by eapply list_elem_of_lookup_2.
Qed.

(** Candidate 1 previewed over "tech": her name stays, and the object of
    candidate 2 is the one it was. *)
Lemma preview_writes_one_stage_witness :
  deref (heap (handleDragOver (Sample.onto 1 "tech") Sample.board)) 0%nat
    !! "name" = Some (VStr "Asha Rao")
  /\ heap (handleDragOver (Sample.onto 1 "tech") Sample.board) !! 1%nat
     = Some Sample.bela.
Proof.
  destruct (preview_writes_one_stage (Sample.onto 1 "tech") Sample.board)
    as (_ & _ & Hprops & Hothers & _).
  split.
  - rewrite Hprops by discriminate. vm_compute. reflexivity.
  - rewrite Hothers by (vm_compute; reflexivity). vm_compute. reflexivity.
Defined.

End KanbanMore.

Section KanbanRuns.
Import Dexie Handlers CandidatesPage.

(** The handler of the drop either makes no call and raises no toast, or
    makes one call and raises one toast. *)
Lemma handleDragEnd_calls (fail : bool) (ev : DragEvent) (w : World) :
  (calls (handleDragEnd fail ev w) = calls w
   /\ toasts (handleDragEnd fail ev w) = toasts w)
  \/ (exists op type,
        calls (handleDragEnd fail ev w) = calls w ++ [op]
        /\ toasts (handleDragEnd fail ev w) = toasts w ++ [type]).
Proof.
  unfold handleDragEnd.
  destruct (over ev) as [overId|]; [|by left].
  destruct (_ && _); [by left|].
  destruct (find_candidate _ _) as [r|]; [|by left].
  destruct (strict_eq _ _); [by left|].
  destruct (dispatch _ _ _) as [res db'].
  right. destruct (ok res && _).
  - by eexists _, "success".
  - destruct (revert_stage _ _ _ _) as [h l]. by eexists _, "error".
Qed.

(** X1 — A drop on a board whose cards have distinct ids, as the user
    ends up seeing it.  When the handler makes no call, it raises no toast
    and the board renders what it rendered.  When it makes a call, it
    raises one toast, whether the call succeeds or fails, and the load
    that the toast sets off replaces what the handler left on the board by
    the store as it is after the call: the first 1000 stored candidates in
    key order. *)
Theorem drop_settles_on_the_store
    (fail : bool) (ev : DragEvent) (w : World) :
  Spec.board_ok (view w) ->
  let w' := handleDragEnd fail ev w in
  (calls w' = calls w /\ toasts w' = toasts w
   /\ CandidateViews.drop fail ev w = w'
   /\ render (view (CandidateViews.drop fail ev w)) = render (view w))
  \/ (exists op type,
        calls w' = calls w ++ [op] /\ toasts w' = toasts w ++ [type]
        /\ CandidateViews.drop fail ev w
           = CandidateViews.fetchAllCandidates w'
        /\ render (view (CandidateViews.drop fail ev w))
           = take 1000 (toArray (Handlers.candidates (db w')))
        /\ db (CandidateViews.drop fail ev w) = db w'
        /\ calls (CandidateViews.drop fail ev w) = calls w').
Proof.
  intros Hwf w'. unfold CandidateViews.drop, CandidateViews.settle.
  fold w'.
  destruct (handleDragEnd_calls fail ev w) as [[Hc Ht]|(op & type & Hc & Ht)];
    fold w' in Hc, Ht.
  - left. rewrite bool_decide_true by done.
    split_and!; try done. by apply drop_leaves_render.
  - right. exists op, type.
    rewrite bool_decide_false by (rewrite Ht; apply snoc_ne).
    destruct (fetchAllCandidates_loads w') as (Hr & Hd & Hcs & _).
    by split_and!.
Qed.

(** Candidate 1, stored in "applied", is previewed over "tech" and
    dropped on "offer" while the call fails: the handler puts her back in
    "tech", and the load that follows the error toast shows her in
    "applied" again. *)
Lemma drop_settles_on_the_store_witness :
  let previewed :=
    run Sample.kanban [DragStart (VNum 1); DragOver (Sample.onto 1 "tech")] in
  stage_of (view (handleDragEnd true (Sample.onto 1 "offer") previewed))
    (VNum 1) = Some (VStr "tech")
  /\ render (view (CandidateViews.drop true (Sample.onto 1 "offer")
                     previewed))
     = [Sample.asha; Sample.bela].
Proof.
  cbv zeta.
  set (previewed := run Sample.kanban
                      [DragStart (VNum 1); DragOver (Sample.onto 1 "tech")]).
  split; [vm_compute; reflexivity|].
  destruct (drop_settles_on_the_store true (Sample.onto 1 "offer") previewed)
    as [(Hc & _)|(op & type & _ & _ & _ & Hr & _)].
  - apply (bool_decide_unpack (Spec.board_ok _)). vm_compute. exact I.
  - vm_compute in Hc. discriminate Hc.
  - rewrite Hr. vm_compute. reflexivity.
Defined.

(** Candidate 1 previewed over "tech" and dropped there: no call, and the
    board shows her in "tech". *)
Lemma preview_then_drop_never_dispatches_witness :
  calls (run Sample.kanban
           [DragOver (Sample.onto 1 "tech");
            DragEnd false (Sample.onto 1 "tech")]) = []
  /\ stage_of (view (run Sample.kanban
                       [DragOver (Sample.onto 1 "tech");
                        DragEnd false (Sample.onto 1 "tech")])) (VNum 1)
     = Some (VStr "tech").
Proof.
  destruct (preview_then_drop_never_dispatches false
              Sample.kanban (VNum 1) "tech" 0%nat Sample.asha)
    as (Hcalls & _ & Hstage); try (vm_compute; reflexivity).
  split; [exact Hcalls|exact Hstage].
Defined.

End KanbanRuns.

Section ClientSearch.
Import Dexie Handlers CandidateViews.

Lemma includes_unfold (s p : string) :
  includes s p
  = startsWith s p
    || match s with EmptyString => false | String _ s' => includes s' p end.
Proof. by destruct s. Qed.

Lemma includes_spec (s p : string) :
  includes s p = true
  <-> exists before rest : string, s = (before ++ p ++ rest)%string.
Proof.
  split.
  - induction s as [|c s IH]; rewrite includes_unfold, orb_true_iff.
    + intros [[rest ->]%startsWith_spec|]; [|done]. by exists "", rest.
    + intros [[rest ->]%startsWith_spec|Hin]; [by exists "", rest|].
      destruct (IH Hin) as (before & rest & ->).
      by exists (String c before), rest.
  - intros (before & rest & ->).
    induction before as [|c before IH].
    + rewrite includes_unfold. apply orb_true_iff. left.
      apply startsWith_spec. by exists rest.
    + change (includes (String c (before ++ p ++ rest)) p = true).
      rewrite includes_unfold, IH. apply orb_true_r.
Qed.

Lemma startsWith_includes (s p : string) :
  startsWith s p = true -> includes s p = true.
Proof. intros H. rewrite includes_unfold, H. reflexivity. Qed.

Lemma matches_text search (c : obj) :
  Spec.has_text "name" "email" c = true ->
  matches (toLowerCase search) c = Some (infix_match search c).
Proof.
  unfold Spec.has_text, matches, prop_includes, infix_match, Spec.text.
  destruct (c !! "name") as [[| n | | | |]|]; try done.
  by destruct (c !! "email") as [[| e | | | |]|].
Qed.

Lemma matches_no_text lowerSearch (c : obj) :
  Spec.has_text "name" "email" c = false -> matches lowerSearch c = None.
Proof.
  unfold Spec.has_text, matches, prop_includes.
  destruct (c !! "name") as [[| n | | | |]|]; try done.
  by destruct (c !! "email") as [[| e | | | |]|].
Qed.

Lemma filter_throwing_None (p : obj -> option bool) (l : list obj) c :
  c ∈ l -> p c = None -> filter_throwing p l = None.
Proof.
  induction l as [|x l IH]; [by intros ?%not_elem_of_nil|].
  intros [->|Hc]%elem_of_cons Hp; cbn [filter_throwing].
  - by rewrite Hp.
  - destruct (p x); [|done]. by rewrite (IH Hc Hp).
Qed.

Lemma filteredCandidates_text search (cs : list obj) :
  forallb (Spec.has_text "name" "email") cs = true ->
  filteredCandidates search cs = Some (List.filter (infix_match search) cs).
Proof.
  intros Htext. unfold filteredCandidates.
  induction cs as [|c cs IH]; [done|].
  apply andb_prop in Htext as [Hc Hcs]. cbn [filter_throwing List.filter].
  by rewrite (matches_text search c Hc), (IH Hcs).
Qed.

(** X16 — The search box of the candidates page is a substring match,
    letter case aside, on name or email: on candidates whose name and
    email are text, [filteredCandidates] keeps, in order, exactly the
    candidates with the search text somewhere in their name or in their
    email; the empty search keeps all of them. *)
Theorem client_search_is_substring_match (search : string) (cs : list obj) :
  forallb (Spec.has_text "name" "email") cs = true ->
  filteredCandidates search cs = Some (List.filter (infix_match search) cs)
  /\ (forall c, infix_match search c = true
                <-> Spec.ci_infix search (Spec.text c "name")
                    \/ Spec.ci_infix search (Spec.text c "email"))
  /\ (search = "" -> filteredCandidates search cs = Some cs).
Proof.
  intros Htext.
  pose proof (filteredCandidates_text search cs Htext)
    as Hrun.
  split; [exact Hrun|]. split.
  - intros c. unfold infix_match, Spec.ci_infix.
    by rewrite orb_true_iff, !includes_spec.
  - intros ->. rewrite Hrun. f_equal. apply forallb_filter_id.
    apply forallb_forall. intros c _. unfold infix_match. cbn [toLowerCase].
    by rewrite includes_unfold.
Qed.

(** "RAO" finds Asha Rao, by the middle of her name. *)
Lemma client_search_is_substring_match_witness :
  filteredCandidates "RAO" [Sample.asha; Sample.bela] = Some [Sample.asha].
Proof.
  destruct (client_search_is_substring_match "RAO"
              [Sample.asha; Sample.bela]) as [H _].
  - vm_compute. reflexivity.
  - rewrite H. vm_compute. reflexivity.
Defined.

End ClientSearch.

Section ClientSearchEdges.
Import Dexie Handlers CandidateViews.

(** X17 — One candidate whose name or email is not text makes the whole
    client-side search throw, whatever the search text, the empty one
    included: when list-candidates (which succeeds, no search text being
    sent) delivers such a candidate, [filteredCandidates] over what was
    delivered has no result. *)
Theorem client_search_needs_text (search : string) (c : obj) (db : DB) :
  c ∈ Spec.items_of (get_candidates "" "" 1 1000 db) ->
  Spec.has_text "name" "email" c = false ->
  ok (get_candidates "" "" 1 1000 db) = true
  /\ filteredCandidates search
       (Spec.items_of (get_candidates "" "" 1 1000 db)) = None.
Proof.
  intros Hc Hno. split.
  - by rewrite get_candidates_page.
  - unfold filteredCandidates.
    apply (filter_throwing_None _ _ c Hc). by apply matches_no_text.
Qed.

(** A candidate created without a name, then listed. *)
Lemma client_search_needs_text_witness :
  filteredCandidates ""
    (Spec.items_of
       (get_candidates "" "" 1 1000
          (post_candidates false {[ "email" := VStr "x@example.com" ]}
             "2025-10-20" Sample.store).2)) = None.
Proof.
  pose (db1 := (post_candidates false {[ "email" := VStr "x@example.com" ]}
                  "2025-10-20" Sample.store).2).
  destruct (client_search_needs_text ""
              (default ∅ (rows (candidates db1) !! 3%Z)) db1) as [_ H].
  - apply (bool_decide_unpack (_ ∈ _)). vm_compute. exact I.
  - vm_compute. reflexivity.
  - exact H.
Defined.

(** X18 — The client-side search finds at least what the server-side
    search finds: a candidate that the prefix match of list-candidates
    accepts for a search text is kept by [filteredCandidates] for the same
    text. *)
Theorem server_matches_are_client_matches
    (search : string) (cs l : list obj) (c : obj) :
  filteredCandidates search cs = Some l ->
  c ∈ cs -> Spec.prefix_match "name" "email" search c = true ->
  c ∈ l.
Proof.
  intros Hrun Hc Hpre.
  assert (forallb (Spec.has_text "name" "email") cs = true) as Htext.
  { apply forallb_forall. intros x Hx%list_elem_of_In.
    destruct (Spec.has_text "name" "email" x) eqn:E; [done|].
    unfold filteredCandidates in Hrun.
    rewrite (filter_throwing_None _ _ x Hx (matches_no_text _ x E)) in Hrun.
    discriminate. }
  rewrite (filteredCandidates_text search cs Htext) in Hrun. injection Hrun as <-.
  apply list_elem_of_In, filter_In. split; [by apply list_elem_of_In|].
  unfold Spec.prefix_match in Hpre. unfold infix_match.
  apply orb_true_iff in Hpre as [H|H]; apply startsWith_includes in H;
    rewrite H; [reflexivity|apply orb_true_r].
Qed.

(** "be" is a prefix of "bela@example.com". *)
Lemma server_matches_are_client_matches_witness :
  Sample.bela
  ∈ default [] (filteredCandidates "be" [Sample.asha; Sample.bela]).
Proof.
  apply (server_matches_are_client_matches "be" [Sample.asha; Sample.bela]
           _ Sample.bela).
  - vm_compute. reflexivity.
  - apply (bool_decide_unpack (_ ∈ _)). vm_compute. exact I.
  - vm_compute. reflexivity.
Defined.

End ClientSearchEdges.

Section Columns.
Import Dexie Handlers CandidatesPage CandidateViews.

Lemma empty_columns_spec (s : string) :
  (is_Some (empty_columns !! s) <-> s ∈ STAGE_IDS)
  /\ (s ∈ STAGE_IDS -> empty_columns !! s = Some []).
Proof.
  unfold empty_columns, STAGE_IDS, CANDIDATE_STAGES.
  cbn [fmap list_fmap fst foldl].
  rewrite !lookup_insert_is_Some', !elem_of_cons, elem_of_nil.
  pose proof (lookup_empty_is_Some (M:=gmap string) (A:=list obj) s) as He.
  split; [split|].
  - intros H. repeat (destruct H as [<-|H]; [eauto 10|]). by destruct He.
  - intros H. repeat (destruct H as [->|H]; [eauto 10|]). done.
  - intros [->|[->|[->|[->|[->|[->|[]]]]]]]; reflexivity.
Qed.

Lemma inherited_no_stage (key : string) :
  key ∈ inherited -> key ∉ STAGE_IDS.
Proof.
  unfold inherited, STAGE_IDS, CANDIDATE_STAGES. cbn [fmap list_fmap fst].
  rewrite !elem_of_cons, !elem_of_nil. intros Hi Hs.
  repeat (destruct Hi as [->|Hi];
          [repeat (destruct Hs as [Hs|Hs]; [discriminate Hs|]); exact Hs|]).
  exact Hi.
Qed.

(** The fold of [push_card] over candidates none of which has an
    inherited name as its stage. *)
Lemma fold_push_card (cs : list obj) :
  forall g : gmap string (list obj),
    (forall s, is_Some (g !! s) <-> s ∈ STAGE_IDS) ->
    Forall (fun c => template (c !! "stage") ∉ inherited) cs ->
    exists g',
      foldl push_card (Some g) cs = Some g'
      /\ (forall s, is_Some (g' !! s) <-> s ∈ STAGE_IDS)
      /\ forall s col, g !! s = Some col ->
           g' !! s = Some (col ++ List.filter (in_column s) cs).
Proof.
  induction cs as [|c cs IH]; intros g Hdom Hcs.
  - exists g. split; [done|]. split; [done|].
    intros s col Hs. by rewrite app_nil_r.
  - apply Forall_cons in Hcs as [Hc Hcs]. cbn [foldl push_card].
    set (key := template (c !! "stage")) in *.
    destruct (g !! key) as [column|] eqn:Hkey.
    + destruct (IH (<[key := column ++ [c]]> g)) as (g' & Hrun & Hdom' & Hcol);
        [|done|].
      { intros s. rewrite lookup_insert_is_Some, <- Hdom.
        split; [intros [<-|[_ ?]]; [by eexists|done]|].
        destruct (decide (key = s)); [by left|by right]. }
      exists g'. split; [done|]. split; [done|].
      intros s col Hs. cbn [List.filter]. unfold in_column at 1. fold key.
      destruct (String.eqb_spec key s) as [<-|Hne].
      * rewrite (Hcol key (column ++ [c])) by apply lookup_insert_eq.
        rewrite Hkey in Hs. injection Hs as <-.
        by rewrite <- app_assoc.
      * apply Hcol. by rewrite lookup_insert_ne.
    + rewrite bool_decide_eq_false_2 by done.
      destruct (IH g Hdom Hcs) as (g' & Hrun & Hdom' & Hcol).
      exists g'. split; [done|]. split; [done|].
      intros s col Hs. cbn [List.filter]. unfold in_column at 1. fold key.
      destruct (String.eqb_spec key s) as [<-|Hne]; [congruence|].
      by apply Hcol.
Qed.

Lemma fold_push_card_None (cs : list obj) :
  foldl push_card None cs = None.
Proof. by induction cs. Qed.

End Columns.

Section ColumnTheorems.
Import Dexie Handlers CandidatesPage CandidateViews.

(** X19 — The Kanban columns partition the candidates by stage: when no
    candidate has a property name of [Object.prototype] as its stage,
    [candidatesByStage] has exactly the six stage columns, and the column
    of a stage holds, in list order, the candidates whose stage is that
    stage; a candidate with any other stage is in no column. *)
Theorem columns_hold_the_candidates_by_stage (cs : list obj) :
  Forall (fun c => template (c !! "stage") ∉ inherited) cs ->
  exists g,
    candidatesByStage cs = Some g
    /\ (forall s, is_Some (g !! s) <-> s ∈ STAGE_IDS)
    /\ (forall s, s ∈ STAGE_IDS ->
          g !! s = Some (List.filter (in_column s) cs))
    /\ (forall c s s', c !! "stage" = Some (VStr s) ->
          in_column s' c = true <-> s' = s).
Proof.
  intros Hcs.
  destruct (fold_push_card cs empty_columns) as (g & Hrun & Hdom & Hcol);
    [intros s; apply empty_columns_spec|done|].
  exists g. split; [done|]. split; [done|]. split.
  - intros s Hs. apply (Hcol s []). by apply empty_columns_spec.
  - intros c s s' Hc. unfold in_column. rewrite Hc. cbn [template].
    rewrite String.eqb_eq. split; congruence.
Qed.

(** Asha is in "applied", Bela in "screen", "tech" is empty. *)
Lemma columns_hold_the_candidates_by_stage_witness :
  exists g,
    candidatesByStage [Sample.asha; Sample.bela] = Some g
    /\ g !! "applied" = Some [Sample.asha]
    /\ g !! "screen" = Some [Sample.bela]
    /\ g !! "tech" = Some [].
Proof.
  destruct (columns_hold_the_candidates_by_stage [Sample.asha; Sample.bela])
    as (g & Hrun & _ & Hcol & _).
  - repeat constructor;
      apply (bool_decide_unpack (_ ∉ _)); vm_compute; exact I.
  - exists g. split; [exact Hrun|].
    rewrite !Hcol by (apply (bool_decide_unpack (_ ∈ _)); vm_compute; exact I).
    repeat split; vm_compute; reflexivity.
Defined.

Lemma push_card_keeps_columns g (c : obj) :
  (forall s, is_Some (g !! s) <-> s ∈ STAGE_IDS) ->
  push_card (Some g) c = None
  \/ exists g', push_card (Some g) c = Some g'
                /\ forall s, is_Some (g' !! s) <-> s ∈ STAGE_IDS.
Proof.
  intros Hdom. cbn [push_card].
  destruct (g !! template (c !! "stage")) as [column|] eqn:Hkey.
  - right. eexists. split; [reflexivity|]. intros s.
    rewrite lookup_insert_is_Some', <- Hdom.
    split; [intros [<-|?]; [by eexists|done]|by right].
  - case_bool_decide; [by left|right]. by exists g.
Qed.

(** X20 — A candidate whose stage is a property name that every object
    inherits ("constructor", "toString", ...) breaks the board:
    [candidatesByStage] throws instead of leaving the candidate out, as it
    does for any other unknown stage. *)
Theorem inherited_stage_breaks_the_board (cs : list obj) (c : obj) :
  c ∈ cs -> template (c !! "stage") ∈ inherited ->
  candidatesByStage cs = None.
Proof.
  intros Hc Hkey. unfold candidatesByStage.
  assert (forall g, (forall s, is_Some (g !! s) <-> s ∈ STAGE_IDS) ->
                    foldl push_card (Some g) cs = None) as Hfold.
  { induction cs as [|x cs IH]; intros g Hdom;
      [by apply not_elem_of_nil in Hc|].
    cbn [foldl]. apply elem_of_cons in Hc as [<-|Hc].
    - cbn [push_card].
      assert (g !! template (c !! "stage") = None) as ->.
      { apply eq_None_not_Some. rewrite Hdom.
        by apply inherited_no_stage. }
      rewrite bool_decide_eq_true_2 by done. apply fold_push_card_None.
    - destruct (push_card_keeps_columns g x Hdom) as [->|(g' & -> & Hdom')];
        [apply fold_push_card_None|by apply IH]. }
  apply Hfold. intros s. apply empty_columns_spec.
Qed.

(** A candidate stored with the stage "constructor". *)
Lemma inherited_stage_breaks_the_board_witness :
  candidatesByStage
    [Sample.asha; <["stage" := VStr "constructor"]> Sample.bela] = None.
Proof.
  apply (inherited_stage_breaks_the_board _
           (<["stage" := VStr "constructor"]> Sample.bela)).
  - apply (bool_decide_unpack (_ ∈ _)). vm_compute. exact I.
  - apply (bool_decide_unpack (_ ∈ _)). vm_compute. exact I.
Defined.

End ColumnTheorems.

Section BoardLoader.
Import Dexie Handlers JobsPage JobForm.

Lemma List_filter_sublist {A} (f : A -> bool) (l : list A) :
  List.filter f l `sublist_of` l.
Proof.
  induction l as [|x l IH]; [done|]. cbn [List.filter].
  destruct (f x); [by apply sublist_skip|by apply sublist_cons].
Qed.

Lemma selected_sublist field value f1 f2 search (l : list obj) :
  Spec.selected field value f1 f2 search l `sublist_of` l.
Proof.
  unfold Spec.selected, Spec.equality_filter.
  case_bool_decide; [apply List_filter_sublist|].
  etrans; apply List_filter_sublist.
Qed.

Lemma window_sublist {A} page pageSize (l : list A) :
  Spec.window page pageSize l `sublist_of` l.
Proof.
  unfold Spec.window. etrans; [apply sublist_take|apply sublist_drop].
Qed.

(** The jobs a list-jobs call delivers are stored jobs, each under its
    own id, and no id comes twice. *)
Lemma listed_jobs_are_stored search status page pageSize sort db :
  Spec.inbound "id" (Handlers.jobs db) ->
  (1 <= page)%Z -> (1 <= pageSize)%Z ->
  (search <> "" ->
   forallb (Spec.has_text "title" "slug") (toArray (Handlers.jobs db)) = true) ->
  let items := Spec.items_of (get_jobs search status page pageSize sort db) in
  ok (get_jobs search status page pageSize sort db) = true
  /\ (length items <= Z.to_nat pageSize)%nat
  /\ NoDup ((.!! "id") <$> items)
  /\ forall j, j ∈ items ->
       exists k, rows (Handlers.jobs db) !! k = Some j
                 /\ j !! "id" = Some (VNum k).
Proof.
  intros Hin Hp Hs Htext items. unfold items.
  rewrite get_jobs_page by done. split; [reflexivity|].
  cbn [Spec.items_of body]. rewrite slice_window by done.
  set (sel := Spec.selected "status" status "title" "slug" search
                (toArray (Handlers.jobs db))).
  split; [|split].
  - unfold Spec.window. rewrite length_take. lia.
  - eapply sublist_NoDup; [|apply fmap_sublist, window_sublist].
    rewrite (sort_by_perm _ sel).
    eapply sublist_NoDup; [by apply stored_ids_NoDup|].
    apply fmap_sublist, selected_sublist.
  - intros j Hj. apply elem_of_window_sub in Hj.
    rewrite sort_by_perm in Hj.
    apply (fun H => elem_of_sublist _ _ _ H (selected_sublist _ _ _ _ _ _))
      in Hj.
    apply elem_of_toArray in Hj as [k Hk]. exists k. split; [done|].
    exact (Hin k j Hk).
Qed.

(** X21 — What the jobs board holds once [fetchJobs(p)] has run (page
    number at least 1; with a search text, stored jobs whose title and
    slug are text): the jobs of the list-jobs response for page p with
    page size 10 and sort "order"; they are at most 10 stored jobs with
    pairwise different ids, which is what the reorder handler starts
    from.  The load writes nothing, and [filters.page] is not its to
    set. *)
Theorem loaded_window_is_reorderable
    (search status : string) (p : Z) (w : World) :
  Spec.inbound "id" (Handlers.jobs (db w)) ->
  (1 <= p)%Z ->
  (search <> "" ->
   forallb (Spec.has_text "title" "slug") (toArray (Handlers.jobs (db w)))
   = true) ->
  let w' := fetchJobs search status p w in
  jobs (view w') = Spec.items_of (get_jobs search status p 10 "order" (db w))
  /\ (exists ids : list Z,
        (fun j => j !! "id") <$> jobs (view w')
        = (fun k => Some (VNum k)) <$> ids
        /\ NoDup ids /\ (length ids <= 10)%nat
        /\ forall i j, jobs (view w') !! i = Some j ->
             exists k, ids !! i = Some k
                       /\ rows (Handlers.jobs (db w)) !! k = Some j)
  /\ page (view w') = page (view w)
  /\ db w' = db w /\ calls w' = calls w.
Proof.
  intros Hin Hp Htext w'.
  destruct (listed_jobs_are_stored search status p 10 "order" (db w)
              Hin Hp ltac:(lia) Htext) as (Hok & Hlen & Hnd & Hstored).
  assert (jobs (view w')
          = Spec.items_of (get_jobs search status p 10 "order" (db w))
          /\ page (view w') = page (view w)
          /\ db w' = db w /\ calls w' = calls w) as (Hjobs & Hpage & Hdb & Hc).
  { unfold w', fetchJobs. rewrite Hok.
    rewrite get_jobs_page by done. by cbn [body Spec.items_of]. }
  split; [done|]. split; [|done]. rewrite Hjobs.
  set (items := Spec.items_of _) in *.
  assert (forall i j, items !! i = Some j ->
            exists k, j !! "id" = Some (VNum k)
                      /\ rows (Handlers.jobs (db w)) !! k = Some j) as Hitem.
  { intros i j Hj. destruct (Hstored j) as (k & Hk & Hid);
      [by eapply list_elem_of_lookup_2|by exists k]. }
  exists ((fun j => default 0%Z (Inv.number j "id")) <$> items).
  assert ((fun j => j !! "id") <$> items
          = (fun k => Some (VNum k))
              <$> ((fun j => default 0%Z (Inv.number j "id")) <$> items))
    as Hids.
  { rewrite <- list_fmap_compose. apply list_fmap_ext. intros i j Hj.
    destruct (Hitem i j Hj) as (k & Hid & _).
    unfold compose, Inv.number. by rewrite Hid. }
  split; [exact Hids|]. split; [|split].
  - assert (NoDup ((fun j : obj => j !! "id") <$> items)) as Hnd'
      by exact Hnd.
    rewrite Hids in Hnd'. by apply NoDup_fmap_1 in Hnd'.
  - rewrite length_fmap. exact Hlen.
  - intros i j Hj. destruct (Hitem i j Hj) as (k & Hid & Hk).
    exists k. split; [|done].
    rewrite list_lookup_fmap, Hj. simpl. unfold Inv.number. by rewrite Hid.
Qed.

(** Page 1 of the sample store, all statuses: the three jobs, by order. *)
Lemma loaded_window_is_reorderable_witness :
  (fun j => j !! "id")
    <$> jobs (view (fetchJobs "" "all" 1 Sample.second_page))
  = [Some (VNum 1); Some (VNum 2); Some (VNum 3)]
  /\ page (view (fetchJobs "" "all" 1 Sample.second_page)) = 2%Z.
Proof.
  destruct (loaded_window_is_reorderable "" "all" 1 Sample.second_page)
    as (Hjobs & _ & Hpage & _).
  - apply (bool_decide_unpack (Spec.inbound _ _)). vm_compute. exact I.
  - lia.
  - intros H. by destruct H.
  - rewrite Hjobs, Hpage. split; vm_compute; reflexivity.
Defined.

End BoardLoader.

Section BoardMoves.
Import Dexie Handlers JobsPage.

(** [arrayMove] on two positions of the array: the element at [from] is
    taken out and put back at [to]. *)
Lemma arrayMove_in_range {A} (l : list A) (from to : Z) (x : A) :
  (0 <= from)%Z -> l !! Z.to_nat from = Some x ->
  (0 <= to < Z.of_nat (length l))%Z ->
  arrayMove l from to
  = Some <$> (take (Z.to_nat to) (delete (Z.to_nat from) l)
              ++ x :: drop (Z.to_nat to) (delete (Z.to_nat from) l)).
Proof.
  intros Hfrom Hx Hto. unfold arrayMove, rel_index.
  pose proof (lookup_lt_Some _ _ _ Hx) as Hlt.
  destruct (from <? 0)%Z eqn:E1; [lia|].
  destruct (to <? 0)%Z eqn:E2; [lia|].
  rewrite (Z.min_l from) by lia. rewrite Hx.
  assert (length (delete (Z.to_nat from) l) = (length l - 1)%nat) as Hlen
    by (apply length_delete; by eexists).
  rewrite Hlen, (Z.min_l to) by lia. rewrite ?E2.
  by rewrite fmap_app, fmap_cons.
Qed.

(** X22 — A job dropped on another job of the loaded window takes that
    job's position, with the order of that position, and the jobs in
    between shift by one: taking the dropped job out of the new window
    leaves the ids of the other jobs in the order they had. *)
Theorem dragged_job_takes_the_target_position
    (st : State) (activeId overId : val) (a target : obj)
    (newJobs : list obj) :
  List.find (has_id activeId) (jobs st) = Some a ->
  List.find (has_id overId) (jobs st) = Some target ->
  new_jobs st {| active := activeId; over := Some overId |} = Some newJobs ->
  let from := Z.to_nat (findIndex (has_id activeId) (jobs st)) in
  let to := Z.to_nat (findIndex (has_id overId) (jobs st)) in
  jobs st !! from = Some a /\ jobs st !! to = Some target
  /\ newJobs !! to
     = Some (<["order" := VNum ((page st - 1) * 10 + Z.of_nat to)]> a)
  /\ length newJobs = length (jobs st)
  /\ (fun j => j !! "id") <$> delete to newJobs
     = (fun j => j !! "id") <$> delete from (jobs st).
Proof.
  intros Ha Ht Hnew from to.
  destruct (find_findIndex _ _ _ Ha) as [Hfrom Hla].
  destruct (find_findIndex _ _ _ Ht) as [Hto Hlt].
  fold from in Hla. fold to in Hlt.
  pose proof (lookup_lt_Some _ _ _ Hla) as Hlen_from.
  pose proof (lookup_lt_Some _ _ _ Hlt) as Hlen_to.
  split; [done|]. split; [done|].
  unfold new_jobs in Hnew. cbn [over active] in Hnew.
  destruct (strict_eq _ _); [done|]. injection Hnew as <-.
  rewrite (arrayMove_in_range (jobs st) _ _ a Hfrom Hla) by lia.
  fold from to. unfold with_order. rewrite imap_fmap.
  set (rest := delete from (jobs st)).
  assert (length rest = (length (jobs st) - 1)%nat) as Hrest
    by (apply length_delete; by eexists).
  assert (length (take to rest) = to) as Htake
    by (rewrite length_take; lia).
  set (f := fun (i : nat) (j : obj) =>
              <["order" := VNum ((page st - 1) * 10 + Z.of_nat i)]> j).
  split; [|split].
  - rewrite list_lookup_imap.
    rewrite lookup_app_r by lia. rewrite Htake, Nat.sub_diag. reflexivity.
  - rewrite length_imap, length_app, Htake. cbn [length].
    rewrite length_drop. lia.
  - rewrite list_fmap_delete, fmap_imap.
    erewrite imap_ext;
      [rewrite imap_const
      |intros i j _; simpl; apply lookup_insert_ne; discriminate].
    rewrite fmap_app, fmap_cons.
    rewrite <- (length_fmap (fun j : obj => j !! "id") (take to rest)) in Htake.
    rewrite <- Htake at 1. rewrite delete_middle.
    by rewrite <- fmap_app, take_drop.
Qed.

(** Job 1 dropped on job 3 on the first page: job 1 ends third, with
    order 2, behind jobs 2 and 3. *)
Lemma dragged_job_takes_the_target_position_witness :
  default [] (new_jobs (view Sample2.first_page)
                {| active := VNum 1; over := Some (VNum 3) |}) !! 2%nat
  = Some (<["order" := VNum 2]> Sample.job1)
  /\ (fun j => j !! "id")
       <$> delete 2%nat
             (default [] (new_jobs (view Sample2.first_page)
                            {| active := VNum 1; over := Some (VNum 3) |}))
     = [Some (VNum 2); Some (VNum 3)].
Proof.
  pose proof (dragged_job_takes_the_target_position
                (view Sample2.first_page) (VNum 1) (VNum 3)
                Sample.job1 Sample.job3
                (default [] (new_jobs (view Sample2.first_page)
                               {| active := VNum 1; over := Some (VNum 3) |}))
                eq_refl eq_refl eq_refl) as H.
  cbv zeta in H. destruct H as (_ & _ & H3 & _ & H5).
  split.
  - etrans; [exact H3|]. vm_compute. reflexivity.
  - etrans; [exact H5|]. vm_compute. reflexivity.
Defined.

End BoardMoves.

Section RejectedReorder.
Import Dexie Handlers JobsPage.

(** The entries of the payload built from a reordered window whose jobs
    carry numeric ids: the keys are those ids, no key comes twice, and the
    resolver finds a key in every entry. *)
Lemma payload_of_window (st : State) (ev : DragEvent) (ids : list Z)
    (newJobs : list obj) :
  (fun j => j !! "id") <$> jobs st = (fun k => Some (VNum k)) <$> ids ->
  NoDup ids -> ids <> [] ->
  new_jobs st ev = Some newJobs ->
  newJobs <> []
  /\ (forall i j, newJobs !! i = Some j ->
        j !! "order" = Some (VNum ((page st - 1) * 10 + Z.of_nat i))
        /\ exists k, j !! "id" = Some (VNum k))
  /\ NoDup (kc_key <$> (entry_of <$> newJobs)).
Proof.
  intros Hids Hnd Hne Hnew.
  assert (jobs st <> []) as Hjobs.
  { intros E. rewrite E in Hids. by destruct ids. }
  destruct (new_jobs_moved _ _ _ Hjobs Hnew) as (moved & Hperm & Hmoved).
  set (base := ((page st - 1) * 10)%Z) in *.
  assert ((fun j => j !! "id") <$> newJobs ≡ₚ (fun k => Some (VNum k)) <$> ids)
    as Hkeys.
  { rewrite <- Hids, <- Hperm, Hmoved, fmap_imap.
    erewrite imap_ext; [by rewrite imap_const|].
    intros i m _. simpl. by rewrite lookup_insert_ne. }
  assert (forall i j, newJobs !! i = Some j ->
            j !! "order" = Some (VNum (base + Z.of_nat i))
            /\ exists k, j !! "id" = Some (VNum k)) as Hentry.
  { intros i j Hj. split.
    - rewrite Hmoved, list_lookup_imap in Hj.
      destruct (moved !! i) as [m|]; [|done]. injection Hj as <-.
      apply lookup_insert_eq.
    - assert (j !! "id" ∈ (fun j => j !! "id") <$> newJobs) as Hin.
      { apply list_elem_of_fmap_2. by eapply list_elem_of_lookup_2. }
      rewrite Hkeys in Hin. apply list_elem_of_fmap in Hin as (k & -> & _).
      by exists k. }
  split; [|split; [done|]].
  - intros E. rewrite E in Hkeys. apply Permutation_nil_l in Hkeys.
    by destruct ids.
  - assert (kc_key <$> (entry_of <$> newJobs)
            = (fun j => j !! "id") <$> newJobs) as ->.
    { rewrite <- list_fmap_compose. apply list_fmap_ext. intros i j Hj.
      unfold compose. destruct (Hentry i j Hj) as [Ho [k Hk]].
      by rewrite (entry_of_numbers j k _ Hk Ho). }
    rewrite Hkeys. apply NoDup_fmap_2_strong; [|done]. congruence.
Qed.

(** No request reaches the resolver registered for the reorder path:
    a path that '/jobs/reorder' matches is matched by '/jobs/:id', which
    comes first. *)
Lemma reorder_resolver_unreachable (m : Method) (path : string)
    (params : list string) :
  route m path <> Some (Rreorder_jobs, params).
Proof.
  unfold route, handlers, first_match, match_path.
  change (segments "/jobs/:id") with ["jobs"; ":id"].
  change (segments "/jobs/reorder") with ["jobs"; "reorder"].
  destruct m; repeat case_bool_decide; try done;
    repeat match goal with
           | |- context [match match_segments ?a ?b with _ => _ end] =>
               lazymatch a with
               | ["jobs"; "reorder"] => fail
               | _ => destruct (match_segments a b) eqn:?; [discriminate|]
               end
           end;
    try discriminate.
  assert (match_segments ["jobs"; "reorder"] (segments path) = None) as ->.
  { destruct (segments path) as [|p [|p2 ps]]; try done.
    cbn [match_segments] in *. destruct (String.eqb "jobs" p); [|done].
    destruct ps; [done|]. by destruct (String.eqb "reorder" p2). }
  by destruct (match_segments (segments _) _).
Qed.

(** The resolver registered for the reorder path never answers ok. *)
Lemma reorder_jobs_never_ok (fail : bool) (p : ReorderBody) (db : DB) :
  ok (reorder_jobs fail p db).1 = false.
Proof. destruct fail; [done|]. by destruct p as [|[|[|j l]]]. Qed.

(** X23 — The resolver registered for the reorder path, taken by
    itself, on the payload that the jobs board sends for a window of jobs
    with distinct ids.  Although the failure trial passed it answers 500
    (its per-record updates, whose keys are all [undefined], are
    rejected), and the store holds the new orders all the same, position
    by position, its bulk update having been applied before; the jobs
    outside the window are as they were.  Whatever the payload, it never
    answers ok.  And no request reaches it: whatever the method and the
    path, the array gives the request to another resolver or to none. *)
Theorem reorder_resolver_stores_then_fails
    (st : State) (ev : DragEvent) (ids : list Z) (newJobs : list obj)
    (db : DB) :
  (fun j => j !! "id") <$> jobs st = (fun k => Some (VNum k)) <$> ids ->
  NoDup ids -> ids <> [] ->
  new_jobs st ev = Some newJobs ->
  let base := ((page st - 1) * 10)%Z in
  let answer := reorder_jobs false (Payload (Arr (api_payload newJobs))) db in
  answer.1 = message "Failed to reorder jobs (internal)" 500
  /\ (forall (i : nat) (j : obj) (k : Z),
        newJobs !! i = Some j -> j !! "id" = Some (VNum k) ->
        rows (Handlers.jobs answer.2) !! k
        = insert "order" (VNum (base + Z.of_nat i))
            <$> rows (Handlers.jobs db) !! k)
  /\ (forall k : Z,
        k ∉ ids ->
        rows (Handlers.jobs answer.2) !! k = rows (Handlers.jobs db) !! k)
  /\ (forall (fail : bool) (p : ReorderBody),
        ok (reorder_jobs fail p db).1 = false)
  /\ (forall (m : Method) (path : string) (params : list string),
        route m path <> Some (Rreorder_jobs, params)).
Proof.
  intros Hids Hnd Hne Hnew base answer.
  destruct (payload_of_window _ _ _ _ Hids Hnd Hne Hnew)
    as (Hnonempty & Hentry & Hndk).
  fold base in Hentry.
  assert (answer
          = (message "Failed to reorder jobs (internal)" 500,
             set_jobs
               {| rows := foldl bulk_step (rows (Handlers.jobs db))
                            (entry_of <$> newJobs);
                  keyGen := keyGen (Handlers.jobs db) |} db))
    as ->.
  { unfold answer. rewrite <- updates_of_payload.
    destruct (api_payload newJobs) as [|o l] eqn:Hp.
    - destruct newJobs; [done|discriminate Hp].
    - apply reorder_applies_then_answers. }
  cbn [fst snd Handlers.jobs set_jobs rows].
  split; [done|]. split; [|split; [|split]].
  - intros i j k Hj Hk. destruct (Hentry i j Hj) as [Ho _].
    erewrite (bulk_fold_same _ _ i (entry_of j) k); [|done| |].
    + by rewrite (entry_of_numbers j k _ Hk Ho).
    + by rewrite list_lookup_fmap, Hj.
    + by rewrite (entry_of_numbers j k _ Hk Ho).
  - intros k Hk. apply bulk_fold_other.
    intros (u & Hu & (j & -> & Hj)%list_elem_of_fmap)%list_elem_of_fmap.
    apply list_elem_of_lookup in Hj as [i Hi].
    destruct (Hentry i j Hi) as [Ho [k' Hk']].
    rewrite (entry_of_numbers j k' _ Hk' Ho) in Hu. injection Hu as ->.
    apply Hk.
    assert (Some (VNum k') ∈ (fun j : obj => j !! "id") <$> newJobs) as Hin.
    { rewrite <- Hk'. apply list_elem_of_fmap_2.
      by eapply list_elem_of_lookup_2. }
    destruct (new_jobs_moved st ev newJobs) as (moved & Hperm & Hmoved);
      [|done|].
    { intros E. rewrite E in Hids. by destruct ids. }
    assert ((fun j : obj => j !! "id") <$> newJobs
            ≡ₚ (fun k => Some (VNum k)) <$> ids) as Hkeys.
    { rewrite <- Hids, <- Hperm, Hmoved, fmap_imap.
      erewrite imap_ext; [by rewrite imap_const|].
      intros n o _. simpl. by rewrite lookup_insert_ne. }
    rewrite Hkeys in Hin.
    by apply list_elem_of_fmap in Hin as (k0 & [= ->] & Hin).
  - intros fail p. apply reorder_jobs_never_ok.
  - apply reorder_resolver_unreachable.
Qed.

(** Page 2 showing jobs 2 and 3, job 2 dropped on job 3: given that
    payload, the resolver answers 500 and has stored job 3 at order 10;
    job 1 is as it was. *)
Lemma reorder_resolver_stores_then_fails_witness :
  let answer :=
    reorder_jobs false
      (Payload (Arr (api_payload
                       (default [] (new_jobs (view Sample.second_page)
                                      Sample.job2_onto_job3)))))
      Sample.store in
  status answer.1 = 500%Z
  /\ rows (Handlers.jobs answer.2) !! 3%Z
     = Some (<["order" := VNum 10]> Sample.job3)
  /\ rows (Handlers.jobs answer.2) !! 1%Z = Some Sample.job1.
Proof.
  pose proof (reorder_resolver_stores_then_fails
                (view Sample.second_page) Sample.job2_onto_job3 [2; 3]%Z
                (default [] (new_jobs (view Sample.second_page)
                               Sample.job2_onto_job3))
                Sample.store eq_refl) as H.
  cbv zeta in H. destruct H as (Ha & Hs & Hout & _).
  - apply (bool_decide_unpack (NoDup _)). vm_compute. exact I.
  - discriminate.
  - vm_compute. reflexivity.
  - cbv zeta. split; [by rewrite Ha|]. split.
    + erewrite (Hs 0%nat _ 3%Z); vm_compute; reflexivity.
    + rewrite (Hout 1%Z); [vm_compute; reflexivity|].
      apply (bool_decide_unpack (_ ∉ _)). vm_compute. exact I.
Defined.

End RejectedReorder.

(* ********************************************************************* *)
(** * Slugs                                                               *)
(* ********************************************************************* *)

Section Slugs.
Import JobForm.

Lemma lower_not_upper (c : ascii) : is_upper (lower_ascii c) = false.
Proof. destruct c as [[] [] [] [] [] [] [] []]; reflexivity. Qed.

Lemma slug_char_no_space (c : ascii) :
  slug_char c = true -> is_space c = false.
Proof. destruct c as [[] [] [] [] [] [] [] []]; by vm_compute. Qed.

Lemma lower_fixed (c : ascii) : is_upper c = false -> lower_ascii c = c.
Proof. unfold is_upper, lower_ascii. by intros ->. Qed.

Lemma all_chars_and (p q : ascii -> bool) (s : string) :
  all_chars (fun c => p c && q c) s = all_chars p s && all_chars q s.
Proof.
  induction s as [|c s IH]; [done|]. cbn [all_chars]. rewrite IH.
  destruct (p c), (q c), (all_chars p s); reflexivity.
Qed.

Lemma all_chars_toLowerCase (t : string) :
  all_chars (fun c => negb (is_upper c)) (toLowerCase t) = true.
Proof.
  induction t as [|c t IH]; [done|]. cbn [toLowerCase all_chars].
  by rewrite lower_not_upper, IH.
Qed.

Lemma all_chars_spaces_to_dash (p : ascii -> bool) (b : bool) (s : string) :
  p "-"%char = true -> all_chars p s = true ->
  all_chars p (spaces_to_dash b s) = true.
Proof.
  intros Hd. revert b. induction s as [|c s IH]; intros b; [done|].
  cbn [all_chars spaces_to_dash]. intros [Hc Hs]%andb_prop.
  destruct (is_space c), b; cbn [all_chars]; rewrite ?Hd, ?Hc, IH; done.
Qed.

Lemma all_chars_keep_word (p : ascii -> bool) (s : string) :
  all_chars p s = true ->
  all_chars (fun c => (is_word c || is_dash c) && p c) (keep_word s) = true.
Proof.
  induction s as [|c s IH]; [done|].
  cbn [all_chars keep_word]. intros [Hc Hs]%andb_prop.
  destruct (is_word c || is_dash c) eqn:E; cbn [all_chars];
    rewrite ?E, ?Hc, IH; done.
Qed.

Lemma all_chars_squeeze (p : ascii -> bool) (b : bool) (s : string) :
  all_chars p s = true -> all_chars p (squeeze_dashes b s) = true.
Proof.
  revert b. induction s as [|c s IH]; intros b; [done|].
  cbn [all_chars squeeze_dashes]. intros [Hc Hs]%andb_prop.
  destruct (is_dash c), b; cbn [all_chars]; rewrite ?Hc, IH; done.
Qed.

Lemma all_chars_trim_start (p : ascii -> bool) (s : string) :
  all_chars p s = true -> all_chars p (trim_start s) = true.
Proof.
  induction s as [|c s IH]; [done|].
  cbn [all_chars trim_start]. intros [Hc Hs]%andb_prop.
  destruct (is_dash c); [by apply IH|]. cbn [all_chars]. by rewrite Hc, Hs.
Qed.

Lemma all_chars_trim_end (p : ascii -> bool) (s : string) :
  all_chars p s = true -> all_chars p (trim_end s) = true.
Proof.
  induction s as [|c s IH]; [done|].
  cbn [all_chars trim_end]. intros [Hc Hs]%andb_prop.
  destruct (is_dash c && _); [done|]. cbn [all_chars]. by rewrite Hc, IH.
Qed.

End Slugs.

Section SlugShape.
Import JobForm.

Lemma squeeze_no_double (b : bool) (s : string) :
  has_double_dash (squeeze_dashes b s) = false
  /\ (b = true -> starts_with_dash (squeeze_dashes b s) = false).
Proof.
  revert b. induction s as [|c s IH]; intros b; [done|].
  cbn [squeeze_dashes]. destruct (is_dash c) eqn:Hc.
  - destruct b; [apply IH|]. split; [|done].
    cbn [has_double_dash]. destruct (IH true) as [H1 H2].
    rewrite H1, (H2 eq_refl). by rewrite andb_false_r.
  - cbn [has_double_dash starts_with_dash]. rewrite Hc.
    split; [apply IH|done].
Qed.

Lemma trim_start_shape (s : string) :
  starts_with_dash (trim_start s) = false
  /\ (has_double_dash s = false -> has_double_dash (trim_start s) = false).
Proof.
  induction s as [|c s [IH1 IH2]]; [done|]. cbn [trim_start].
  destruct (is_dash c) eqn:Hc.
  - split; [done|]. cbn [has_double_dash].
    intros [_ H]%orb_false_elim. by apply IH2.
  - split; [by cbn [starts_with_dash]|done].
Qed.

Lemma trim_end_head (s : string) :
  starts_with_dash (trim_end s) = true -> starts_with_dash s = true.
Proof.
  destruct s as [|c s]; [done|]. cbn [trim_end].
  by destruct (is_dash c && _).
Qed.

Lemma has_double_dash_cons (c : ascii) (s : string) :
  has_double_dash (String c s)
  = (is_dash c && starts_with_dash s) || has_double_dash s.
Proof. reflexivity. Qed.

Lemma trim_end_shape (s : string) :
  ends_with_dash (trim_end s) = false
  /\ (starts_with_dash s = false -> starts_with_dash (trim_end s) = false)
  /\ (has_double_dash s = false -> has_double_dash (trim_end s) = false).
Proof.
  induction s as [|c s (IH1 & IH2 & IH3)]; [done|]. cbn [trim_end].
  destruct (is_dash c) eqn:Hc; cbn [andb].
  - destruct (trim_end s) as [|d r] eqn:Hr; cbn [String.eqb]; [done|].
    split; [exact IH1|]. split; [cbn [starts_with_dash]; congruence|].
    rewrite (has_double_dash_cons c s), (has_double_dash_cons c (String d r)).
    rewrite Hc. cbn [andb].
    intros [Hhead Hs]%orb_false_elim. rewrite (IH3 Hs), orb_false_r.
    destruct (starts_with_dash (String d r)) eqn:E; [|done].
    rewrite <- Hr in E. apply trim_end_head in E. congruence.
  - split; [|split].
    + destruct (trim_end s) as [|d r] eqn:Hr; [by cbn; rewrite Hc|].
      exact IH1.
    + cbn [starts_with_dash]. by rewrite Hc.
    + rewrite !has_double_dash_cons, Hc. cbn [andb orb]. exact IH3.
Qed.

Lemma slugify_shape (text : string) : is_slug (slugify text) = true.
Proof.
  unfold slugify, is_slug.
  set (s2 := keep_word (spaces_to_dash false (toLowerCase text))).
  set (s3 := squeeze_dashes false s2).
  assert (all_chars slug_char s2 = true) as H2.
  { unfold s2, slug_char.
    apply all_chars_keep_word, all_chars_spaces_to_dash; [done|].
    apply all_chars_toLowerCase. }
  destruct (squeeze_no_double false s2) as [Hdd _]. fold s3 in Hdd.
  destruct (trim_start_shape s3) as [Hts Htd].
  destruct (trim_end_shape (trim_start s3)) as (He & Hs & Hd).
  rewrite all_chars_trim_end, Hs, He, Hd; try done.
  - by apply Htd.
  - by apply all_chars_trim_start, all_chars_squeeze.
Qed.

End SlugShape.

Section SlugFixed.
Import JobForm.

Lemma toLowerCase_fixed (s : string) :
  all_chars (fun c => negb (is_upper c)) s = true -> toLowerCase s = s.
Proof.
  induction s as [|c s IH]; [done|]. cbn [all_chars toLowerCase].
  intros [Hc Hs]%andb_prop. apply negb_true_iff in Hc.
  by rewrite (lower_fixed c Hc), (IH Hs).
Qed.

Lemma spaces_to_dash_fixed (s : string) :
  all_chars (fun c => negb (is_space c)) s = true ->
  spaces_to_dash false s = s.
Proof.
  induction s as [|c s IH]; [done|]. cbn [all_chars spaces_to_dash].
  intros [Hc Hs]%andb_prop. apply negb_true_iff in Hc.
  by rewrite Hc, (IH Hs).
Qed.

Lemma keep_word_fixed (s : string) :
  all_chars (fun c => is_word c || is_dash c) s = true -> keep_word s = s.
Proof.
  induction s as [|c s IH]; [done|]. cbn [all_chars keep_word].
  intros [Hc Hs]%andb_prop. by rewrite Hc, (IH Hs).
Qed.

Lemma squeeze_fixed (b : bool) (s : string) :
  has_double_dash s = false ->
  (b = true -> starts_with_dash s = false) ->
  squeeze_dashes b s = s.
Proof.
  revert b. induction s as [|c s IH]; intros b Hdd Hb; [done|].
  rewrite has_double_dash_cons in Hdd.
  apply orb_false_elim in Hdd as [Hhead Hdd].
  cbn [squeeze_dashes]. destruct (is_dash c) eqn:Hc.
  - destruct b;
      [pose proof (Hb eq_refl) as Hx; cbn [starts_with_dash] in Hx;
       congruence|].
    by rewrite (IH true Hdd).
  - by rewrite (IH false Hdd).
Qed.

Lemma trim_start_fixed (s : string) :
  starts_with_dash s = false -> trim_start s = s.
Proof. destruct s as [|c s]; [done|]. cbn. by intros ->. Qed.

Lemma trim_end_fixed (s : string) :
  ends_with_dash s = false -> trim_end s = s.
Proof.
  induction s as [|c s IH]; [done|]. cbn [trim_end].
  destruct s as [|d s].
  - cbn. intros ->. reflexivity.
  - intros H. change (ends_with_dash (String d s) = false) in H.
    rewrite (IH H). cbn [String.eqb]. by rewrite andb_false_r.
Qed.

Lemma all_chars_impl (p q : ascii -> bool) (s : string) :
  (forall c, p c = true -> q c = true) ->
  all_chars p s = true -> all_chars q s = true.
Proof.
  intros Hpq. induction s as [|c s IH]; [done|]. cbn [all_chars].
  intros [Hc Hs]%andb_prop. by rewrite (Hpq c Hc), (IH Hs).
Qed.

(** X24 — Whatever the title, [slugify] gives a slug: only lower-case
    letters, digits, underscores and dashes, no dash at either end, and no
    two dashes in a row (it can be empty).  It leaves a slug as it is, so
    applying it twice is the same as applying it once. *)
Theorem slugify_gives_a_fixed_slug (s text : string) :
  is_slug (slugify text) = true
  /\ (is_slug s = true -> slugify s = s)
  /\ slugify (slugify text) = slugify text.
Proof.
  assert (forall s, is_slug s = true -> slugify s = s) as Hfix.
  { clear s. intros s Hs. unfold is_slug in Hs.
    apply andb_prop in Hs as [Hs Hdd]. apply andb_prop in Hs as [Hs He].
    apply andb_prop in Hs as [Hch Hst].
    apply negb_true_iff in Hdd, He, Hst.
    unfold slugify.
    rewrite toLowerCase_fixed, spaces_to_dash_fixed, keep_word_fixed,
      squeeze_fixed, trim_start_fixed, trim_end_fixed; try done.
    - revert Hch. apply all_chars_impl. unfold slug_char.
      by intros c [? _]%andb_prop.
    - revert Hch. apply all_chars_impl. intros c Hc.
      by rewrite (slug_char_no_space c Hc).
    - revert Hch. apply all_chars_impl. unfold slug_char.
      by intros c [_ ?]%andb_prop. }
  split; [apply slugify_shape|]. split; [apply Hfix|].
  apply Hfix, slugify_shape.
Qed.

(** The slug of "Senior React Engineer" is unchanged by [slugify]. *)
Lemma slugify_gives_a_fixed_slug_witness :
  slugify "senior-react-engineer" = "senior-react-engineer".
Proof.
  apply (slugify_gives_a_fixed_slug "senior-react-engineer" "").
  reflexivity.
Defined.

End SlugFixed.

(* ********************************************************************* *)
(** * Links                                                               *)
(* ********************************************************************* *)

Section Links.
Import Dexie Handlers.

Lemma split_no_separator (sep : ascii) (s : string) :
  JobForm.all_chars (fun c => negb (Ascii.eqb c sep)) s = true ->
  split sep s = [s].
Proof.
  induction s as [|c s IH]; [done|]. cbn [JobForm.all_chars split].
  intros [Hc Hs]%andb_prop. apply negb_true_iff in Hc.
  by rewrite Hc, (IH Hs).
Qed.

Lemma slug_char_no_slash (c : ascii) :
  JobForm.slug_char c = true -> negb (Ascii.eqb c "/") = true.
Proof. destruct c as [[] [] [] [] [] [] [] []]; by vm_compute. Qed.

(** The route of a link [#/jobs/<slug>]. *)
Lemma parseHash_job (slug : string) :
  JobForm.all_chars (fun c => negb (Ascii.eqb c "/")) slug = true ->
  slug <> "" ->
  Router.parseHash ("#/jobs/" ++ slug)
  = {| Router.page := "job-detail"; Router.id := Some slug |}.
Proof.
  intros Hslash Hne. unfold Router.parseHash.
  change (Router.substring1 ("#/jobs/" ++ slug)) with ("/jobs/" ++ slug)%string.
  change (or_default ("/jobs/" ++ slug) "/") with ("/jobs/" ++ slug)%string.
  assert (split "/" ("/jobs/" ++ slug) = [""; "jobs"; slug]) as ->.
  { change (split "/" ("/jobs/" ++ slug))
      with ("" :: "jobs" :: split "/" slug)%string.
    by rewrite (split_no_separator _ _ Hslash). }
  cbn [List.filter Router.nonempty String.eqb negb].
  assert (Router.nonempty slug = true) as Hn.
  { unfold Router.nonempty. by destruct slug. }
  rewrite Hn. cbn [lookup list_lookup Router.part_is Router.present].
  rewrite Hn. unfold Router.part_is. by rewrite bool_decide_eq_true_2.
Qed.

Lemma head_of_copies {A} (l : list A) (a : A) :
  a ∈ l -> (forall x, x ∈ l -> x = a) -> head l = Some a.
Proof.
  destruct l as [|x l]; [by intros ?%not_elem_of_nil|].
  intros _ H. cbn. f_equal. apply H. by left.
Qed.

(** The lookup by slug of the job page finds the one job with that
    slug. *)
Lemma fetchJob_finds (db : DB) (k : Z) (job : obj) (slug : string) :
  Inv.unique_on "slug" (jobs db) ->
  rows (jobs db) !! k = Some job -> job !! "slug" = Some (VStr slug) ->
  Router.fetchJob slug db = Some job.
Proof.
  intros Hun Hk Hslug. unfold Router.fetchJob, where_equals.
  apply head_of_copies.
  - apply list_elem_of_In, filter_In. split.
    + apply list_elem_of_In, elem_of_toArray. by exists k.
    + by apply bool_decide_eq_true.
  - intros x [Hx Hxs]%list_elem_of_In%filter_In.
    apply list_elem_of_In, elem_of_toArray in Hx as [k' Hk'].
    apply bool_decide_eq_true in Hxs.
    assert (k' = k) as ->; [|congruence].
    apply (Hun k' x Hk' k job Hk); [by rewrite Hxs|congruence].
Qed.

End Links.

Section FormFacts.
Import Dexie Handlers JobsPage JobForm.

Lemma violates_unique_free sch k (o : obj) (rs : gmap Z obj) :
  (forall f k' r, f ∈ uniques sch -> rs !! k' = Some r ->
                  r !! f <> o !! f) ->
  violates_unique sch k o rs = false.
Proof.
  intros Hfree. apply not_true_iff_false. unfold violates_unique.
  intros (f & Hf & H)%existsb_exists. apply andb_prop in H as [_ H].
  apply existsb_exists in H as ([k' r] & Hin & H).
  apply andb_prop in H as [_ H%bool_decide_eq_true]. cbn in H.
  apply (Hfree f k' r); [by apply list_elem_of_In| |done].
  by apply elem_of_map_to_list, list_elem_of_In.
Qed.

(** The load of the board touches the loaded jobs only, and raises a
    toast only when the listing fails. *)
Lemma fetchJobs_frame search status p (w : World) :
  db (fetchJobs search status p w) = db w
  /\ calls (fetchJobs search status p w) = calls w
  /\ page (view (fetchJobs search status p w)) = page (view w)
  /\ toasts (fetchJobs search status p w)
     = toasts w ++ (if ok (get_jobs search status p 10 "order" (db w))
                    then [] else ["error"])
  /\ (ok (get_jobs search status p 10 "order" (db w)) = true ->
      jobs (view (fetchJobs search status p w))
      = Spec.items_of (get_jobs search status p 10 "order" (db w))).
Proof.
  unfold fetchJobs.
  destruct (ok (get_jobs search status p 10 "order" (db w))) eqn:Hok;
    [|done].
  unfold get_jobs in *.
  destruct (if negb (String.eqb search "") then _ else _) as [c|];
    [|discriminate Hok].
  cbn [db calls view page toasts body]. by rewrite app_nil_r.
Qed.

Lemma longer_differs {A} (l more : list A) : more <> [] -> l ++ more <> l.
Proof.
  intros Hne E. apply (f_equal length) in E. rewrite length_app in E.
  destruct more; [done|]. simpl in E. lia.
Qed.

Lemma fetchJobs_jobs search status p (w : World) :
  ok (get_jobs search status p 10 "order" (db w)) = true ->
  jobs (view (fetchJobs search status p w))
  = Spec.items_of (get_jobs search status p 10 "order" (db w)).
Proof. apply fetchJobs_frame. Qed.

(** A job whose slug is free is added under the next key. *)
Lemma post_jobs_free (body : obj) (now : string) (db : DB) (s : string) :
  Inv.table_ok jobs_schema (Handlers.jobs db) ->
  body !! "id" = None -> body !! "slug" = Some (VStr s) ->
  Inv.slug_free s (Handlers.jobs db) ->
  exists (t : Table) (job : obj),
    post_jobs false body now db
    = ({| status := 201; body := JsonObj job |}, set_jobs t db)
    /\ Inv.table_ok jobs_schema t
    /\ rows (Handlers.jobs db) !! keyGen (Handlers.jobs db) = None
    /\ rows t !! keyGen (Handlers.jobs db) = Some job
    /\ (forall f, f ∉ ["id"; "status"; "createdAt"; "order"] ->
          job !! f = body !! f)
    /\ job !! "status" = Some (VStr "active").
Proof.
  intros Hok Hid Hslug Hfree. unfold post_jobs.
  set (jwd := <["order" := _]> _).
  pose proof (add_ok jobs_schema jwd (Handlers.jobs db) Hok) as [Hok' _].
  assert (jwd !! "id" = None) as Hjid
    by (unfold jwd; by rewrite !lookup_insert_ne by done).
  destruct Hok as (_ & Hah & _). specialize (Hah eq_refl).
  assert (rows (Handlers.jobs db) !! keyGen (Handlers.jobs db) = None)
    as Hfresh.
  { destruct (rows (Handlers.jobs db) !! keyGen (Handlers.jobs db)) eqn:E;
      [|done]. pose proof (Hah _ _ E) as Hlt. cbn in Hlt. lia. }
  assert (violates_unique jobs_schema (keyGen (Handlers.jobs db))
            (<["id" := VNum (keyGen (Handlers.jobs db))]> jwd)
            (rows (Handlers.jobs db)) = false) as Hv.
  { apply violates_unique_free.
    intros f k' r Hf%list_elem_of_singleton Hr. subst f.
    unfold jwd. rewrite !lookup_insert_ne, Hslug by done.
    exact (Hfree k' r Hr). }
  unfold add in *. cbn [primKey autoInc jobs_schema] in *.
  rewrite Hjid, Hv in *. cbn [fst] in Hok'.
  eexists _, _. split; [reflexivity|].
  split; [exact Hok'|]. split; [done|].
  split; [apply lookup_insert_eq|]. split.
  - intros f Hf. rewrite !not_elem_of_cons in Hf.
    destruct Hf as (? & ? & ? & ? & _). unfold jwd.
    by rewrite !lookup_insert_ne.
  - unfold jwd. by rewrite !lookup_insert_ne, lookup_insert_eq by done.
Qed.

End FormFacts.

Section FormTheorems.
Import Dexie Handlers JobsPage JobForm.

Local Ltac not_listed :=
  rewrite !not_elem_of_cons; repeat split; try discriminate;
  apply not_elem_of_nil.

Lemma slug_no_slash (s : string) :
  is_slug s = true ->
  all_chars (fun c => negb (Ascii.eqb c "/")) s = true.
Proof.
  unfold is_slug. intros H. do 3 apply andb_prop in H as [H _].
  revert H. apply all_chars_impl, slug_char_no_slash.
Qed.

(** X25 — The link of a job opens that job: for a stored job whose slug
    is a non-empty slug, the hash [#/jobs/<slug>] of its list item parses
    to the route "job-detail" with that slug, and the lookup by slug of
    the job page finds this very job (slugs being unique). *)
Theorem job_link_opens_the_job
    (db : DB) (k : Z) (job : obj) (slug : string) :
  Inv.unique_on "slug" (Handlers.jobs db) ->
  rows (Handlers.jobs db) !! k = Some job ->
  job !! "slug" = Some (VStr slug) ->
  is_slug slug = true -> slug <> "" ->
  Router.parseHash (Router.job_href job)
  = {| Router.page := "job-detail"; Router.id := Some slug |}
  /\ Router.fetchJob slug db = Some job.
Proof.
  intros Hun Hk Hslug Hshape Hne. split.
  - unfold Router.job_href. rewrite Hslug. cbn [template].
    apply parseHash_job; [by apply slug_no_slash|done].
  - by apply (fetchJob_finds db k).
Qed.

(** The link of job 2 of the sample store. *)
Lemma job_link_opens_the_job_witness :
  Router.parseHash "#/jobs/senior-react-engineer"
  = {| Router.page := "job-detail";
       Router.id := Some "senior-react-engineer" |}
  /\ Router.fetchJob "senior-react-engineer" Sample.store = Some Sample.job2.
Proof.
  apply (job_link_opens_the_job Sample.store 2 Sample.job2
           "senior-react-engineer").
  - apply (bool_decide_unpack (Inv.unique_on _ _)). vm_compute. exact I.
  - vm_compute. reflexivity.
  - vm_compute. reflexivity.
  - vm_compute. reflexivity.
  - discriminate.
Defined.

(** X26 — Submitting the job form with a title whose slug no stored job
    has (on a consistent store, the failure trial passing): one create-job
    call is issued and a success toast raised; the job is stored under a
    key that was free, with the title, the slug of the title and the
    status "active"; and the link of the new job opens it — unless the
    slug is empty (a title with no letter, digit or underscore), in which
    case the link leads to the jobs list.  The board ends on the page it
    was on, not on the first: once the toast has come and gone it shows
    page [filters.page] of the store with the new job in it;
    [filters.page] keeps its value and the store is the one the call
    left. *)
Theorem submitted_job_is_created_and_linked
    (title description : string) (tags : nat) (now : string)
    (search status : string) (w : World) :
  Inv.consistent (db w) -> title <> "" ->
  Inv.slug_free (slugify title) (Handlers.jobs (db w)) ->
  let w' := handleSubmit false title description tags now search status w in
  let quiet := settle search status w w' in
  exists (k : Z) (job : obj),
    rows (Handlers.jobs (db w)) !! k = None
    /\ rows (Handlers.jobs (db w')) !! k = Some job
    /\ job !! "title" = Some (VStr title)
    /\ job !! "slug" = Some (VStr (slugify title))
    /\ job !! "status" = Some (VStr "active")
    /\ calls w' = calls w ++ [CreateJob (newJob title description tags) now]
    /\ toasts w'
       = toasts w
         ++ "success" :: (if ok (get_jobs search status 1 10 "order" (db w'))
                          then [] else ["error"])
    /\ page (view w') = page (view w)
    /\ db quiet = db w' /\ calls quiet = calls w'
    /\ page (view quiet) = page (view w)
    /\ (ok (get_jobs search status (page (view w)) 10 "order" (db w')) = true ->
        jobs (view quiet)
        = Spec.items_of
            (get_jobs search status (page (view w)) 10 "order" (db w')))
    /\ (slugify title <> "" ->
        Router.parseHash (Router.job_href job)
        = {| Router.page := "job-detail";
             Router.id := Some (slugify title) |}
        /\ Router.fetchJob (slugify title) (db w') = Some job)
    /\ (slugify title = "" ->
        Router.parseHash (Router.job_href job)
        = {| Router.page := "jobs"; Router.id := None |}).
Proof.
  intros (Hj & _) Hne Hfree w' quiet.
  destruct (post_jobs_free (newJob title description tags) now (db w)
              (slugify title) Hj eq_refl eq_refl Hfree)
    as (t & job & Hpost & Hok & Hfresh & Hrow & Hbody & Hst).
  set (w1 := {| view := view w; db := set_jobs t (db w);
                calls := calls w
                         ++ [CreateJob (newJob title description tags) now];
                toasts := toasts w ++ ["success"] |}).
  assert (w' = fetchJobs search status 1 w1) as Hw'.
  { unfold w', handleSubmit.
    destruct (String.eqb_spec title "") as [|_]; [done|].
    cbn [dispatch]. by rewrite Hpost. }
  destruct (fetchJobs_frame search status 1 w1)
    as (Hdb & Hcalls & Hpage & Ht & _).
  rewrite <- Hw' in Hdb, Hcalls, Hpage, Ht.
  cbn [db calls view toasts w1] in Hdb, Hcalls, Hpage, Ht.
  rewrite <- Hdb, <- (assoc_L (++)) in Ht. cbn [app] in Ht.
  assert (quiet = fetchJobs search status (page (view w)) w') as Hquiet.
  { unfold quiet, settle. rewrite Hpage, Ht.
    by rewrite bool_decide_false by (by apply longer_differs). }
  destruct (fetchJobs_frame search status (page (view w)) w')
    as (Hdb2 & Hcalls2 & Hpage2 & _ & _).
  pose proof (fetchJobs_jobs search status (page (view w)) w') as Hv.
  rewrite <- Hquiet in Hdb2, Hcalls2, Hpage2, Hv.
  rewrite Hdb in Ht, Hdb2, Hv. rewrite Hcalls in Hcalls2.
  rewrite Hpage in Hpage2. rewrite Hdb, Hcalls, Hpage.
  assert (job !! "slug" = Some (VStr (slugify title))) as Hslug
    by (rewrite Hbody; [done|not_listed]).
  exists (keyGen (Handlers.jobs (db w))), job.
  split; [done|]. split; [done|].
  split; [rewrite Hbody; [done|not_listed]|].
  do 9 (split; [done|]). split.
  - intros Hs. split.
    + unfold Router.job_href. rewrite Hslug. cbn [template].
      apply parseHash_job; [apply slug_no_slash, slugify_shape|done].
    + apply (fetchJob_finds _ (keyGen (Handlers.jobs (db w)))); try done.
      destruct Hok as (_ & _ & Hun). rewrite Forall_forall in Hun.
      apply Hun. by apply list_elem_of_singleton.
  - intros Hs. unfold Router.job_href. rewrite Hslug, Hs. reflexivity.
Qed.

End FormTheorems.

Section FormRuns.
Import Dexie Handlers JobsPage JobForm.

(** "Data Engineer" submitted on the second page of the sample board: the
    job is stored, and the board ends on its second page, which has no
    job. *)
Lemma submitted_job_is_created_and_linked_witness :
  let w' := handleSubmit false "Data Engineer" "" 0 "2025-10-20" "" "all"
              Sample.second_page in
  exists job : obj,
    Router.fetchJob "data-engineer" (db w') = Some job
    /\ job !! "title" = Some (VStr "Data Engineer")
    /\ page (view (settle "" "all" Sample.second_page w')) = 2%Z
    /\ jobs (view (settle "" "all" Sample.second_page w')) = [].
Proof.
  pose proof (submitted_job_is_created_and_linked
                "Data Engineer" "" 0 "2025-10-20" "" "all"
                Sample.second_page) as H.
  cbv zeta in H.
  destruct H as (k & job & _ & _ & Htitle & _ & _ & _ & _ & _ & _ & _
                 & Hpage & Hjobs & Hlink & _).
  - apply (bool_decide_unpack (Inv.consistent _)). vm_compute. exact I.
  - discriminate.
  - apply (bool_decide_unpack (Inv.slug_free _ _)). vm_compute. exact I.
  - destruct Hlink as [_ Hfetch]; [discriminate|].
    exists job. split; [exact Hfetch|]. split; [exact Htitle|].
    split; [exact Hpage|].
    rewrite Hjobs by (vm_compute; reflexivity). vm_compute. reflexivity.
Defined.

(** X27 — Submitting the job form with a title whose slug a stored job
    already has (two titles that differ in case, blanks or punctuation
    share their slug) creates nothing: the create-job call is issued and
    answered by the 500 of an escaped exception, store and board are as
    they were. *)
Theorem submitted_duplicate_creates_nothing
    (title description : string) (tags : nat) (now : string)
    (search status : string) (w : World) (k : Z) (j : obj) :
  Inv.ahead (Handlers.jobs (db w)) -> title <> "" ->
  rows (Handlers.jobs (db w)) !! k = Some j ->
  j !! "slug" = Some (VStr (slugify title)) ->
  let w' := handleSubmit false title description tags now search status w in
  db w' = db w /\ view w' = view w
  /\ calls w' = calls w ++ [CreateJob (newJob title description tags) now]
  /\ (dispatch false (CreateJob (newJob title description tags) now)
        (db w)).1 = unhandled.
Proof.
  intros Hah Hne Hk Hslug w'.
  assert (post_jobs false (newJob title description tags) now (db w)
          = (unhandled, db w)) as Hpost.
  { unfold post_jobs.
    match goal with
    | |- context [add jobs_schema ?o (Handlers.jobs (db w))] =>
        destruct (add_taken jobs_schema o (Handlers.jobs (db w)) "slug" k j)
          as [e ->]
    end; try done; by apply list_elem_of_singleton. }
  unfold w', handleSubmit.
  destruct (String.eqb_spec title "") as [|_]; [done|].
  cbn [dispatch]. by rewrite Hpost.
Qed.

(** "BACKEND   engineer!" has the slug of the stored "Backend Engineer". *)
Lemma submitted_duplicate_creates_nothing_witness :
  db (handleSubmit false "BACKEND   engineer!" "" 0
        "2025-10-20" "" "all" Sample.second_page) = Sample.store.
Proof.
  pose proof (submitted_duplicate_creates_nothing
                "BACKEND   engineer!" "" 0 "2025-10-20" "" "all"
                Sample.second_page 1 Sample.job1) as H.
  cbv zeta in H. destruct H as (Hdb & _).
  - apply (bool_decide_unpack (Inv.ahead _)). vm_compute. exact I.
  - discriminate.
  - vm_compute. reflexivity.
  - vm_compute. reflexivity.
  - exact Hdb.
Defined.

End FormRuns.

(* ********************************************************************* *)
(** * Toasts                                                              *)
(* ********************************************************************* *)

Section ToastFacts.
Import Toasts.

Lemma step_keeps_ids (st : State) (e : Event) :
  NoDup (id <$> toasts st) ->
  Forall (fun t => id t < idCounter st)%nat (toasts st) ->
  NoDup (id <$> toasts (step st e))
  /\ Forall (fun t => id t < idCounter (step st e))%nat (toasts (step st e)).
Proof.
  intros Hnd Hlt. destruct e as [m ty|i]; cbn [step addToast removeToast
    toasts idCounter].
  - split.
    + rewrite fmap_app. apply NoDup_app. split; [done|]. split.
      * intros x Hx [->|[]%not_elem_of_nil]%elem_of_cons.
        apply list_elem_of_fmap in Hx as (t & Ht & Hin).
        rewrite Forall_forall in Hlt. specialize (Hlt t Hin). cbn in Ht. lia.
      * apply NoDup_singleton.
    + apply Forall_app. split.
      * eapply Forall_impl; [exact Hlt|]. intros t Ht. cbn in Ht |- *. lia.
      * apply Forall_singleton. cbn. lia.
  - split.
    + eapply sublist_NoDup; [exact Hnd|].
      apply fmap_sublist, List_filter_sublist.
    + rewrite Forall_forall in Hlt |- *. intros t Ht. apply Hlt.
      eapply elem_of_sublist; [exact Ht|apply List_filter_sublist].
Qed.

Lemma run_keeps_ids (es : list Event) (st : State) :
  NoDup (id <$> toasts st) ->
  Forall (fun t => id t < idCounter st)%nat (toasts st) ->
  NoDup (id <$> toasts (foldl step st es))
  /\ Forall (fun t => id t < idCounter (foldl step st es))%nat
       (toasts (foldl step st es)).
Proof.
  revert st. induction es as [|e es IH]; intros st Hnd Hlt; [done|].
  cbn [foldl]. destruct (step_keeps_ids st e Hnd Hlt) as [Hnd' Hlt'].
  by apply IH.
Qed.

Lemma filter_one_out (l : list Toast) (i : nat) :
  NoDup (id <$> l) ->
  (length l <= S (length (List.filter (fun t => negb (id t =? i)%nat) l)))%nat.
Proof.
  induction l as [|t l IH]; [cbn; lia|].
  rewrite fmap_cons. intros [Ht Hnd]%NoDup_cons. cbn [List.filter].
  destruct (Nat.eqb_spec (id t) i) as [Hi|Hi]; cbn [negb length].
  - rewrite forallb_filter_id; [lia|].
    apply forallb_forall. intros x Hx%list_elem_of_In.
    destruct (Nat.eqb_spec (id x) i) as [Hxi|]; [|done].
    exfalso. apply Ht. rewrite Hi, <- Hxi. by apply list_elem_of_fmap_2.
  - specialize (IH Hnd). lia.
Qed.

(** X28 — Whatever toasts are added, dismissed and expired, the toasts
    on screen carry pairwise different ids, all below the counter (so the
    next toast gets a new one), and removing a toast by its id takes at
    most one toast off the screen. *)
Theorem toast_ids_are_unique (es : list Event) (i : nat) :
  NoDup (id <$> toasts (run es))
  /\ Forall (fun t => id t < idCounter (run es))%nat (toasts (run es))
  /\ (length (toasts (run es))
      <= S (length (toasts (removeToast i (run es)))))%nat
  /\ (forall t, t ∈ toasts (removeToast i (run es))
                <-> t ∈ toasts (run es) /\ id t <> i).
Proof.
  destruct (run_keeps_ids es initial) as [Hnd Hlt];
    [constructor|constructor|].
  fold (run es) in Hnd, Hlt. split; [done|]. split; [done|]. split.
  - by apply filter_one_out.
  - intros t. cbn [removeToast toasts].
    rewrite list_elem_of_In, filter_In, <- list_elem_of_In.
    by destruct (Nat.eqb_spec (id t) i); split; intros [? ?].
Qed.

End ToastFacts.

(* ********************************************************************* *)
(** * Conditional questions                                               *)
(* ********************************************************************* *)

Section Visibility.
Import AssessmentForm.

(** X29 — Conditional questions.  [responses] is a plain object, so
    what [responses[questionId]] finds is the answer stored under that id
    or, when there is none and the id is the name of a property that every
    object inherits ("constructor", "toString", ...), that property.  A
    question whose condition names a question for which nothing is found,
    or an answer that is empty (the empty text, 0), is hidden whatever the
    operator, "neq" included.  Once something is found, "neq" shows the
    question exactly when "eq" hides it, on a ticked list "contains" is
    "eq", and an operator the switch does not know shows the question; on
    an inherited property, with no answer given, "eq" hides the question
    and "neq" shows it.  A question without a condition, or whose
    condition names no question, is always shown. *)
Theorem conditional_question_visibility
    (printed : string -> string) (c : Condition) (op : option val)
    (responses : gmap string answer) :
  isQuestionVisible printed None responses = true
  /\ (truthy (questionId c) = false ->
      isQuestionVisible printed (Some c) responses = true)
  /\ (truthy (questionId c) = true ->
      let key := Handlers.template (questionId c) in
      let target := read responses key in
      (responses !! key = None ->
       answered target = bool_decide (key ∈ CandidateViews.inherited))
      /\ (answered target = false ->
          isQuestionVisible printed (Some (with_operator c op)) responses
          = false)
      /\ (answered target = true ->
          isQuestionVisible printed
            (Some (with_operator c (Some (VStr "neq")))) responses
          = negb (isQuestionVisible printed
                    (Some (with_operator c (Some (VStr "eq")))) responses)
          /\ (known_operator op = false ->
              isQuestionVisible printed (Some (with_operator c op)) responses
              = true)
          /\ (forall items, target = Some (Own (Array items)) ->
                isQuestionVisible printed
                  (Some (with_operator c (Some (VStr "contains")))) responses
                = isQuestionVisible printed
                    (Some (with_operator c (Some (VStr "eq")))) responses)
          /\ (forall name, target = Some (Inherited name) ->
                isQuestionVisible printed
                  (Some (with_operator c (Some (VStr "eq")))) responses
                = false
                /\ isQuestionVisible printed
                     (Some (with_operator c (Some (VStr "neq")))) responses
                   = true))).
Proof.
  split; [done|]. split.
  - intros Hq. unfold isQuestionVisible. by rewrite Hq.
  - intros Hq key target. unfold isQuestionVisible, with_operator.
    cbn [questionId operator value]. rewrite Hq. cbn [negb].
    fold key. fold target.
    split; [|split].
    { intros Hnone. unfold target, read. rewrite Hnone.
      by destruct (bool_decide (key ∈ CandidateViews.inherited)). }
    { by intros ->. }
    intros Ha. rewrite Ha. cbn [negb].
    split; [|split; [|split]].
    + unfold op_is.
      rewrite (bool_decide_eq_false_2 (Some (VStr "neq") = Some (VStr "eq")))
        by discriminate.
      rewrite !bool_decide_eq_true_2 by done.
      by destruct target as [[[v|items]|name]|].
    + unfold known_operator. intros Hop.
      apply orb_false_elim in Hop as [Hop Hc].
      apply orb_false_elim in Hop as [He Hn]. rewrite He, Hn, Hc.
      by destruct target as [[[v|items]|name]|].
    + intros items ->. unfold op_is.
      rewrite (bool_decide_eq_false_2
                 (Some (VStr "contains") = Some (VStr "eq"))),
        (bool_decide_eq_false_2
           (Some (VStr "contains") = Some (VStr "neq"))) by discriminate.
      by rewrite !bool_decide_eq_true_2.
    + intros name ->. unfold op_is.
      rewrite (bool_decide_eq_false_2 (Some (VStr "neq") = Some (VStr "eq")))
        by discriminate.
      by rewrite !bool_decide_eq_true_2.
Qed.

(** A follow-up question shown when question q1 is answered "Yes": it is
    hidden while q1 is unanswered, under "neq" just as under "eq", and
    shown under "neq" once q1 is answered "No".  A condition on a question
    named "constructor" shows the follow-up under "neq" before any answer
    is given. *)
Lemma conditional_question_visibility_witness :
  let printed := fun _ : string => "function" in
  isQuestionVisible printed
    (Some {| questionId := Some (VStr "q1"); operator := Some (VStr "neq");
             value := Some (VStr "Yes") |}) ∅ = false
  /\ isQuestionVisible printed
       (Some {| questionId := Some (VStr "q1"); operator := Some (VStr "neq");
                value := Some (VStr "Yes") |})
       {[ "q1" := Scalar (VStr "No") ]} = true
  /\ isQuestionVisible printed
       (Some {| questionId := Some (VStr "constructor");
                operator := Some (VStr "neq");
                value := Some (VStr "Yes") |}) ∅ = true.
Proof.
  intros printed.
  pose (c := {| questionId := Some (VStr "q1"); operator := Some (VStr "eq");
                value := Some (VStr "Yes") |}).
  pose (c' := {| questionId := Some (VStr "constructor");
                 operator := Some (VStr "eq");
                 value := Some (VStr "Yes") |}).
  split; [|split].
  - destruct (conditional_question_visibility printed c
                (Some (VStr "neq")) ∅) as (_ & _ & H).
    destruct H as (_ & H & _); [reflexivity|]. apply H. reflexivity.
  - destruct (conditional_question_visibility printed c None
                {[ "q1" := Scalar (VStr "No") ]}) as (_ & _ & H).
    destruct H as (_ & _ & H); [reflexivity|].
    destruct H as [H _]; [reflexivity|].
    etrans; [exact H|]. vm_compute. reflexivity.
  - destruct (conditional_question_visibility printed c' None ∅)
      as (_ & _ & H).
    destruct H as (_ & _ & H); [reflexivity|].
    destruct H as (_ & _ & _ & H); [reflexivity|].
    destruct (H "constructor") as [_ Hneq]; [reflexivity|]. exact Hneq.
Defined.

End Visibility.

(* ********************************************************************* *)
(** * Numbers in links                                                    *)
(* ********************************************************************* *)

Section Numerals.







End Numerals.

Section CandidateLinks.
Import Dexie Handlers.




End CandidateLinks.
